(** * MangaXScope: the chapter-provider sources, embedded and verified

    A shallow embedding of [lib/sources/mangadex.ts] and
    [lib/sources/batoto.ts] (with the shared shapes of
    [lib/sources/types.ts]), followed by the properties the specification
    states about them.

    Layout: the JavaScript runtime primitives the sources call ([JS]),
    the shared data model ([Types]), the MangaDex adapter ([MangaDex]),
    the Batoto scraper ([Batoto]), the concrete inputs used as examples
    ([Fixtures]); then the theorems.

    Strings are modelled by their code units, over the range 0..255. *)

From Stdlib Require Import ZArith QArith Qabs Qround Qpower Qcanon Lqa.
From Stdlib Require Import List String Ascii Bool Lia.
From Stdlib Require Import DecimalString DecimalZ DecimalPos Permutation Sorted Finite.
From Equations Require Import Equations.
From Equations.Prop Require Import Logic.
Import ListNotations.

Local Open Scope string_scope.
Local Open Scope list_scope.
Local Open Scope Z_scope.

Set Warnings "-register-all".

(* ===================================================================== *)
(** * The runtime primitives                                              *)
(* ===================================================================== *)

Module JS.

(** An exception value: [new Error(message)], a [RangeError], or whatever
    a failed [fetch] rejects with. *)
Record Error := mkError { name : string; message : string }.

(** How an [async] function settles (and, for a synchronous one, whether
    it returns or throws). *)
Inductive Settled (A : Type) :=
| Resolved (value : A)
| Rejected (reason : Error).
Arguments Resolved {A} value.
Arguments Rejected {A} reason.

(** A [Response] as the sources read it: the [ok] flag, the [status], and
    what awaiting the body ([response.json()], [response.text()]) gives,
    decoded to the type the code ascribes to it. *)
Record Response (B : Type) :=
  mkResponse { ok : bool; status : Z; body : Settled B }.
Arguments mkResponse {B} ok status body.
Arguments ok {B} r.
Arguments status {B} r.
Arguments body {B} r.

(** [await fetch(url)] either rejects (network failure, abort) or yields
    a response. *)
Inductive Fetched (B : Type) :=
| NetworkFailure (reason : Error)
| Responded (response : Response B).
Arguments NetworkFailure {B} reason.
Arguments Responded {B} response.

(** ** Numbers *)

(** A Number value. Finite values are kept as the rational they denote;
    the sign of zero is not tracked (no operation below observes it). *)
Inductive number :=
| NaN
| Infinity (negative : bool)
| Finite (q : Q).

(** Round to the nearest integer, ties to even. *)
Definition roundHalfEven (x : Q) : Z :=
  let a := Qnum x in
  let b := Z.pos (Qden x) in
  let q := a / b in
  let r := a mod b in
  match (2 * r) ?= b with
  | Lt => q
  | Gt => q + 1
  | Eq => if Z.even q then q else q + 1
  end.

(** [floor (log2 x)], for positive [x]. *)
Definition ilog2 (x : Q) : Z :=
  let l := Z.log2 (Qnum x) - Z.log2 (Z.pos (Qden x)) in
  if Qle_bool (Qpower 2 l) x then l else l - 1.

(** The binary64 value nearest to a positive rational (53 significant
    bits, least exponent -1074, ties to even, overflow to Infinity). *)
Definition roundPositive (x : Q) : number :=
  let e := Z.max (ilog2 x - 52) (-1074) in
  let v := Qred (inject_Z (roundHalfEven (x / Qpower 2 e)) * Qpower 2 e) in
  if Qle_bool (Qpower 2 1024) v then Infinity false else Finite v.

(** The Number value for a mathematical value. *)
Definition round64 (x : Q) : number :=
  match Qnum x with
  | Z0 => Finite 0
  | Zpos _ => roundPositive x
  | Zneg _ =>
      match roundPositive (- x) with
      | Finite q => Finite (Qred (- q))
      | Infinity _ => Infinity true
      | NaN => NaN
      end
  end.

Definition ofZ (n : Z) : number := round64 (inject_Z n).

(** The rationals binary64 can hold are multiples of the least positive
    one, 2^-1074. *)
Definition representable (v : Q) : Prop :=
  exists k : Z, (v == inject_Z k * Qpower 2 (-1074))%Q.

(** A Number that takes part in comparisons: not NaN and, when finite,
    a multiple of 2^-1074. *)
Definition ordered (x : number) : Prop :=
  match x with
  | NaN => False
  | Infinity _ => True
  | Finite q => representable q
  end.

(** [x <= y], false on NaN. *)
Definition le (x y : number) : Prop :=
  match x, y with
  | NaN, _ | _, NaN => False
  | Infinity true, _ => True
  | _, Infinity false => True
  | Finite a, Finite b => (a <= b)%Q
  | _, _ => False
  end.

(** A Number that is an integer other than zero, or an infinity. *)
Definition nonZeroInteger (x : number) : Prop :=
  (exists k : Z, k <> 0 /\ x = Finite (inject_Z k))
  \/ (exists negative, x = Infinity negative).

(** [a - b]. *)
Definition sub (a b : number) : number :=
  match a, b with
  | NaN, _ | _, NaN => NaN
  | Infinity s, Infinity s' => if Bool.eqb s s' then NaN else Infinity s
  | Infinity s, Finite _ => Infinity s
  | Finite _, Infinity s => Infinity (negb s)
  | Finite x, Finite y => round64 (x - y)
  end.

(** [a * b], for a finite, non-zero second factor [b]. *)
Definition mul (a : number) (b : Q) : number :=
  match a with
  | NaN => NaN
  | Infinity s => Infinity (if Qle_bool 0 b then s else negb s)
  | Finite x => round64 (x * b)
  end.

(** [a + b]. *)
Definition add (a b : number) : number :=
  match a, b with
  | NaN, _ | _, NaN => NaN
  | Infinity s, Infinity s' => if Bool.eqb s s' then Infinity s else NaN
  | Infinity s, Finite _ | Finite _, Infinity s => Infinity s
  | Finite x, Finite y => round64 (x + y)
  end.

(** [a * b] on two Numbers. *)
Definition times (a b : number) : number :=
  match a, b with
  | NaN, _ | _, NaN => NaN
  | Infinity s, Infinity s' => Infinity (xorb s s')
  | Infinity s, Finite y | Finite y, Infinity s =>
      if Qeq_bool y 0 then NaN
      else Infinity (xorb s (negb (Qle_bool 0 y)))
  | Finite x, Finite y => round64 (x * y)
  end.

(** [a / b]; a zero divisor counts as positive (the sign of zero is not
    tracked). *)
Definition div (a b : number) : number :=
  match a, b with
  | NaN, _ | _, NaN => NaN
  | Infinity _, Infinity _ => NaN
  | Infinity s, Finite y => Infinity (xorb s (negb (Qle_bool 0 y)))
  | Finite _, Infinity _ => Finite 0
  | Finite x, Finite y =>
      if Qeq_bool y 0 then
        if Qeq_bool x 0 then NaN else Infinity (negb (Qle_bool 0 x))
      else round64 (x / y)
  end.

(** [Math.abs(x)]. *)
Definition abs (x : number) : number :=
  match x with
  | NaN => NaN
  | Infinity _ => Infinity false
  | Finite q => Finite (Qabs q)
  end.

(** [a < b] and [a > b], both false when an operand is NaN. *)
Definition lessThan (a b : number) : bool :=
  match a, b with
  | NaN, _ | _, NaN => false
  | Infinity s, Infinity s' => s && negb s'
  | Infinity s, Finite _ => s
  | Finite _, Infinity s => negb s
  | Finite x, Finite y => negb (Qle_bool y x)
  end.

Definition greaterThan (a b : number) : bool := lessThan b a.

(** [x < 0] and [x > 0], both false on NaN. *)
Definition isNegative (x : number) : bool :=
  match x with
  | NaN => false
  | Infinity s => s
  | Finite q => negb (Qle_bool 0 q)
  end.

Definition isPositive (x : number) : bool :=
  match x with
  | NaN => false
  | Infinity s => negb s
  | Finite q => negb (Qle_bool q 0)
  end.

(** Truthiness of a Number: [0] and [NaN] are falsy. *)
Definition truthyNumber (x : number) : bool :=
  match x with
  | NaN => false
  | Infinity _ => true
  | Finite q => negb (Qeq_bool q 0)
  end.

(** [x || undefined]. *)
Definition orUndefined (x : number) : option number :=
  if truthyNumber x then Some x else None.

(** [String(n)] / template interpolation of an integral number. *)
Definition ToString (n : Z) : string := NilZero.string_of_int (Z.to_int n).

(** ** Arrays *)

(** [Array.prototype.slice(start, end)], negative positions counting from
    the end of the array. *)
Definition slice {A : Type} (l : list A) (start end_ : Z) : list A :=
  let len := Z.of_nat (List.length l) in
  let k := if start <? 0 then Z.max (len + start) 0 else Z.min start len in
  let final := if end_ <? 0 then Z.max (len + end_) 0 else Z.min end_ len in
  firstn (Z.to_nat (final - k)) (skipn (Z.to_nat k) l).

(** [[...new Set(l)]]: the first occurrence of each element, in order. *)
Fixpoint unique_from (seen l : list string) : list string :=
  match l with
  | [] => []
  | x :: rest =>
      if existsb (String.eqb x) seen then unique_from seen rest
      else x :: unique_from (x :: seen) rest
  end.

Definition unique (l : list string) : list string := unique_from [] l.

(** ** Strings *)

(** White space and line terminators, as [trim], [parseInt], [parseFloat]
    and the class [\s] understand them. *)
Definition isWhiteSpace (c : ascii) : bool :=
  let n := N_of_ascii c in
  ((9 <=? n) && (n <=? 13) || (n =? 32) || (n =? 160))%N.

(** [\d]. *)
Definition isDigit (c : ascii) : bool :=
  let n := N_of_ascii c in ((48 <=? n) && (n <=? 57))%N.

(** The value of a digit. *)
Definition digitValue (c : ascii) : Z := Z.of_N (N_of_ascii c) - 48.

(** The canonical form of a character under the flag [i]. *)
Definition toUpper (c : ascii) : ascii :=
  let n := N_of_ascii c in
  if ((97 <=? n) && (n <=? 122))%N then ascii_of_N (n - 32) else c.

Definition toLower (c : ascii) : ascii :=
  let n := N_of_ascii c in
  if ((65 <=? n) && (n <=? 90))%N then ascii_of_N (n + 32) else c.

(** [s.toLowerCase()], on the letters A-Z. *)
Fixpoint toLowerCase (s : string) : string :=
  match s with
  | EmptyString => EmptyString
  | String c rest => String (toLower c) (toLowerCase rest)
  end.

(** The longest prefix of characters satisfying [p], and what follows. *)
Fixpoint span (p : ascii -> bool) (s : string) : string * string :=
  match s with
  | EmptyString => (EmptyString, EmptyString)
  | String c rest =>
      if p c then let (taken, left) := span p rest in (String c taken, left)
      else (EmptyString, s)
  end.

(** Drop the longest prefix of characters satisfying [p]. *)
Definition dropWhile (p : ascii -> bool) (s : string) : string :=
  snd (span p s).

Fixpoint rev_string (acc s : string) : string :=
  match s with
  | EmptyString => acc
  | String c rest => rev_string (String c acc) rest
  end.

(** [s.trim()]. *)
Definition trim (s : string) : string :=
  rev_string EmptyString
    (dropWhile isWhiteSpace
       (rev_string EmptyString (dropWhile isWhiteSpace s))).

(** [s.includes(sub)]: some suffix of [s] starts with [sub]. *)
Fixpoint includes (s sub : string) : bool :=
  String.prefix sub s ||
  match s with
  | EmptyString => false
  | String _ rest => includes rest sub
  end.

(** [s.startsWith(p)]. *)
Definition startsWith (s p : string) : bool := String.prefix p s.

(** [s.split(sep)] for a separator of one character: the pieces between
    the occurrences of [sep], all of them, in order. *)
Fixpoint split (s : string) (sep : ascii) : list string :=
  match s with
  | EmptyString => [EmptyString]
  | String c rest =>
      if Ascii.eqb c sep then EmptyString :: split rest sep
      else match split rest sep with
           | piece :: pieces => String c piece :: pieces
           | [] => [String c EmptyString]
           end
  end.

(** Truthiness of an optional string ([undefined], [null] and the empty string are
    falsy). *)
Definition truthyString (s : option string) : bool :=
  match s with
  | Some s => negb (String.eqb s EmptyString)
  | None => false
  end.

(** [a || b] on optional strings. *)
Definition orElse (a b : option string) : option string :=
  if truthyString a then a else b.

(** Truthiness of an optional integral number ([undefined] and [0] are
    falsy). *)
Definition truthyInt (n : option Z) : bool :=
  match n with
  | Some n => negb (n =? 0)
  | None => false
  end.

(** The digits of a numeral, read in base ten. *)
Fixpoint digitsValue (acc : Z) (s : string) : Z :=
  match s with
  | EmptyString => acc
  | String c rest => digitsValue (10 * acc + digitValue c) rest
  end.

(** A leading sign, and what follows it. *)
Definition signOf (s : string) : bool * string :=
  match s with
  | String "-"%char rest => (true, rest)
  | String "+"%char rest => (false, rest)
  | _ => (false, s)
  end.

(** [parseInt(s, 10)]: leading white space is skipped, a sign is read,
    then the longest run of digits; NaN when there is no digit. (Where
    the standard lets an implementation approximate numerals of more
    than 20 digits, the exactly rounded value is taken.) *)
Definition parseInt (s : string) : number :=
  let (negative, s) := signOf (dropWhile isWhiteSpace s) in
  let (digits, _) := span isDigit s in
  match digits with
  | EmptyString => NaN
  | _ =>
      let n := digitsValue 0 digits in
      ofZ (if negative then - n else n)
  end.

(** An exponent part [e], [e+], [e-] followed by digits; [None] when the
    text does not start with one. *)
Definition exponentPart (s : string) : option Z :=
  match s with
  | String c rest =>
      if Ascii.eqb (toLower c) "e" then
        let (negative, rest) := signOf rest in
        let (digits, _) := span isDigit rest in
        match digits with
        | EmptyString => None
        | _ => let n := digitsValue 0 digits in
               Some (if negative then - n else n)
        end
      else None
  | EmptyString => None
  end.

(** The value of the longest prefix of [s] that is an unsigned decimal
    literal: digits with an optional fraction, or a fraction alone, each
    with an optional exponent; or [Infinity]. *)
Definition unsignedDecimal (s : string) : option (option Q) :=
  if String.prefix "Infinity" s then Some None
  else
    let (whole, rest) := span isDigit s in
    let (fraction, rest) :=
      match rest with
      | String "."%char after =>
          let (fraction, rest') := span isDigit after in
          match whole, fraction with
          | EmptyString, EmptyString => (EmptyString, rest)
          | _, _ => (fraction, rest')
          end
      | _ => (EmptyString, rest)
      end in
    match whole, fraction with
    | EmptyString, EmptyString => None
    | _, _ =>
        let mantissa :=
          (inject_Z (digitsValue 0 (whole ++ fraction)%string)
           / inject_Z (10 ^ Z.of_nat (String.length fraction)))%Q in
        let scale :=
          match exponentPart rest with
          | Some e => Qpower 10 e
          | None => 1%Q
          end in
        Some (Some (mantissa * scale)%Q)
    end.

(** [parseFloat(s)]. *)
Definition parseFloat (s : string) : number :=
  let (negative, s) := signOf (dropWhile isWhiteSpace s) in
  match unsignedDecimal s with
  | None => NaN
  | Some None => Infinity negative
  | Some (Some q) => round64 (if negative then - q else q)%Q
  end.

(** ** Matching *)

(** The literal [p] at the head of [s], compared under the flag [i];
    the text it matched and what follows. *)
Fixpoint literalCI (p s : string) : option (string * string) :=
  match p, s with
  | EmptyString, _ => Some (EmptyString, s)
  | String a p', String c s' =>
      if Ascii.eqb (toUpper a) (toUpper c) then
        match literalCI p' s' with
        | Some (matched, rest) => Some (String c matched, rest)
        | None => None
        end
      else None
  | String _ _, EmptyString => None
  end.

(** The literal [p] at the head of [s], compared exactly. *)
Fixpoint literal (p s : string) : option string :=
  match p, s with
  | EmptyString, _ => Some s
  | String a p', String c s' =>
      if Ascii.eqb a c then literal p' s' else None
  | String _ _, EmptyString => None
  end.

(** A pattern without [^] is tried at every position, left to right. *)
Fixpoint firstMatch {R : Type} (at_ : string -> option R) (s : string)
  : option R :=
  match at_ s with
  | Some r => Some r
  | None =>
      match s with
      | EmptyString => None
      | String _ rest => firstMatch at_ rest
      end
  end.

(** The first alternative that matches, in the order written. *)
Fixpoint firstOf {R : Type} (alternatives : list (string -> option R))
         (s : string) : option R :=
  match alternatives with
  | [] => None
  | alt :: others =>
      match alt s with
      | Some r => Some r
      | None => firstOf others s
      end
  end.

(** [ToIntegerOrInfinity] of a finite Number; [None] for NaN and the
    infinities, which the time functions below turn into NaN. *)
Definition toInteger (x : number) : option Z :=
  match x with
  | Finite q => Some (Z.quot (Qnum q) (Z.pos (Qden q)))
  | _ => None
  end.

(** ** Dates

    The time-value arithmetic of the language standard. A time value is
    a number of milliseconds since the epoch; the arithmetic is carried
    out on integers, which is what binary64 computes as long as the
    intermediate results stay below 2^53. *)
Module Date.

Definition msPerDay : Z := 86400000.
Definition msPerHour : Z := 3600000.
Definition msPerMinute : Z := 60000.
Definition msPerSecond : Z := 1000.

Definition Day (t : Z) : Z := t / msPerDay.
Definition TimeWithinDay (t : Z) : Z := t mod msPerDay.

Definition DaysInYear (y : Z) : Z :=
  if negb (y mod 4 =? 0) then 365
  else if negb (y mod 100 =? 0) then 366
  else if negb (y mod 400 =? 0) then 365
  else 366.

Definition DayFromYear (y : Z) : Z :=
  365 * (y - 1970) + (y - 1969) / 4 - (y - 1901) / 100 + (y - 1601) / 400.

Definition TimeFromYear (y : Z) : Z := msPerDay * DayFromYear y.

(** The largest [y] such that [TimeFromYear y <= t]: an estimate from the
    mean length of a year, corrected by at most one. *)
Definition YearFromTime (t : Z) : Z :=
  let y := 1970 + (Day t * 400) / 146097 in
  if Day t <? DayFromYear y then y - 1
  else if DayFromYear (y + 1) <=? Day t then y + 1
  else y.

Definition leapDays (y : Z) : Z := if DaysInYear y =? 366 then 1 else 0.

Definition InLeapYear (t : Z) : Z := leapDays (YearFromTime t).

Definition DayWithinYear (t : Z) : Z := Day t - DayFromYear (YearFromTime t).

(** The day within the year on which month [m] (0..11) begins. *)
Definition monthOffset (leap m : Z) : Z :=
  match m with
  | 0 => 0
  | 1 => 31
  | 2 => 59 + leap
  | 3 => 90 + leap
  | 4 => 120 + leap
  | 5 => 151 + leap
  | 6 => 181 + leap
  | 7 => 212 + leap
  | 8 => 243 + leap
  | 9 => 273 + leap
  | 10 => 304 + leap
  | _ => 334 + leap
  end.

Definition MonthFromTime (t : Z) : Z :=
  let d := DayWithinYear t in
  let leap := InLeapYear t in
  if d <? 31 then 0
  else if d <? 59 + leap then 1
  else if d <? 90 + leap then 2
  else if d <? 120 + leap then 3
  else if d <? 151 + leap then 4
  else if d <? 181 + leap then 5
  else if d <? 212 + leap then 6
  else if d <? 243 + leap then 7
  else if d <? 273 + leap then 8
  else if d <? 304 + leap then 9
  else if d <? 334 + leap then 10
  else 11.

Definition DateFromTime (t : Z) : Z :=
  DayWithinYear t - monthOffset (InLeapYear t) (MonthFromTime t) + 1.

Definition HourFromTime (t : Z) : Z := (t / msPerHour) mod 24.
Definition MinFromTime (t : Z) : Z := (t / msPerMinute) mod 60.
Definition SecFromTime (t : Z) : Z := (t / msPerSecond) mod 60.
Definition msFromTime (t : Z) : Z := t mod msPerSecond.

Definition MakeTime (hour min sec ms : Z) : Z :=
  hour * msPerHour + min * msPerMinute + sec * msPerSecond + ms.

(** The day number of day [date] of month [month] of [year], months
    outside 0..11 carrying into the year. *)
Definition MakeDay (year month date : Z) : Z :=
  let ym := year + month / 12 in
  let mn := month mod 12 in
  DayFromYear ym + monthOffset (leapDays ym) mn + date - 1.

Definition MakeDate (day time : Z) : Z := day * msPerDay + time.

(** A Date holds a time value or NaN ([None]); [TimeClip] turns what is
    out of the representable range into NaN. *)
Definition TimeClip (time : Z) : option Z :=
  if Z.abs time >? 8640000000000000 then None else Some time.

Section Host.

(** The local time zone adjustment of the host, in milliseconds, at a
    time value read as UTC ([true]) or as local time ([false]). *)
Variable LocalTZA : Z -> bool -> Z.

Definition LocalTime (t : Z) : Z := t + LocalTZA t true.
Definition UTC (t : Z) : Z := t - LocalTZA t false.

Definition getMinutes (tv : Z) : Z := MinFromTime (LocalTime tv).
Definition getHours (tv : Z) : Z := HourFromTime (LocalTime tv).
Definition getDate (tv : Z) : Z := DateFromTime (LocalTime tv).
Definition getMonth (tv : Z) : Z := MonthFromTime (LocalTime tv).

Definition setMinutes (tv : Z) (min : number) : option Z :=
  match toInteger min with
  | None => None
  | Some m =>
      let t := LocalTime tv in
      TimeClip (UTC (MakeDate (Day t)
                       (MakeTime (HourFromTime t) m (SecFromTime t)
                                 (msFromTime t))))
  end.

Definition setHours (tv : Z) (hour : number) : option Z :=
  match toInteger hour with
  | None => None
  | Some h =>
      let t := LocalTime tv in
      TimeClip (UTC (MakeDate (Day t)
                       (MakeTime h (MinFromTime t) (SecFromTime t)
                                 (msFromTime t))))
  end.

Definition setDate (tv : Z) (date : number) : option Z :=
  match toInteger date with
  | None => None
  | Some dt =>
      let t := LocalTime tv in
      TimeClip (UTC (MakeDate (MakeDay (YearFromTime t) (MonthFromTime t) dt)
                              (TimeWithinDay t)))
  end.

Definition setMonth (tv : Z) (month : number) : option Z :=
  match toInteger month with
  | None => None
  | Some m =>
      let t := LocalTime tv in
      TimeClip (UTC (MakeDate (MakeDay (YearFromTime t) m (DateFromTime t))
                              (TimeWithinDay t)))
  end.

End Host.

(** [n] in decimal, padded with zeros to [width] digits. *)
Definition pad (width : nat) (n : Z) : string :=
  let s := ToString n in
  (string_of_list_ascii (repeat "0"%char (width - String.length s)) ++ s)%string.

Definition isoYear (y : Z) : string :=
  if (0 <=? y) && (y <=? 9999) then pad 4 y
  else if y <? 0 then ("-" ++ pad 6 (- y))%string
  else ("+" ++ pad 6 y)%string.

Definition isoString (t : Z) : string :=
  (isoYear (YearFromTime t) ++ "-" ++ pad 2 (MonthFromTime t + 1) ++ "-" ++
   pad 2 (DateFromTime t) ++ "T" ++ pad 2 (HourFromTime t) ++ ":" ++
   pad 2 (MinFromTime t) ++ ":" ++ pad 2 (SecFromTime t) ++ "." ++
   pad 3 (msFromTime t) ++ "Z")%string.

(** [date.toISOString()]: throws on an invalid Date. *)
Definition toISOString (tv : option Z) : Settled string :=
  match tv with
  | Some t => Resolved (isoString t)
  | None => Rejected (mkError "RangeError" "Invalid time value")
  end.

End Date.

(** ** Values of unknown type *)

(** A value whose type the code does not know: what JSON holds, or
    [undefined]. *)
Inductive Value :=
| Undefined
| Null
| Boolean (b : bool)
| Number (n : number)
| Text (s : string)
| Array (items : list Value)
| Object (fields : list (string * Value)).

(** Truthiness. *)
Definition truthy (v : Value) : bool :=
  match v with
  | Undefined | Null => false
  | Boolean b => b
  | Number n => truthyNumber n
  | Text s => negb (String.eqb s EmptyString)
  | Array _ | Object _ => true
  end.

(** [typeof v] *)
Definition typeOf (v : Value) : string :=
  match v with
  | Undefined => "undefined"
  | Null | Array _ | Object _ => "object"
  | Boolean _ => "boolean"
  | Number _ => "number"
  | Text _ => "string"
  end.

(** The value a key is bound to in the fields of an object; of two
    bindings of a key the later one counts. *)
Fixpoint field (fields : list (string * Value)) (key : string)
  : option Value :=
  match fields with
  | [] => None
  | (k, v) :: rest =>
      match field rest key with
      | Some later => Some later
      | None => if String.eqb k key then Some v else None
      end
  end.

(** [v.key], for a key that names no built-in property: a value that
    is not an object with that key gives [undefined]. *)
Definition get (v : Value) (key : string) : Value :=
  match v with
  | Object fields =>
      match field fields key with
      | Some found => found
      | None => Undefined
      end
  | _ => Undefined
  end.

(** ** Effects *)

(** What a run of a source function has done so far: the state of the
    outside world, the requests issued with their replies (oldest
    first), and the lines written with [console.warn]. *)
Record Run (World B : Type) := mkRun {
  world : World;
  exchanges : list (string * Fetched B);
  console : list string
}.
Arguments mkRun {World B} world exchanges console.
Arguments world {World B} r.
Arguments exchanges {World B} r.
Arguments console {World B} r.

Definition start {World : Type} (B : Type) (w : World) : Run World B :=
  mkRun w [] [].

(** The URLs requested in a run, oldest first. *)
Definition requested {World B : Type} (r : Run World B) : list string :=
  map fst (exchanges r).

End JS.

(* ===================================================================== *)
(** * The shared data model ([types.ts])                                  *)
(* ===================================================================== *)

Module Types.

(** Unified chapter format used across all sources. *)
Module SourceChapter.
Record t := mk {
  id : string;
  chapter : option string;
  volume : option string;
  title : option string;
  language : string;
  pages : Z;
  publishedAt : string;
  externalUrl : option string
}.
End SourceChapter.
Abbreviation SourceChapter := SourceChapter.t.

(** Page data for reading; [width] and [height] are optional. *)
Module SourcePage.
Record t := mk {
  index : Z;
  imageUrl : string;
  width : option JS.number;
  height : option JS.number
}.
End SourcePage.
Abbreviation SourcePage := SourcePage.t.

(** Chapter pages response. *)
Module SourceChapterPages.
Record t := mk {
  chapterId : string;
  pages : list SourcePage;
  referer : option string
}.
End SourceChapterPages.
Abbreviation SourceChapterPages := SourceChapterPages.t.

(** Supported external source providers. *)
Inductive ExternalSourceProvider := batoto.

(** The string a provider is. *)
Definition providerName (provider : ExternalSourceProvider) : string :=
  match provider with
  | batoto => "batoto"
  end.

(** Structure stored in database for external sources. *)
Module ExternalSourceData.
Record t := mk {
  provider : ExternalSourceProvider;
  externalId : string
}.
End ExternalSourceData.
Abbreviation ExternalSourceData := ExternalSourceData.t.

(** The object a value of the interface is at run time. *)
Definition asValue (data : ExternalSourceData) : JS.Value :=
  JS.Object
    [ ("provider", JS.Text (providerName (ExternalSourceData.provider data)));
      ("externalId", JS.Text (ExternalSourceData.externalId data)) ].

(** Type guard to check if external source data is valid. *)
Definition isValidExternalSource (data : JS.Value) : bool :=
  if negb (JS.truthy data) || negb (String.eqb (JS.typeOf data) "object")
  then false
  else
    let obj := data in
    String.eqb (JS.typeOf (JS.get obj "provider")) "string"
    && match JS.get obj "provider" with
       | JS.Text s => String.eqb s "batoto"
       | _ => false
       end
    && String.eqb (JS.typeOf (JS.get obj "externalId")) "string"
    && match JS.get obj "externalId" with
       | JS.Text s => (0 <? String.length s)%nat
       | _ => false
       end.

(** Helper to create external source data. *)
Definition createExternalSource (provider : ExternalSourceProvider)
           (externalId : string) : ExternalSourceData :=
  ExternalSourceData.mk provider externalId.

End Types.

(* ===================================================================== *)
(** * The MangaDex adapter ([mangadex.ts])                                *)
(* ===================================================================== *)

Module MangaDex.
Import JS Types.

(** One element of [MangaDexChapterResponse.chapters]. *)
Module Api.
Record Chapter := mkChapter {
  id : string;
  chapter : option string;
  volume : option string;
  title : option string;
  language : string;
  pages : Z;
  publishedAt : string;
  externalUrl : option string;
  scanlationGroup : option string
}.
End Api.

(** Response type from the chapters API. *)
Module MangaDexChapterResponse.
Record t := mk {
  chapters : list Api.Chapter;
  total : Z;
  totalExternal : Z;
  totalByLanguage : list (string * Z);
  limit : Z;
  offset : Z
}.
End MangaDexChapterResponse.
Abbreviation MangaDexChapterResponse := MangaDexChapterResponse.t.

(** Response type from the chapter images API. *)
Module MangaDexImagesResponse.
Record t := mk {
  baseUrl : string;
  hash : string;
  images : list string;
  dataSaverImages : list string;
  chapterId : string;
  mangaId : string
}.
End MangaDexImagesResponse.
Abbreviation MangaDexImagesResponse := MangaDexImagesResponse.t.

(** The second argument of [getMangaDexChapters]. *)
Record Options := mkOptions {
  opt_limit : option Z;
  opt_language : option string
}.

(** [options = {}]. *)
Definition noOptions : Options := mkOptions None None.

(** [const batchSize = 500]. *)
Definition batchSize : Z := 500.

(** The literal of the safety limit, [offset > 10000]. *)
Definition safetyLimit : Z := 10000.

(** How far an offset is from passing the safety limit: the loop's bound. *)
Definition remaining (offset : Z) : nat := Z.to_nat (safetyLimit + 1 - offset).
Arguments remaining : simpl never.

(** The [map] callback: transform to the unified format. *)
Definition toSourceChapter (ch : Api.Chapter) : SourceChapter :=
  {| SourceChapter.id := Api.id ch;
     SourceChapter.chapter := Api.chapter ch;
     SourceChapter.volume := Api.volume ch;
     SourceChapter.title := Api.title ch;
     SourceChapter.language := Api.language ch;
     SourceChapter.pages := Api.pages ch;
     SourceChapter.publishedAt := Api.publishedAt ch;
     SourceChapter.externalUrl := Api.externalUrl ch |}.

(** [`/api/reader/${mangaId}/chapters?limit=${batchSize}&offset=${offset}`] *)
Definition chaptersUrl (mangaId : string) (offset : Z) : string :=
  ("/api/reader/" ++ mangaId ++ "/chapters?limit=" ++ ToString batchSize
     ++ "&offset=" ++ ToString offset)%string.

(** The client-side filters applied after the loop: the language filter,
    then the limit. *)
Definition applyFilters (options : Options) (allChapters : list SourceChapter)
  : list SourceChapter :=
  let result := allChapters in
  let result :=
    match opt_language options with
    | Some language =>
        if truthyString (Some language)
        then filter (fun ch => String.eqb (SourceChapter.language ch) language)
                    result
        else result
    | None => result
    end in
  match opt_limit options with
  | Some limit =>
      if truthyInt (Some limit) && (Z.of_nat (List.length result) >? limit)
      then slice result 0 limit
      else result
  | None => result
  end.

(** The offsets [o], [o + batchSize], ... of [n] successive pages. *)
Fixpoint offsetsFrom (o : Z) (n : nat) : list Z :=
  match n with
  | O => []
  | S n => o :: offsetsFrom (o + batchSize) n
  end.

(** A reply that keeps the loop going: an OK response whose body reads
    and holds at least [batchSize] chapters. *)
Definition isFullPage (reply : Fetched MangaDexChapterResponse) : bool :=
  match reply with
  | Responded response =>
      ok response &&
      match body response with
      | Resolved data =>
          negb (Z.of_nat (List.length (MangaDexChapterResponse.chapters data))
                <? batchSize)
      | Rejected _ => false
      end
  | NetworkFailure _ => false
  end.

(** The chapters a reply contributes to [allChapters]. *)
Definition chaptersOf (reply : Fetched MangaDexChapterResponse)
  : list SourceChapter :=
  match reply with
  | Responded response =>
      if ok response then
        match body response with
        | Resolved data =>
            map toSourceChapter (MangaDexChapterResponse.chapters data)
        | Rejected _ => []
        end
      else []
  | NetworkFailure _ => []
  end.

(** A response whose [ok] flag is false. *)
Definition isNotOk (reply : Fetched MangaDexChapterResponse) : bool :=
  match reply with
  | Responded response => negb (ok response)
  | NetworkFailure _ => false
  end.

(** What the loop settles with when [reply], requested at [offset], is
    the last one, [allChapters] having been accumulated before it. *)
Definition settle (offset : Z) (allChapters : list SourceChapter)
           (reply : Fetched MangaDexChapterResponse)
  : Settled (list SourceChapter) :=
  match reply with
  | NetworkFailure e => Rejected e
  | Responded response =>
      if negb (ok response) then
        if offset =? 0 then
          Rejected (mkError "Error"
                      ("Failed to fetch MangaDex chapters: "
                         ++ ToString (status response))%string)
        else Resolved allChapters
      else
        match body response with
        | Rejected e => Rejected e
        | Resolved _ => Resolved (allChapters ++ chaptersOf reply)
        end
  end.

(** The line logged when the loop stops at the safety limit, that is,
    after a full page. *)
Definition ceilingWarning (offset : Z)
           (reply : Fetched MangaDexChapterResponse) : list string :=
  if isFullPage reply
  then [("[MangaDex] Safety limit reached at offset "
           ++ ToString (offset + batchSize))%string]
  else [].

Section Chapters.

(** Everything outside the adapter that a request can depend on and
    change: the proxy, the upstream API, the network. *)
Context {World : Type}.

(** [fetch], at the chapters endpoint: the body is typed as the code
    types it ([const data: MangaDexChapterResponse]). *)
Variable fetch : string -> World -> Fetched MangaDexChapterResponse * World.

Abbreviation Run := (Run World MangaDexChapterResponse).

(** How one pass through the body of [while (true)] ends. *)
Inductive Flow :=
| Continue (offset : Z) (allChapters : list SourceChapter) (r : Run)
| Break (allChapters : list SourceChapter) (r : Run)
| Throw (e : Error) (r : Run).

(** The body of the pagination loop. *)
Definition iteration (mangaId : string) (offset : Z)
           (allChapters : list SourceChapter) (r : Run) : Flow :=
  let url := chaptersUrl mangaId offset in
  let (reply, w) := fetch url (world r) in
  let r := mkRun w (exchanges r ++ [(url, reply)]) (console r) in
  match reply with
  | NetworkFailure e => Throw e r
  | Responded response =>
      if negb (ok response) then
        if offset =? 0 then
          Throw (mkError "Error"
                   ("Failed to fetch MangaDex chapters: "
                      ++ ToString (status response))%string) r
        else Break allChapters r
      else
        match body response with
        | Rejected e => Throw e r
        | Resolved data =>
            let allChapters :=
              allChapters ++ map toSourceChapter (MangaDexChapterResponse.chapters data) in
            if Z.of_nat (List.length (MangaDexChapterResponse.chapters data)) <? batchSize then
              Break allChapters r
            else
              let offset := offset + batchSize in
              if offset >? safetyLimit then
                Break allChapters
                  (mkRun (world r) (exchanges r)
                     (console r ++
                        [("[MangaDex] Safety limit reached at offset "
                            ++ ToString offset)%string]))
              else Continue offset allChapters r
        end
  end.

(** [while (true) { ... }], from the given loop state. *)
Equations? paginate (mangaId : string) (offset : Z)
           (allChapters : list SourceChapter) (r : Run)
  : Settled (list SourceChapter) * Run
  by wf (remaining offset) lt :=
  paginate mangaId offset allChapters r
    with inspect (iteration mangaId offset allChapters r) := {
    | exist _ (Continue offset' all' r') E => paginate mangaId offset' all' r'
    | exist _ (Break all' r') _ => (Resolved all', r')
    | exist _ (Throw e r') _ => (Rejected e, r') }.
Proof.
  (* a pass continues only with a larger offset that is still within the
     safety limit *)
  revert E. unfold iteration.
  destruct (fetch _ _) as [[e | response] w]; [discriminate |].
  destruct (negb (ok response)).
  - destruct (offset =? 0); discriminate.
  - destruct (body response) as [data | e]; [| discriminate].
    destruct (_ <? batchSize); [discriminate |].
    destruct (offset + batchSize >? safetyLimit) eqn:Over; [discriminate |].
    intros [= <- _ _]. unfold remaining, batchSize, safetyLimit in *. lia.
Qed.

(** [getMangaDexChapters(mangaId, options)]. *)
Definition getMangaDexChapters (mangaId : string) (options : Options)
           (w : World) : Settled (list SourceChapter) * Run :=
  match paginate mangaId 0 [] (start _ w) with
  | (Resolved allChapters, r) =>
      (Resolved (applyFilters options allChapters), r)
  | (Rejected e, r) => (Rejected e, r)
  end.

(** [mangadexSource.getChapters(mangaId)]: all chapters, all
    languages. *)
Definition getChapters (mangaId : string) (w : World)
  : Settled (list SourceChapter) * Run :=
  getMangaDexChapters mangaId noOptions w.

(** [`/api/reader/${mangaId}/chapters?limit=1&offset=0`] *)
Definition summaryUrl (mangaId : string) : string :=
  ("/api/reader/" ++ mangaId ++ "/chapters?limit=1&offset=0")%string.

(** Check if a manga has readable chapters on MangaDex: the count of
    readable (non-external) chapters. Whatever the [try] block throws
    is caught, and 0 returned. *)
Definition getMangaDexChapterCount (mangaId : string) (w : World)
  : number * Run :=
  let url := summaryUrl mangaId in
  let (reply, w) := fetch url w in
  let r := mkRun w [(url, reply)] [] in
  match reply with
  | NetworkFailure _ => (Finite 0, r)
  | Responded response =>
      if negb (ok response) then (Finite 0, r)
      else
        match body response with
        | Rejected _ => (Finite 0, r)
        | Resolved data =>
            (sub (ofZ (MangaDexChapterResponse.total data))
                 (ofZ (MangaDexChapterResponse.totalExternal data)), r)
        end
  end.

(** Get chapter count breakdown by language; [{}] on any failure. The
    breakdown of a decoded response is an object, which is truthy, so
    [data.totalByLanguage || {}] is the breakdown. *)
Definition getMangaDexLanguageBreakdown (mangaId : string) (w : World)
  : list (string * Z) * Run :=
  let url := summaryUrl mangaId in
  let (reply, w) := fetch url w in
  let r := mkRun w [(url, reply)] [] in
  match reply with
  | NetworkFailure _ => ([], r)
  | Responded response =>
      if negb (ok response) then ([], r)
      else
        match body response with
        | Rejected _ => ([], r)
        | Resolved data => (MangaDexChapterResponse.totalByLanguage data, r)
        end
  end.

End Chapters.

(** The text before the first colon of [s] (all of [s] when it has
    none). *)
Definition firstPart (s : string) : string :=
  fst (span (fun c => negb (Ascii.eqb c ":")) s).

(** The text after the first colon of [s], when it has one. *)
Definition remainder (s : string) : option string :=
  match snd (span (fun c => negb (Ascii.eqb c ":")) s) with
  | String _ rest => Some rest
  | EmptyString => None
  end.

(** The error [mangadexSource.getChapterPages] throws on a malformed
    argument. *)
Definition formatError : Error :=
  mkError "Error" "MangaDex chapter pages require mangaId:chapterId format".

Section Pages.

Context {World : Type}.

(** [fetch], at the chapter images endpoint. *)
Variable fetch : string -> World -> Fetched MangaDexImagesResponse * World.

Abbreviation Run := (Run World MangaDexImagesResponse).

(** [`/api/reader/${mangaId}/${chapterId}?dataSaver=${dataSaver}`] *)
Definition pagesUrl (mangaId chapterId : string) (dataSaver : bool) : string :=
  ("/api/reader/" ++ mangaId ++ "/" ++ chapterId ++ "?dataSaver="
     ++ (if dataSaver then "true" else "false"))%string.

(** [array.map((url, index) => ({ index, imageUrl: url }))] *)
Fixpoint indexed (index : Z) (urls : list string) : list SourcePage :=
  match urls with
  | [] => []
  | url :: rest =>
      SourcePage.mk index url None None :: indexed (index + 1) rest
  end.

(** [getMangaDexChapterPages(mangaId, chapterId, { dataSaver = true })],
    continuing the run [r]. *)
Definition getMangaDexChapterPages (mangaId chapterId : string)
           (dataSaver : bool) (r : Run) : Settled SourceChapterPages * Run :=
  let url := pagesUrl mangaId chapterId dataSaver in
  let (reply, w) := fetch url (world r) in
  let r := mkRun w (exchanges r ++ [(url, reply)]) (console r) in
  match reply with
  | NetworkFailure e => (Rejected e, r)
  | Responded response =>
      if negb (ok response) then
        (Rejected (mkError "Error"
                     ("Failed to fetch MangaDex chapter pages: "
                        ++ ToString (status response))%string), r)
      else
        match body response with
        | Rejected e => (Rejected e, r)
        | Resolved data =>
            (Resolved (SourceChapterPages.mk
                         (MangaDexImagesResponse.chapterId data)
                         (indexed 0 (MangaDexImagesResponse.images data))
                         None), r)
        end
  end.

(** An element of an array read by destructuring, as a template prints
    it: a missing element is [undefined]. *)
Definition element (parts : list string) (i : nat) : option string :=
  nth_error parts i.

(** [mangadexSource.getChapterPages(chapterId)]: the argument carries
    the manga id, in the format [mangaId:chapterId]. *)
Definition getChapterPages (chapterId : string) (w : World)
  : Settled SourceChapterPages * Run :=
  let parts :=
    if includes chapterId ":" then split chapterId ":"%char
    else [EmptyString; chapterId] in
  let mangaId := element parts 0 in
  let actualChapterId := element parts 1 in
  if negb (truthyString mangaId) then
    (Rejected formatError, start _ w)
  else
    getMangaDexChapterPages
      (match mangaId with Some s => s | None => "undefined" end)
      (match actualChapterId with Some s => s | None => "undefined" end)
      true (start _ w).

End Pages.

End MangaDex.

(* ===================================================================== *)
(** * The Batoto scraper ([batoto.ts])                                    *)
(* ===================================================================== *)

Module Batoto.
Import JS Types.

(** ** Configuration *)

Definition BATOTO_BASE_URL : string := "https://mto.to".
Definition REQUEST_TIMEOUT : Z := 10000.
Definition REQUEST_DELAY : Z := 500.
Definition USER_AGENT : string :=
  "Mozilla/5.0 (Windows NT 10.0; Win64; x64) AppleWebKit/537.36 (KHTML, like Gecko) Chrome/120.0.0.0 Safari/537.36".

(** ** Selectors *)

Module SELECTORS.
Module chapterList.
Definition container : string :=
  ".episode-list, .chapter-list, [class*='chapter']".
Definition item : string :=
  ".episode-item, .chapter-item, a[href*='/chapter/']".
Definition link : string := "a[href*='/chapter/']".
Definition number : string := ".episode-title, .chapter-number, .name".
Definition title : string := ".episode-subtitle, .chapter-title".
Definition date : string := ".episode-date, .chapter-date, time, .date".
End chapterList.
Module chapterPage.
Definition imageContainer : string :=
  ".page-container, .reader-container, #viewer".
Definition images : string :=
  "img.page-image, img[class*='page'], .reader-container img".
Definition imageData : string := "[data-src], [data-lazy-src]".
End chapterPage.
End SELECTORS.

(** ** The collaborators *)

(** The DOM query engine ([cheerio]): loading a document, querying it
    with a selector (the matches come in document order), and reading
    elements. *)
Class Cheerio := {
  Document : Type;
  Element : Type;
  (** [cheerio.load(html)] *)
  load : string -> Document;
  (** [$(selector)] *)
  select : Document -> string -> list Element;
  (** [$(el).closest(selector)]: the nearest of the element and its
      ancestors that matches, if any *)
  closest : Document -> Element -> string -> option Element;
  (** [$(el).find(selector)]: the matching descendants *)
  find : Document -> Element -> string -> list Element;
  (** [$(el).attr(name)] *)
  attr : Document -> Element -> string -> option string;
  (** [$(el).text()] *)
  textContent : Document -> Element -> string
}.

(** The host: how it parses a date string natively ([None] for an
    invalid Date) and its local time zone. *)
Class Host := {
  dateParse : string -> option Z;
  LocalTZA : Z -> bool -> Z
}.

(** ** Utilities *)

(** [.text()] of a selection: the combined text of its elements. *)
Definition text {cheerio : Cheerio} (dom : Document) (els : list Element) : string :=
  String.concat EmptyString (map (textContent dom) els).

(** [.attr(name)] of a selection: the attribute of its first element. *)
Definition attrOf {cheerio : Cheerio} (dom : Document) (els : list Element)
           (name : string) : option string :=
  match els with
  | el :: _ => attr dom el name
  | [] => None
  end.

(** [a || b] where both are strings. *)
Definition orString (a b : string) : string :=
  if String.eqb a EmptyString then b else a.

(** [a || ''] where [a] may be undefined. *)
Definition orEmpty (a : option string) : string :=
  match orElse a None with
  | Some s => s
  | None => EmptyString
  end.

(** The headers [fetchWithTimeout] sends unless the caller overrides
    them. *)
Definition defaultHeaders : list (string * string) :=
  [ ("User-Agent", USER_AGENT);
    ("Accept",
     "text/html,application/xhtml+xml,application/xml;q=0.9,image/webp,*/*;q=0.8");
    ("Accept-Language", "en-US,en;q=0.5");
    ("Referer", BATOTO_BASE_URL) ].

(** [{ ...defaults, ...overrides }] *)
Definition spread (defaults overrides : list (string * string))
  : list (string * string) :=
  filter (fun kv => negb (existsb (fun kv' => String.eqb (fst kv) (fst kv'))
                                  overrides)) defaults
  ++ overrides.

(** The class [[^/?#]] *)
Definition isIdChar (c : ascii) : bool :=
  negb (Ascii.eqb c "/" || Ascii.eqb c "?" || Ascii.eqb c "#").

(** [/\/chapter\/([^/?#]+)/] at the head of [s]: the captured group. *)
Definition chapterIdAt (s : string) : option string :=
  match literal "/chapter/" s with
  | Some rest =>
      match fst (span isIdChar rest) with
      | EmptyString => None
      | id => Some id
      end
  | None => None
  end.

(** Extract chapter ID from Batoto URL. *)
Definition extractBatotoChapterId (url : string) : option string :=
  firstMatch chapterIdAt url.

(** [/\/series\/([^/?#]+)/] at the head of [s]: the captured group. *)
Definition seriesIdAt (s : string) : option string :=
  match literal "/series/" s with
  | Some rest =>
      match fst (span isIdChar rest) with
      | EmptyString => None
      | id => Some id
      end
  | None => None
  end.

(** Extract series ID from Batoto URL. *)
Definition extractBatotoSeriesId (url : string) : option string :=
  firstMatch seriesIdAt url.

(** The class [[\w-]]: the letters, the digits, the underscore and the
    dash. *)
Definition isSlugChar (c : ascii) : bool :=
  let n := N_of_ascii c in
  (isDigit c || (65 <=? n) && (n <=? 90) || (97 <=? n) && (n <=? 122)
   || (n =? 95) || (n =? 45))%N.

(** [/^[\w-]+$/.test(s)] *)
Definition isSlug (s : string) : bool :=
  let (run, rest) := span isSlugChar s in
  negb (String.eqb run EmptyString) && String.eqb rest EmptyString.

(** Validate a Batoto series URL and extract the ID: the normalized
    series ID, or null if invalid. *)
Definition validateBatotoSeriesInput (input : string) : option string :=
  let trimmed := trim input in
  if includes trimmed "mto.to" || includes trimmed "batoto" then
    extractBatotoSeriesId trimmed
  else if isSlug trimmed then Some trimmed
  else None.

(** [(\d+(?:\.\d+)?)] at the head of [s]: the captured group, and what
    follows. *)
Definition decimalAt (s : string) : option (string * string) :=
  let (whole, rest) := span isDigit s in
  match whole with
  | EmptyString => None
  | _ =>
      match rest with
      | String "."%char after =>
          let (fraction, rest') := span isDigit after in
          match fraction with
          | EmptyString => Some (whole, rest)
          | _ => Some ((whole ++ "." ++ fraction)%string, rest')
          end
      | _ => Some (whole, rest)
      end
  end.

(** A text that begins with a digit. *)
Definition startsWithDigit (s : string) : Prop :=
  match s with
  | String c _ => isDigit c = true
  | EmptyString => False
  end.

(** [x?] followed by [k]: with the character first, then without. *)
Definition optionally {R : Type} (x : ascii) (k : string -> option R)
           (s : string) : option R :=
  match s with
  | String c rest =>
      if Ascii.eqb (toUpper c) (toUpper x) then
        match k rest with
        | Some r => Some r
        | None => k s
        end
      else k s
  | EmptyString => k s
  end.

(** [\s*(\d+(?:\.\d+)?)]: the captured group. *)
Definition numberAfter (s : string) : option string :=
  option_map fst (decimalAt (dropWhile isWhiteSpace s)).

(** [/(?:chapter|ch\.?|episode|ep\.?)\s*(\d+(?:\.\d+)?)/i] at the head
    of [s]. *)
Definition keywordNumberAt (s : string) : option string :=
  firstOf
    [ (fun s => match literalCI "chapter" s with
                | Some (_, rest) => numberAfter rest
                | None => None
                end);
      (fun s => match literalCI "ch" s with
                | Some (_, rest) => optionally "." numberAfter rest
                | None => None
                end);
      (fun s => match literalCI "episode" s with
                | Some (_, rest) => numberAfter rest
                | None => None
                end);
      (fun s => match literalCI "ep" s with
                | Some (_, rest) => optionally "." numberAfter rest
                | None => None
                end) ] s.

(** Parse chapter number from text: the two patterns, in order. *)
Definition parseChapterNumber (text : string) : option string :=
  let cleaned := trim text in
  match firstMatch keywordNumberAt cleaned with
  | Some number => Some number
  | None => option_map fst (decimalAt cleaned)
  end.

(** [/(\d+)\s*(day|hour|minute|week|month)s?\s*ago/i] at the head of
    [s]: the two captured groups. *)
Definition relativeAt (s : string) : option (string * string) :=
  let (digits, rest) := span isDigit s in
  match digits with
  | EmptyString => None
  | _ =>
      firstOf
        (map (fun unit s =>
                match literalCI unit s with
                | Some (matched, rest) =>
                    optionally "s"
                      (fun rest =>
                         match literalCI "ago" (dropWhile isWhiteSpace rest) with
                         | Some _ => Some (digits, matched)
                         | None => None
                         end) rest
                | None => None
                end)
             ["day"; "hour"; "minute"; "week"; "month"])
        (dropWhile isWhiteSpace rest)
  end.

(** Parse date from various formats; [now] is what the clock reads when
    the function asks for the current date. *)
Definition parseDate {host : Host} (now : Z) (text : string) : Settled string :=
  let cleaned := trim text in
  match dateParse cleaned with
  | Some tv => Date.toISOString (Some tv)
  | None =>
      match firstMatch relativeAt cleaned with
      | Some (digits, unitText) =>
          let amount := parseInt digits in
          let unit := toLowerCase unitText in
          let shifted :=
            if String.eqb unit "minute" then
              Date.setMinutes LocalTZA now
                (sub (ofZ (Date.getMinutes LocalTZA now)) amount)
            else if String.eqb unit "hour" then
              Date.setHours LocalTZA now
                (sub (ofZ (Date.getHours LocalTZA now)) amount)
            else if String.eqb unit "day" then
              Date.setDate LocalTZA now
                (sub (ofZ (Date.getDate LocalTZA now)) amount)
            else if String.eqb unit "week" then
              Date.setDate LocalTZA now
                (sub (ofZ (Date.getDate LocalTZA now)) (mul amount 7))
            else if String.eqb unit "month" then
              Date.setMonth LocalTZA now
                (sub (ofZ (Date.getMonth LocalTZA now)) amount)
            else Some now in
          Date.toISOString shifted
      | None => Date.toISOString (Some now)
      end
  end.

(** [a !== b] on values that are a string or null. *)
Definition differ (a b : option string) : bool :=
  match a, b with
  | Some x, Some y => negb (String.eqb x y)
  | None, None => false
  | _, _ => true
  end.

(** The callback of [chapters.sort]: the difference of the two chapter
    numbers, a missing one counting as 0. *)
Definition chapterValue (a : SourceChapter) : number :=
  if truthyString (SourceChapter.chapter a)
  then parseFloat (orEmpty (SourceChapter.chapter a))
  else Finite 0.

Definition compareChapters (a b : SourceChapter) : number :=
  sub (chapterValue a) (chapterValue b).

(** [Array.prototype.sort(compare)]: the sort is stable, and for a
    consistent comparator the result is fixed by the language: sorted,
    elements that compare equal in their original order. Insertion from
    the right computes it; an element moves behind exactly the elements
    it compares greater than. *)
Fixpoint insert {A : Type} (compare : A -> A -> number) (x : A)
         (sorted : list A) : list A :=
  match sorted with
  | [] => [x]
  | y :: rest =>
      if isPositive (compare x y) then y :: insert compare x rest
      else x :: sorted
  end.

Fixpoint sort {A : Type} (compare : A -> A -> number) (l : list A) : list A :=
  match l with
  | [] => []
  | x :: rest => insert compare x (sort compare rest)
  end.

(** The class of the characters a URL in a script runs over: anything
    but white space, the two quotes and the angle brackets. *)
Definition isUrlChar (c : ascii) : bool :=
  let n := N_of_ascii c in
  negb (isWhiteSpace c || (n =? 34) || (n =? 39) || (n =? 60) || (n =? 62))%N.

(** [[p]+] followed by [k], the longest run first, giving characters back
    one at a time; the text matched and what follows. *)
Fixpoint plusThen (p : ascii -> bool) (k : string -> option (string * string))
         (s : string) : option (string * string) :=
  match s with
  | String c rest =>
      if p c then
        match plusThen p k rest with
        | Some (matched, after) => Some (String c matched, after)
        | None =>
            match k rest with
            | Some (matched, after) => Some (String c matched, after)
            | None => None
            end
        end
      else None
  | EmptyString => None
  end.

(** [\.(?:jpg|jpeg|png|webp|gif)] under the flag [i]. *)
Definition imageExtensionAt (s : string) : option (string * string) :=
  match s with
  | String "."%char rest =>
      match firstOf (map literalCI ["jpg"; "jpeg"; "png"; "webp"; "gif"]) rest with
      | Some (matched, after) => Some (String "."%char matched, after)
      | None => None
      end
  | _ => None
  end.

(** [/https?:\/\/[^\s...<>]+\.(?:jpg|jpeg|png|webp|gif)/i] at the head
    of [s]: the text matched and what follows. *)
Definition imageUrlAt (s : string) : option (string * string) :=
  match literalCI "http" s with
  | Some (scheme, rest) =>
      optionally "s"
        (fun rest' =>
           match literal "://" rest' with
           | Some path =>
               match plusThen isUrlChar imageExtensionAt path with
               | Some (_, after) =>
                   (* the text between the head of [s] and [after] *)
                   Some (substring 0 (String.length s - String.length after) s,
                         after)
               | None => None
               end
           | None => None
           end) rest
  | None => None
  end.

(** [text.match(/.../gi)]: every match, left to right, each search
    resuming where the previous match ended; [skip] counts the
    characters of the last match still to pass. The result is [[]]
    where [match] gives [null]. *)
Fixpoint matchAll (at_ : string -> option (string * string)) (skip : nat)
         (s : string) : list string :=
  match s with
  | EmptyString => []
  | String _ rest =>
      match skip with
      | S k => matchAll at_ k rest
      | O =>
          match at_ s with
          | Some (matched, _) =>
              matched :: matchAll at_ (String.length matched - 1) rest
          | None => matchAll at_ 0 rest
          end
      end
  end.

(** The filter of strategy 3. *)
Definition notDecoration (url : string) : bool :=
  negb (includes url "avatar") && negb (includes url "logo")
  && negb (includes url "icon").

(** What [testBatotoConnection] resolves with. *)
Module ConnectionTest.
Record t := mk {
  success : bool;
  chapterCount : Z;
  error : option string
}.
End ConnectionTest.

Section Scraper.

Context {cheerio : Cheerio} {host : Host} {World : Type}.

(** [fetch(url, { headers })]: the page as text, or the failure of the
    request (the abort after [REQUEST_TIMEOUT] included). *)
Variable fetch :
  string -> list (string * string) -> World -> Fetched string * World.

Abbreviation Run := (Run World string).

(** Fetch with timeout and custom headers. *)
Definition fetchWithTimeout (url : string) (headers : list (string * string))
           (r : Run) : Fetched string * Run :=
  let (reply, w) := fetch url (spread defaultHeaders headers) (world r) in
  (reply, mkRun w (exchanges r ++ [(url, reply)]) (console r)).

Definition warn (r : Run) (line : string) : Run :=
  mkRun (world r) (exchanges r) (console r ++ [line]).

(** The callback of [chapterLinks.each]: the chapter a link gives
    ([None] when the callback returns early), or what it throws. *)
Definition chapterOfLink (dom : Document) (now : Z) (el : Element)
  : Settled (option SourceChapter) :=
  let href := orEmpty (attr dom el "href") in
  match extractBatotoChapterId href with
  | None => Resolved None
  | Some chapterId =>
      let item :=
        match closest dom el SELECTORS.chapterList.item with
        | Some ancestor => ancestor
        | None => el
        end in
      let numberText :=
        orString (text dom (find dom item SELECTORS.chapterList.number))
                 (textContent dom el) in
      let chapterNumber := parseChapterNumber numberText in
      let titleText :=
        orElse (Some (trim (text dom (find dom item SELECTORS.chapterList.title))))
               None in
      let dateText :=
        orEmpty (orElse (Some (text dom (find dom item SELECTORS.chapterList.date)))
                        (attrOf dom (find dom item "time") "datetime")) in
      match parseDate now dateText with
      | Rejected e => Rejected e
      | Resolved publishedAt =>
          Resolved (Some
            {| SourceChapter.id := chapterId;
               SourceChapter.chapter := chapterNumber;
               SourceChapter.volume := None;
               SourceChapter.title :=
                 if differ titleText chapterNumber then titleText else None;
               SourceChapter.language := "en";
               SourceChapter.pages := 0;
               SourceChapter.publishedAt := publishedAt;
               SourceChapter.externalUrl :=
                 Some (BATOTO_BASE_URL ++ "/chapter/" ++ chapterId)%string |})
      end
  end.

(** [chapterLinks.each(callback)], pushing onto [chapters]; [clock i]
    is what the clock reads while link [i] is handled. *)
Fixpoint eachLink (dom : Document) (clock : nat -> Z) (index : nat)
         (links : list Element) (chapters : list SourceChapter)
  : Settled (list SourceChapter) :=
  match links with
  | [] => Resolved chapters
  | el :: rest =>
      match chapterOfLink dom (clock index) el with
      | Rejected e => Rejected e
      | Resolved None => eachLink dom clock (S index) rest chapters
      | Resolved (Some ch) =>
          eachLink dom clock (S index) rest (chapters ++ [ch])
      end
  end.

(** Fetch and parse chapters from a Batoto series page. *)
Definition scrapeBatotoChapters (clock : nat -> Z) (seriesId : string)
           (w : World) : Settled (list SourceChapter) * Run :=
  let url := (BATOTO_BASE_URL ++ "/series/" ++ seriesId)%string in
  let (reply, r) := fetchWithTimeout url [] (start _ w) in
  match reply with
  | NetworkFailure e => (Rejected e, r)
  | Responded response =>
      if negb (ok response) then
        (Rejected (mkError "Error"
                     ("Batoto returned " ++ ToString (status response)
                        ++ " for series " ++ seriesId)%string), r)
      else
        match body response with
        | Rejected e => (Rejected e, r)
        | Resolved html =>
            let dom := load html in
            let chapterLinks := select dom SELECTORS.chapterList.link in
            if (List.length chapterLinks =? 0)%nat then
              (Resolved [],
               warn r ("[Batoto] No chapters found for series " ++ seriesId
                         ++ ". Selectors may need updating.")%string)
            else
              match eachLink dom clock 0 chapterLinks [] with
              | Rejected e => (Rejected e, r)
              | Resolved chapters =>
                  (Resolved (sort compareChapters chapters), r)
              end
        end
  end.

(** Test if we can reach Batoto and scrape a series: the [try] block
    and its [catch]. Everything thrown in the block is an [Error], so
    the handler reports its message. *)
Definition testBatotoConnection (clock : nat -> Z) (seriesId : string)
           (w : World) : ConnectionTest.t * Run :=
  match scrapeBatotoChapters clock seriesId w with
  | (Resolved chapters, r) =>
      (ConnectionTest.mk true (Z.of_nat (List.length chapters)) None, r)
  | (Rejected error, r) =>
      (ConnectionTest.mk false 0 (Some (message error)), r)
  end.

(** [src.startsWith("http") ? src : `${BATOTO_BASE_URL}${src}`] *)
Definition absolute (src : string) : string :=
  if startsWith src "http" then src else (BATOTO_BASE_URL ++ src)%string.

(** [parseInt($img.attr(name) || "0", 10) || undefined] *)
Definition dimension (dom : Document) (img : Element) (name : string)
  : option number :=
  orUndefined (parseInt (match orElse (attr dom img name) (Some "0") with
                         | Some s => s
                         | None => "0"
                         end)).

(** Strategy 1: direct img tags with src. *)
Fixpoint strategy1 (dom : Document) (imgs : list Element)
         (pages : list SourcePage) : list SourcePage :=
  match imgs with
  | [] => pages
  | img :: rest =>
      let src := orElse (orElse (attr dom img "src") (attr dom img "data-src"))
                        (attr dom img "data-lazy-src") in
      match src with
      | Some s =>
          if truthyString src && negb (includes s "placeholder")
             && negb (includes s "loading")
          then
            strategy1 dom rest
              (pages ++
                 [ {| SourcePage.index := Z.of_nat (List.length pages);
                      SourcePage.imageUrl := absolute s;
                      SourcePage.width := dimension dom img "width";
                      SourcePage.height := dimension dom img "height" |} ])
          else strategy1 dom rest pages
      | None => strategy1 dom rest pages
      end
  end.

(** Strategy 2: elements with data attributes. *)
Fixpoint strategy2 (dom : Document) (els : list Element)
         (pages : list SourcePage) : list SourcePage :=
  match els with
  | [] => pages
  | el :: rest =>
      let src := orElse (attr dom el "data-src") (attr dom el "data-lazy-src") in
      match src with
      | Some s =>
          if truthyString src then
            strategy2 dom rest
              (pages ++
                 [ {| SourcePage.index := Z.of_nat (List.length pages);
                      SourcePage.imageUrl := absolute s;
                      SourcePage.width := None;
                      SourcePage.height := None |} ])
          else strategy2 dom rest pages
      | None => strategy2 dom rest pages
      end
  end.

(** [uniqueUrls.forEach((url) => pages.push(...))] *)
Fixpoint pushUrls (urls : list string) (pages : list SourcePage)
  : list SourcePage :=
  match urls with
  | [] => pages
  | url :: rest =>
      pushUrls rest
        (pages ++
           [ {| SourcePage.index := Z.of_nat (List.length pages);
                SourcePage.imageUrl := url;
                SourcePage.width := None;
                SourcePage.height := None |} ])
  end.

(** Strategy 3: image URLs in the text of the scripts. *)
Definition strategy3 (dom : Document) (pages : list SourcePage)
  : list SourcePage :=
  let scriptContent := text dom (select dom "script") in
  let urlMatches := matchAll imageUrlAt 0 scriptContent in
  match urlMatches with
  | [] => pages
  | _ =>
      let uniqueUrls := filter notDecoration (unique urlMatches) in
      pushUrls uniqueUrls pages
  end.

(** The pages the three strategies give for a document, the first one
    that finds any. *)
Definition extracted (dom : Document) : list SourcePage :=
  let pages := strategy1 dom (select dom SELECTORS.chapterPage.images) [] in
  let pages :=
    if (List.length pages =? 0)%nat
    then strategy2 dom (select dom SELECTORS.chapterPage.imageData) pages
    else pages in
  if (List.length pages =? 0)%nat then strategy3 dom pages else pages.

(** A page without dimensions. *)
Definition bare (p : SourcePage) : Prop :=
  SourcePage.width p = None /\ SourcePage.height p = None.

(** A page whose dimensions were read from the attributes of [img]. *)
Definition measuredFrom (dom : Document) (imgs : list Element)
           (p : SourcePage) : Prop :=
  exists img,
    In img imgs
    /\ SourcePage.width p = dimension dom img "width"
    /\ SourcePage.height p = dimension dom img "height".

(** Fetch and parse page images from a Batoto chapter. *)
Definition scrapeBatotoChapterPages (chapterId : string) (w : World)
  : Settled SourceChapterPages * Run :=
  let url := (BATOTO_BASE_URL ++ "/chapter/" ++ chapterId)%string in
  let (reply, r) := fetchWithTimeout url [] (start _ w) in
  match reply with
  | NetworkFailure e => (Rejected e, r)
  | Responded response =>
      if negb (ok response) then
        (Rejected (mkError "Error"
                     ("Batoto returned " ++ ToString (status response)
                        ++ " for chapter " ++ chapterId)%string), r)
      else
        match body response with
        | Rejected e => (Rejected e, r)
        | Resolved html =>
            let dom := load html in
            let pages := [] in
            let pages :=
              strategy1 dom (select dom SELECTORS.chapterPage.images) pages in
            let pages :=
              if (List.length pages =? 0)%nat
              then strategy2 dom (select dom SELECTORS.chapterPage.imageData)
                             pages
              else pages in
            let pages :=
              if (List.length pages =? 0)%nat then strategy3 dom pages
              else pages in
            let r :=
              if (List.length pages =? 0)%nat
              then warn r ("[Batoto] No pages found for chapter " ++ chapterId
                             ++ ". Selectors may need updating.")%string
              else r in
            (Resolved (SourceChapterPages.mk chapterId pages
                         (Some BATOTO_BASE_URL)), r)
        end
  end.

End Scraper.

End Batoto.

(* ===================================================================== *)
(** * The Batoto API routes ([api/sources/batoto])                        *)
(* ===================================================================== *)

Module Routes.
Import JS Types Batoto.

(** The bodies the two handlers answer with. *)
Inductive Payload :=
| Failure (error : string) (details : option string)
| Pages (result : SourceChapterPages) (source : string)
| Chapters (chapters : list SourceChapter) (total : Z)
           (source seriesId : string).

(** [NextResponse.json(body, { status })]; the status is 200 when none
    is given. *)
Record NextResponse (Body : Type) :=
  mkNextResponse { status : Z; payload : Body }.
Arguments mkNextResponse {Body} status payload.
Arguments status {Body} n.
Arguments payload {Body} n.

Section Handlers.

Context {cheerio : Cheerio} {host : Host} {World : Type}.
Variable fetch :
  string -> list (string * string) -> World -> Fetched string * World.

(** What a handler has done when it returns: its answer, the run of
    the scraper it called, and what it passed to [console.error]. *)
Record Handled := mkHandled {
  response : NextResponse Payload;
  run : Run World string;
  errors : list (string * Error)
}.

(** An answer given before any scraping. *)
Definition refused (w : World) (error : string) : Handled :=
  mkHandled (mkNextResponse 400 (Failure error None)) (start _ w) [].

(** GET /api/sources/batoto/pages, for the value of the query parameter
    chapterId ([None] when the parameter is missing). Everything thrown
    in the [try] block is an [Error], so the handler reads its
    message. *)
Definition pagesGET (chapterId : option string) (w : World) : Handled :=
  match chapterId with
  | None => refused w "chapterId is required"
  | Some id =>
      if negb (truthyString chapterId) then refused w "chapterId is required"
      else if negb (isSlug id) then refused w "Invalid chapter ID format"
      else
        match scrapeBatotoChapterPages fetch id w with
        | (Resolved result, r) =>
            if (List.length (SourceChapterPages.pages result) =? 0)%nat then
              mkHandled
                (mkNextResponse 404
                   (Failure "No pages found for this chapter"
                      (Some "The chapter may be unavailable or the page structure has changed")))
                r []
            else
              mkHandled (mkNextResponse 200 (Pages result "batoto")) r []
        | (Rejected error, r) =>
            let logged := [("[Batoto API] Error fetching pages:", error)] in
            let message := message error in
            if includes message "404" then
              mkHandled
                (mkNextResponse 404
                   (Failure "Chapter not found on Batoto" (Some message)))
                r logged
            else if includes message "timeout" || includes message "abort" then
              mkHandled
                (mkNextResponse 504
                   (Failure "Request to Batoto timed out" (Some message)))
                r logged
            else
              mkHandled
                (mkNextResponse 500
                   (Failure "Failed to fetch pages from Batoto" (Some message)))
                r logged
        end
  end.

(** GET /api/sources/batoto/chapters, for the value of the query
    parameter seriesId. *)
Definition chaptersGET (clock : nat -> Z) (seriesIdInput : option string)
           (w : World) : Handled :=
  match seriesIdInput with
  | None => refused w "seriesId is required"
  | Some input =>
      if negb (truthyString seriesIdInput) then refused w "seriesId is required"
      else
        match validateBatotoSeriesInput input with
        | None => refused w "Invalid Batoto series ID or URL"
        | Some seriesId =>
            if negb (truthyString (Some seriesId)) then
              refused w "Invalid Batoto series ID or URL"
            else
              match scrapeBatotoChapters fetch clock seriesId w with
              | (Resolved chapters, r) =>
                  mkHandled
                    (mkNextResponse 200
                       (Chapters chapters (Z.of_nat (List.length chapters))
                                 "batoto" seriesId))
                    r []
              | (Rejected error, r) =>
                  let logged :=
                    [("[Batoto API] Error fetching chapters:", error)] in
                  let message := message error in
                  if includes message "404" then
                    mkHandled
                      (mkNextResponse 404
                         (Failure "Series not found on Batoto" (Some message)))
                      r logged
                  else if includes message "timeout"
                          || includes message "abort" then
                    mkHandled
                      (mkNextResponse 504
                         (Failure "Request to Batoto timed out" (Some message)))
                      r logged
                  else
                    mkHandled
                      (mkNextResponse 500
                         (Failure "Failed to fetch chapters from Batoto"
                                  (Some message)))
                      r logged
              end
        end
  end.

End Handlers.

(** ** The link route ([api/sources/batoto/link]) *)

Module Link.

(** A row of [prisma.manga], as the handlers select it. *)
Record Manga := mkManga {
  id : string;
  title : string;
  externalSource : Value
}.

(** The calls on [prisma.manga]. *)
Inductive Query :=
| FindUnique (id : string)
| Update (id : string) (externalSource : Value).

(** The database client: a call settles and leaves the world changed. *)
Class Prisma (World : Type) := {
  (** [prisma.manga.findUnique({ where: { id } })] *)
  findUnique : string -> World -> Settled (option Manga) * World;
  (** [prisma.manga.update({ where: { id }, data: { externalSource } })] *)
  update : string -> Value -> World -> Settled unit * World
}.

(** A database that gives back what was last written to a row, as long
    as nothing else writes to it. *)
Definition readsItsWrites {World : Type} (prisma : Prisma World) : Prop :=
  forall id value w w' done,
    update id value w = (Resolved done, w') ->
    exists row w'',
      findUnique id w' = (Resolved (Some row), w'')
      /\ externalSource row = value.

(** The bodies the three handlers answer with. *)
Inductive Payload :=
| Failure (error : string) (details : option string)
| Linked (mangaId : string) (externalSource : ExternalSourceData)
         (chapterCount : Z) (message : string)
| Unlinked (mangaId : string) (message : string)
| Source (mangaId : string) (hasExternalSource : bool)
         (externalSource : Value).

Section Handlers.

Context {cheerio : Cheerio} {host : Host} {World : Type} {prisma : Prisma World}.
Variable fetch :
  string -> list (string * string) -> World -> Fetched string * World.

(** The message of the TypeError that destructuring [null] throws,
    which the host words. *)
Variable cannotDestructure : string.

(** What a handler has done when it returns: its answer, the world it
    leaves, the requests sent and the lines written by the scraper it
    called, its calls on the database (oldest first), and what it
    passed to [console.error]. *)
Record Handled := mkHandled {
  response : NextResponse Payload;
  world : World;
  exchanges : list (string * Fetched string);
  console : list string;
  queries : list Query;
  errors : list (string * Error)
}.

(** An answer that names what is wrong or missing. *)
Definition answer (status : Z) (error : string) (details : option string)
           (w : World) (queries : list Query) : Handled :=
  mkHandled (mkNextResponse status (Failure error details)) w [] [] queries [].

(** The [catch] block of a handler. *)
Definition caught (label failure : string) (error : Error) (w : World)
           (exchanges : list (string * Fetched string)) (console : list string)
           (queries : list Query) : Handled :=
  mkHandled (mkNextResponse 500 (Failure failure (Some (message error))))
            w exchanges console queries [(label, error)].

(** POST /api/sources/batoto/link, for what [request.json()] settles
    with. *)
Definition POST (clock : nat -> Z) (body : Settled Value) (w : World)
  : Handled :=
  let label := "[Batoto API] Error linking manga:" in
  let failure := "Failed to link manga to Batoto" in
  match body with
  | Rejected error => caught label failure error w [] [] []
  | Resolved (Null | Undefined) =>
      caught label failure (mkError "TypeError" cannotDestructure) w [] [] []
  | Resolved body =>
      match get body "mangaId" with
      | Text mangaId =>
          if negb (truthy (Text mangaId)) then
            answer 400 "mangaId is required" None w []
          else
            match get body "batotoSeriesId" with
            | Text batotoSeriesId =>
                if negb (truthy (Text batotoSeriesId)) then
                  answer 400 "batotoSeriesId is required" None w []
                else
                  match validateBatotoSeriesInput batotoSeriesId with
                  | None =>
                      answer 400 "Invalid Batoto series ID or URL" None w []
                  | Some normalizedSeriesId =>
                      if negb (truthyString (Some normalizedSeriesId)) then
                        answer 400 "Invalid Batoto series ID or URL" None w []
                      else
                        let asked := [FindUnique mangaId] in
                        match findUnique mangaId w with
                        | (Rejected error, w) =>
                            caught label failure error w [] [] asked
                        | (Resolved None, w) =>
                            answer 404 "Manga not found in database" None w asked
                        | (Resolved (Some manga), w) =>
                            let (testResult, r) :=
                              testBatotoConnection fetch clock
                                                   normalizedSeriesId w in
                            if negb (ConnectionTest.success testResult) then
                              mkHandled
                                (mkNextResponse 400
                                   (Failure "Could not verify Batoto series"
                                      (ConnectionTest.error testResult)))
                                (JS.world r) (JS.exchanges r) (JS.console r)
                                asked []
                            else if ConnectionTest.chapterCount testResult =? 0
                            then
                              mkHandled
                                (mkNextResponse 400
                                   (Failure
                                      "No chapters found on Batoto for this series"
                                      (Some "The series exists but has no chapters available")))
                                (JS.world r) (JS.exchanges r) (JS.console r)
                                asked []
                            else
                              let externalSource :=
                                createExternalSource batoto normalizedSeriesId in
                              let asked :=
                                asked ++ [Update mangaId (asValue externalSource)] in
                              match update mangaId (asValue externalSource)
                                           (JS.world r) with
                              | (Rejected error, w) =>
                                  caught label failure error w
                                         (JS.exchanges r) (JS.console r) asked
                              | (Resolved _, w) =>
                                  mkHandled
                                    (mkNextResponse 200
                                       (Linked mangaId externalSource
                                          (ConnectionTest.chapterCount testResult)
                                          ("Successfully linked " ++ title manga
                                             ++ " to Batoto series with "
                                             ++ ToString
                                                  (ConnectionTest.chapterCount
                                                     testResult)
                                             ++ " chapters")%string))
                                    w (JS.exchanges r) (JS.console r) asked []
                              end
                        end
                  end
            | _ => answer 400 "batotoSeriesId is required" None w []
            end
      | _ => answer 400 "mangaId is required" None w []
      end
  end.

(** DELETE /api/sources/batoto/link, for the value of the query
    parameter mangaId. *)
Definition DELETE (mangaId : option string) (w : World) : Handled :=
  let label := "[Batoto API] Error unlinking manga:" in
  let failure := "Failed to unlink manga" in
  match mangaId with
  | None => answer 400 "mangaId is required" None w []
  | Some id =>
      if negb (truthyString mangaId) then
        answer 400 "mangaId is required" None w []
      else
        let asked := [FindUnique id] in
        match findUnique id w with
        | (Rejected error, w) => caught label failure error w [] [] asked
        | (Resolved None, w) => answer 404 "Manga not found" None w asked
        | (Resolved (Some manga), w) =>
            let asked := asked ++ [Update id Null] in
            match update id Null w with
            | (Rejected error, w) => caught label failure error w [] [] asked
            | (Resolved _, w) =>
                mkHandled
                  (mkNextResponse 200
                     (Unlinked id "External source link removed"))
                  w [] [] asked []
            end
        end
  end.

(** GET /api/sources/batoto/link, for the value of the query parameter
    mangaId. *)
Definition GET (mangaId : option string) (w : World) : Handled :=
  let label := "[Batoto API] Error getting link:" in
  let failure := "Failed to get external source" in
  match mangaId with
  | None => answer 400 "mangaId is required" None w []
  | Some id =>
      if negb (truthyString mangaId) then
        answer 400 "mangaId is required" None w []
      else
        let asked := [FindUnique id] in
        match findUnique id w with
        | (Rejected error, w) => caught label failure error w [] [] asked
        | (Resolved None, w) => answer 404 "Manga not found" None w asked
        | (Resolved (Some manga), w) =>
            let hasExternalSource :=
              isValidExternalSource (externalSource manga) in
            mkHandled
              (mkNextResponse 200
                 (Source id hasExternalSource
                    (if hasExternalSource then externalSource manga
                     else Null)))
              w [] [] asked []
        end
  end.

End Handlers.

End Link.

End Routes.

(* ===================================================================== *)
(** * The swipe gesture hook ([use-swipe-gesture.ts])                     *)
(* ===================================================================== *)

Module SwipeGesture.
Import JS.

(** The options of the hook. A callback is either given or not; the
    other options come with their defaults filled in. *)
Record SwipeGestureOptions := mkOptions {
  onSwipeLeft : bool;
  onSwipeRight : bool;
  onSwipeUp : bool;
  onSwipeDown : bool;
  threshold : number;
  velocityThreshold : number;
  preventScroll : bool;
  enabled : bool
}.

Definition DEFAULT_THRESHOLD : number := Finite 50.
Definition DEFAULT_VELOCITY_THRESHOLD : number := round64 (3 # 10).

(** What the two refs hold: a point of the screen and the time it was
    touched. *)
Record Point := mkPoint { x : number; y : number; time : number }.

Record Refs := mkRefs {
  touchStartRef : option Point;
  touchMoveRef : option Point
}.

(** The first touch of an event. *)
Record Touch := mkTouch { clientX : number; clientY : number }.

(** The callback a touch end calls. *)
Inductive Swipe := SwipeLeft | SwipeRight | SwipeUp | SwipeDown.

Section Hook.

(** [Math.sqrt], which the language leaves to the host to
    approximate. *)
Variable sqrt : number -> number.

Variable options : SwipeGestureOptions.

(** [handleTouchStart], [now] being what [Date.now()] gives. *)
Definition handleTouchStart (touch : Touch) (now : Z) (refs : Refs) : Refs :=
  if negb (enabled options) then refs
  else mkRefs (Some (mkPoint (clientX touch) (clientY touch) (ofZ now))) None.

(** [handleTouchMove]: the refs, and whether [e.preventDefault()] was
    called. *)
Definition handleTouchMove (touch : Touch) (now : Z) (refs : Refs)
  : Refs * bool :=
  match touchStartRef refs with
  | None => (refs, false)
  | Some start =>
      if negb (enabled options) then (refs, false)
      else
        let refs :=
          mkRefs (touchStartRef refs)
                 (Some (mkPoint (clientX touch) (clientY touch) (ofZ now))) in
        if preventScroll options then
          let deltaX := abs (sub (clientX touch) (x start)) in
          let deltaY := abs (sub (clientY touch) (y start)) in
          (refs, greaterThan deltaX deltaY && greaterThan deltaX (Finite 10))
        else (refs, false)
  end.

(** [handleTouchEnd]: the refs, and the callback called, if any. The
    callbacks return normally. *)
Definition handleTouchEnd (refs : Refs) : Refs * option Swipe :=
  match touchStartRef refs with
  | None => (refs, None)
  | Some start =>
      if negb (enabled options) then (refs, None)
      else
        match touchMoveRef refs with
        | None => (mkRefs None (touchMoveRef refs), None)
        | Some move =>
            let deltaX := sub (x move) (x start) in
            let deltaY := sub (y move) (y start) in
            let deltaTime := sub (time move) (time start) in
            let distance :=
              sqrt (add (times deltaX deltaX) (times deltaY deltaY)) in
            let velocity :=
              if greaterThan deltaTime (Finite 0) then div distance deltaTime
              else Finite 0 in
            if lessThan distance (threshold options)
               || (greaterThan deltaTime (Finite 0)
                   && lessThan velocity (velocityThreshold options))
            then (mkRefs None None, None)
            else
              let absX := abs deltaX in
              let absY := abs deltaY in
              let called :=
                if greaterThan absX absY then
                  if greaterThan deltaX (Finite 0) && onSwipeRight options
                  then Some SwipeRight
                  else if lessThan deltaX (Finite 0) && onSwipeLeft options
                  then Some SwipeLeft
                  else None
                else
                  if greaterThan deltaY (Finite 0) && onSwipeDown options
                  then Some SwipeDown
                  else if lessThan deltaY (Finite 0) && onSwipeUp options
                  then Some SwipeUp
                  else None in
              (mkRefs None None, called)
        end
  end.

(** The touch events of an element, in the order they arrive. *)
Inductive TouchEvent :=
| touchstart (touch : Touch) (now : Z)
| touchmove (touch : Touch) (now : Z)
| touchend.

(** The listeners at work on a sequence of events: the refs at the
    end, and the callbacks called, in order. *)
Fixpoint dispatch (events : list TouchEvent) (refs : Refs)
  : Refs * list Swipe :=
  match events with
  | [] => (refs, [])
  | touchstart touch now :: rest =>
      dispatch rest (handleTouchStart touch now refs)
  | touchmove touch now :: rest =>
      dispatch rest (fst (handleTouchMove touch now refs))
  | touchend :: rest =>
      let (refs, called) := handleTouchEnd refs in
      let (refs, later) := dispatch rest refs in
      (refs,
       match called with
       | Some swipe => swipe :: later
       | None => later
       end)
  end.

End Hook.

End SwipeGesture.

(* ===================================================================== *)
(** * Concrete inputs                                                     *)
(* ===================================================================== *)

Module Fixtures.
Import JS Types.

(** A world that answers from a script: the replies still to come. *)
Definition replay {B : Type} (url : string) (script : list (Fetched B))
  : Fetched B * list (Fetched B) :=
  match script with
  | reply :: rest => (reply, rest)
  | [] => (NetworkFailure (mkError "TypeError" "fetch failed"), [])
  end.

(** A response whose status is not in the 200 range; its body, which
    the sources never read, does not decode. *)
Definition notOk {B : Type} (status : Z) : Fetched B :=
  Responded (mkResponse false status
               (Rejected (mkError "TypeError" "body does not decode"))).

Definition apiChapter (language : string) (i : nat) : MangaDex.Api.Chapter :=
  {| MangaDex.Api.id := ("chapter-" ++ ToString (Z.of_nat i))%string;
     MangaDex.Api.chapter := Some (ToString (Z.of_nat i));
     MangaDex.Api.volume := None;
     MangaDex.Api.title := None;
     MangaDex.Api.language := language;
     MangaDex.Api.pages := 20;
     MangaDex.Api.publishedAt := "2024-01-01T00:00:00.000Z";
     MangaDex.Api.externalUrl := None;
     MangaDex.Api.scanlationGroup := None |}.

(** A page of the feed holding [n] chapters, numbered from [from]. *)
Definition feedPage (from n : nat) : MangaDex.MangaDexChapterResponse :=
  {| MangaDex.MangaDexChapterResponse.chapters := map (apiChapter "en") (seq from n);
     MangaDex.MangaDexChapterResponse.total := 700;
     MangaDex.MangaDexChapterResponse.totalExternal := 0;
     MangaDex.MangaDexChapterResponse.totalByLanguage := [("en", 700)];
     MangaDex.MangaDexChapterResponse.limit := 500;
     MangaDex.MangaDexChapterResponse.offset := Z.of_nat from |}.

Definition okPage (from n : nat) : Fetched MangaDex.MangaDexChapterResponse :=
  Responded (mkResponse true 200 (Resolved (feedPage from n))).

(** Three chapters in mixed languages. *)
Definition mixed : list SourceChapter :=
  map MangaDex.toSourceChapter
    [apiChapter "en" 1; apiChapter "fr" 2; apiChapter "en" 3].

(** A feed of one page holding the three chapters of [mixed]. *)
Definition mixedFeed : list (Fetched MangaDex.MangaDexChapterResponse) :=
  [ Responded (mkResponse true 200 (Resolved
      {| MangaDex.MangaDexChapterResponse.chapters :=
           [apiChapter "en" 1; apiChapter "fr" 2; apiChapter "en" 3];
         MangaDex.MangaDexChapterResponse.total := 3;
         MangaDex.MangaDexChapterResponse.totalExternal := 0;
         MangaDex.MangaDexChapterResponse.totalByLanguage := [("en", 2); ("fr", 1)];
         MangaDex.MangaDexChapterResponse.limit := 500;
         MangaDex.MangaDexChapterResponse.offset := 0 |})) ].

(** The reply of the chapter images endpoint for a chapter of two
    images. *)
Definition imagesReply : Fetched MangaDex.MangaDexImagesResponse :=
  Responded (mkResponse true 200 (Resolved
    {| MangaDex.MangaDexImagesResponse.baseUrl := "https://uploads.mangadex.org";
       MangaDex.MangaDexImagesResponse.hash := "abc";
       MangaDex.MangaDexImagesResponse.images := ["1.png"; "2.png"];
       MangaDex.MangaDexImagesResponse.dataSaverImages := ["1.jpg"; "2.jpg"];
       MangaDex.MangaDexImagesResponse.chapterId := "c1";
       MangaDex.MangaDexImagesResponse.mangaId := "m1" |})).

(** ** A document model for the scraper

    An element lists the selectors it matches, its attributes, its own
    text and its children. Every chapter link matches the item selector
    (which names the links among its alternatives), so the nearest
    element matching it, starting from a link, is the link itself. *)
Inductive Node :=
| Tag (matching : list string) (attributes : list (string * string))
      (content : string) (children : list Node).

Fixpoint descendants (n : Node) : list Node :=
  match n with
  | Tag _ _ _ children => flat_map (fun c => c :: descendants c) children
  end.

Fixpoint textOf (n : Node) : string :=
  match n with
  | Tag _ _ content children =>
      (content ++ String.concat EmptyString (map textOf children))%string
  end.

Definition matches (selector : string) (n : Node) : bool :=
  match n with
  | Tag matching _ _ _ => existsb (String.eqb selector) matching
  end.

Fixpoint lookup (name : string) (table : list (string * string))
  : option string :=
  match table with
  | [] => None
  | (key, value) :: rest =>
      if String.eqb key name then Some value else lookup name rest
  end.

Definition attributeOf (n : Node) (name : string) : option string :=
  match n with
  | Tag _ attributes _ _ => lookup name attributes
  end.

(** A chapter link, and the elements it may hold for the number, the
    title and the date of the chapter. *)
Definition chapterLink (href : string) (children : list Node) : Node :=
  Tag [Batoto.SELECTORS.chapterList.link; Batoto.SELECTORS.chapterList.item]
      [("href", href)] EmptyString children.

Definition numberElement (content : string) : Node :=
  Tag [Batoto.SELECTORS.chapterList.number] [] content [].

Definition titleElement (content : string) : Node :=
  Tag [Batoto.SELECTORS.chapterList.title] [] content [].

Definition dateElement (content : string) : Node :=
  Tag [Batoto.SELECTORS.chapterList.date] [] content [].

(** A page image. *)
Definition image (attributes : list (string * string)) : Node :=
  Tag [Batoto.SELECTORS.chapterPage.images] attributes EmptyString [].

(** The pages served, by the text of their markup. *)
Definition seriesHtml : string :=
  "<a href='/chapter/201'><b class='name'>Chapter 2</b></a><a href='/chapter/202'><b class='name'>Prologue</b></a><a href='/chapter/203'><b class='name'>Chapter 1</b></a><a href='/chapter/204'><b class='name'>Chapter 10</b></a>".

Definition seriesDocument : list Node :=
  [ chapterLink "/chapter/201" [numberElement "Chapter 2"];
    chapterLink "/chapter/202" [numberElement "Prologue"];
    chapterLink "/chapter/203" [numberElement "Chapter 1"];
    chapterLink "/chapter/204" [numberElement "Chapter 10"] ].

Definition titledHtml : string :=
  "<a href='/chapter/301'><b class='name'>Chapter 5</b><i class='chapter-title'>Chapter 5</i></a>".

Definition titledDocument : list Node :=
  [ chapterLink "/chapter/301"
      [numberElement "Chapter 5"; titleElement "Chapter 5"] ].

Definition datedHtml : string :=
  "<a href='/chapter/401'><b class='name'>Chapter 1</b><i class='date'>999999999 days ago</i></a>".

Definition datedDocument : list Node :=
  [ chapterLink "/chapter/401"
      [numberElement "Chapter 1"; dateElement "999999999 days ago"] ].

Definition emptyHtml : string := "<p>Nothing here</p>".

Definition emptyDocument : list Node := [ Tag [] [] "Nothing here" [] ].

Definition readerHtml : string :=
  "<img class='page-image' src='/p/1.jpg' width='-5' height='0'><img class='page-image' src='https://cdn.example/p/2.jpg' width='800' height='abc'>".

Definition readerDocument : list Node :=
  [ image [("src", "/p/1.jpg"); ("width", "-5"); ("height", "0")];
    image [("src", "https://cdn.example/p/2.jpg"); ("width", "800");
           ("height", "abc")] ].

Definition parse (html : string) : list Node :=
  if String.eqb html seriesHtml then seriesDocument
  else if String.eqb html titledHtml then titledDocument
  else if String.eqb html datedHtml then datedDocument
  else if String.eqb html readerHtml then readerDocument
  else if String.eqb html emptyHtml then emptyDocument
  else [].

Definition engine : Batoto.Cheerio := {|
  Batoto.Document := list Node;
  Batoto.Element := Node;
  Batoto.load := parse;
  Batoto.select := fun document selector =>
    filter (matches selector)
           (flat_map (fun n => n :: descendants n) document);
  Batoto.closest := fun _ el selector =>
    if matches selector el then Some el else None;
  Batoto.find := fun _ el selector => filter (matches selector) (descendants el);
  Batoto.attr := fun _ el name => attributeOf el name;
  Batoto.textContent := fun _ el => textOf el
|}.

(** A host on UTC whose native parser accepts one timestamp and rejects
    the other texts used here. *)
Definition utc : Batoto.Host := {|
  Batoto.dateParse := fun s =>
    if String.eqb s "2024-01-15T00:00:00.000Z" then Some 1705276800000
    else None;
  Batoto.LocalTZA := fun _ _ => 0
|}.

(** The clock stands at 2023-11-14T22:13:20.000Z. *)
Definition clock (index : nat) : Z := 1700000000000.

(** An OK response carrying a page. *)
Definition okHtml (html : string) : Fetched string :=
  Responded (mkResponse true 200 (Resolved html)).

(** [fetch] with headers, from a script. *)
Definition serve (url : string) (headers : list (string * string))
           (script : list (Fetched string))
  : Fetched string * list (Fetched string) :=
  replay url script.

(** A reader page that holds its images in a script. *)
Definition scriptHtml : string :=
  "<script>var pages = ['https://cdn.example/a/1.jpg','https://cdn.example/a/1.jpg','https://cdn.example/logo.png','HTTPS://CDN.EXAMPLE/A/2.WEBP'];</script>".

Definition scriptDocument : list Node :=
  [ Tag ["script"] []
        "var pages = ['https://cdn.example/a/1.jpg','https://cdn.example/a/1.jpg','https://cdn.example/logo.png','HTTPS://CDN.EXAMPLE/A/2.WEBP'];"
        [] ].

(** The engine [engine], on a site that also serves the page with the
    script. *)
Definition scriptEngine : Batoto.Cheerio := {|
  Batoto.Document := list Node;
  Batoto.Element := Node;
  Batoto.load := fun html =>
    if String.eqb html scriptHtml then scriptDocument else parse html;
  Batoto.select := fun document selector =>
    filter (matches selector)
           (flat_map (fun n => n :: descendants n) document);
  Batoto.closest := fun _ el selector =>
    if matches selector el then Some el else None;
  Batoto.find := fun _ el selector => filter (matches selector) (descendants el);
  Batoto.attr := fun _ el name => attributeOf el name;
  Batoto.textContent := fun _ el => textOf el
|}.

(** ** A database in memory

    The world of the link route: the rows of the manga table, and the
    replies of the site still to come. *)
Record Store := mkStore {
  rows : list Routes.Link.Manga;
  replies : list (Fetched string)
}.

Fixpoint findRow (id : string) (table : list Routes.Link.Manga)
  : option Routes.Link.Manga :=
  match table with
  | [] => None
  | row :: rest =>
      if String.eqb (Routes.Link.id row) id then Some row else findRow id rest
  end.

(** The table with the source of the row [id] replaced, if there is
    such a row. *)
Fixpoint setSource (id : string) (value : Value)
         (table : list Routes.Link.Manga) : option (list Routes.Link.Manga) :=
  match table with
  | [] => None
  | row :: rest =>
      if String.eqb (Routes.Link.id row) id then
        Some (Routes.Link.mkManga (Routes.Link.id row) (Routes.Link.title row)
                                  value :: rest)
      else
        match setSource id value rest with
        | Some rest' => Some (row :: rest')
        | None => None
        end
  end.

Definition memory : Routes.Link.Prisma Store := {|
  Routes.Link.findUnique := fun id w => (Resolved (findRow id (rows w)), w);
  Routes.Link.update := fun id value w =>
    match setSource id value (rows w) with
    | Some table => (Resolved tt, mkStore table (replies w))
    | None =>
        (Rejected (mkError "PrismaClientKnownRequestError"
                           "Record to update not found."), w)
    end
|}.

(** [fetch] with headers, from the replies of a store. *)
Definition serveStore (url : string) (headers : list (string * string))
           (w : Store) : Fetched string * Store :=
  let (reply, rest) := replay url (replies w) in
  (reply, mkStore (rows w) rest).

(** A store with one manga that has no source yet. *)
Definition library (script : list (Fetched string)) : Store :=
  mkStore [Routes.Link.mkManga "m1" "One Piece" Null] script.

End Fixtures.

(* ===================================================================== *)
(** * Properties of the runtime primitives                                *)
(* ===================================================================== *)

Module NumberFacts.
Import JS.

Local Open Scope Q_scope.

Lemma pow2_pos (e : Z) : 0 < 2 ^ e.
Proof. apply Qpower_0_lt. reflexivity. Qed.

Lemma pow2_of_Z (e : Z) : (0 <= e)%Z -> 2 ^ e == inject_Z (2 ^ e).
Proof. intros He. now rewrite Zpower_Qpower. Qed.

Lemma roundHalfEven_floor (y : Q) : (Qfloor y <= roundHalfEven y)%Z.
Proof.
  unfold roundHalfEven, Qfloor. destruct y as [a b]. cbv [Qnum Qden].
  destruct (2 * (a mod Z.pos b) ?= Z.pos b)%Z; try lia.
  destruct (Z.even (a / Z.pos b)); lia.
Qed.

Lemma roundHalfEven_nonneg (y : Q) : 0 <= y -> (0 <= roundHalfEven y)%Z.
Proof.
  intros Hy. pose proof (roundHalfEven_floor y).
  pose proof (Qfloor_resp_le _ _ Hy) as F. change (Qfloor 0) with 0%Z in F. lia.
Qed.

Lemma roundHalfEven_pos (y : Q) : 1 <= y -> (1 <= roundHalfEven y)%Z.
Proof.
  intros Hy. pose proof (roundHalfEven_floor y).
  pose proof (Qfloor_resp_le _ _ Hy) as F. change (Qfloor 1) with 1%Z in F. lia.
Qed.

Lemma roundHalfEven_integer (y : Q) (k : Z) :
  y == inject_Z k -> roundHalfEven y = k.
Proof.
  unfold roundHalfEven, Qeq. destruct y as [a b]. cbv [Qnum Qden inject_Z].
  intros E. rewrite Z.mul_1_r in E. subst a.
  rewrite Z.div_mul, Z.mod_mul by lia. reflexivity.
Qed.

Lemma ilog2_le (x : Q) : 0 < x -> 2 ^ ilog2 x <= x.
Proof.
  intros Hx. unfold ilog2.
  destruct (Qle_bool _ x) eqn:E; [now apply Qle_bool_iff |].
  destruct x as [n d]. simpl Qnum in *. simpl Qden in *.
  assert (Hn : (0 < n)%Z).
  { unfold Qlt in Hx. simpl in Hx. lia. }
  set (a := Z.log2 n). set (b := Z.log2 (Z.pos d)).
  assert (Ha : (2 ^ a <= n)%Z) by (apply Z.log2_spec; lia).
  assert (Hb : (Z.pos d < 2 ^ (b + 1))%Z).
  { replace (b + 1)%Z with (Z.succ b) by lia. apply Z.log2_spec. lia. }
  assert (Ha0 : (0 <= a)%Z) by apply Z.log2_nonneg.
  assert (Hb0 : (0 <= b)%Z) by apply Z.log2_nonneg.
  replace (a - b - 1)%Z with (a - (b + 1))%Z by lia.
  rewrite Qpower_minus by discriminate.
  rewrite !pow2_of_Z by lia.
  apply Qle_shift_div_r.
  - change 0 with (inject_Z 0). rewrite <- Zlt_Qlt. lia.
  - unfold Qle, Qmult, inject_Z. simpl.
    rewrite !Z.mul_1_r.
    assert (0 < 2 ^ a)%Z by (apply Z.pow_pos_nonneg; lia).
    nia.
Qed.

Lemma exponent_below (x : Q) :
  0 < x -> 2 ^ (-1074) <= x -> 2 ^ Z.max (ilog2 x - 52) (-1074) <= x.
Proof.
  intros Hx Hmin.
  destruct (Z.max_spec (ilog2 x - 52) (-1074)) as [[_ ->] | [_ ->]]; [exact Hmin |].
  apply Qle_trans with (2 ^ ilog2 x); [| now apply ilog2_le].
  apply Qpower_le_compat_l; [lia | discriminate].
Qed.

Lemma roundPositive_positive (x : Q) :
  0 < x -> 2 ^ (-1074) <= x ->
  isPositive (roundPositive x) = true.
Proof.
  intros Hx Hmin.
  pose proof (exponent_below x Hx Hmin) as Hle.
  unfold roundPositive.
  set (e := Z.max (ilog2 x - 52) (-1074)) in *.
  destruct (Qle_bool _ _); [reflexivity |].
  cbn [isPositive].
  destruct (Qle_bool (Qred _) 0) eqn:E; [| reflexivity].
  apply Qle_bool_iff in E. rewrite Qred_correct in E.
  exfalso. apply (Qlt_not_le _ _ (pow2_pos e)).
  apply Qle_trans with (inject_Z (roundHalfEven (x / 2 ^ e)) * 2 ^ e); [| exact E].
  rewrite <- (Qmult_1_l (2 ^ e)) at 1.
  apply Qmult_le_compat_r; [| apply Qlt_le_weak, pow2_pos].
  change 1 with (inject_Z 1). rewrite <- Zle_Qle.
  apply roundHalfEven_pos.
  apply Qle_shift_div_l; [apply pow2_pos |]. now rewrite Qmult_1_l.
Qed.

Lemma roundPositive_not_negative (x : Q) :
  0 < x ->
  match roundPositive x with
  | Finite v => 0 <= v
  | Infinity negative => negative = false
  | NaN => False
  end.
Proof.
  intros Hx. unfold roundPositive.
  destruct (Qle_bool _ _); [reflexivity |].
  rewrite Qred_correct.
  apply Qmult_le_0_compat; [| apply Qlt_le_weak, pow2_pos].
  change 0 with (inject_Z 0). rewrite <- Zle_Qle.
  apply roundHalfEven_nonneg.
  apply Qle_shift_div_l; [apply pow2_pos |].
  rewrite Qmult_0_l. now apply Qlt_le_weak.
Qed.

Lemma roundPositive_representable (x v : Q) :
  roundPositive x = Finite v -> representable v.
Proof.
  unfold roundPositive.
  set (e := Z.max (ilog2 x - 52) (-1074)).
  destruct (Qle_bool _ _); [discriminate |]. intros E.
  replace v with (Qred (inject_Z (roundHalfEven (x / 2 ^ e)) * 2 ^ e))
    by congruence.
  exists (roundHalfEven (x / 2 ^ e) * 2 ^ (e + 1074))%Z.
  apply (Qeq_trans _ _ _ (Qred_correct _)).
  rewrite inject_Z_mult, <- pow2_of_Z by lia.
  rewrite <- Qmult_assoc, <- Qpower_plus by discriminate.
  now replace (e + 1074 + -1074)%Z with e by lia.
Qed.

Lemma Qnum_sign (x : Q) :
  match Qnum x with
  | Z0 => x == 0
  | Zpos _ => 0 < x
  | Zneg _ => x < 0
  end.
Proof.
  destruct x as [[| p | p] d]; unfold Qeq, Qlt; simpl; lia.
Qed.

Lemma round64_representable (x v : Q) :
  round64 x = Finite v -> representable v.
Proof.
  unfold round64. destruct (Qnum x).
  - intros E. replace v with 0 by congruence.
    exists 0%Z. now rewrite Qmult_0_l.
  - apply roundPositive_representable.
  - destruct (roundPositive (- x)) as [| s | q] eqn:E; try discriminate.
    intros E'. replace v with (Qred (- q)) by congruence.
    apply roundPositive_representable in E.
    destruct E as [k Hk]. exists (- k)%Z.
    apply (Qeq_trans _ _ _ (Qred_correct _)).
    rewrite Hk, inject_Z_opp. ring.
Qed.

Lemma round64_not_NaN (x : Q) : round64 x <> NaN.
Proof.
  unfold round64. pose proof (Qnum_sign x) as S.
  destruct (Qnum x); [discriminate | |].
  - unfold roundPositive. now destruct (Qle_bool _ _).
  - unfold roundPositive. now destruct (Qle_bool _ _).
Qed.

Lemma Qle_bool_true (x y : Q) : x <= y -> Qle_bool x y = true.
Proof. apply Qle_bool_iff. Qed.

Lemma Qle_bool_false (x y : Q) : y < x -> Qle_bool x y = false.
Proof.
  intros H. apply not_true_iff_false. intros E. apply Qle_bool_iff in E. lra.
Qed.

(** The difference of two binary64 values has the sign of their exact
    difference: rounding it never reaches zero. *)
Lemma difference_sign (x y : Q) :
  representable x -> representable y ->
  isPositive (round64 (x - y)) = negb (Qle_bool x y).
Proof.
  intros [kx Hx] [ky Hy].
  assert (D : x - y == inject_Z (kx - ky) * 2 ^ (-1074)).
  { rewrite Hx, Hy. unfold Z.sub. rewrite inject_Z_plus, inject_Z_opp. ring. }
  pose proof (pow2_pos (-1074)) as Hmin.
  unfold round64. pose proof (Qnum_sign (x - y)) as S.
  destruct (Qnum (x - y)).
  - rewrite Qle_bool_true by lra. reflexivity.
  - rewrite Qle_bool_false by lra.
    apply roundPositive_positive; [exact S |].
    rewrite D in S |- *.
    assert (P : (1 <= kx - ky)%Z).
    { destruct (Z_lt_le_dec 0 (kx - ky)) as [P | P]; [lia |].
      exfalso. rewrite Zle_Qle in P. change (inject_Z 0) with 0 in P.
      assert (inject_Z (kx - ky) * 2 ^ (-1074) <= 0); [| lra].
      rewrite <- (Qmult_0_l (2 ^ (-1074))).
      apply Qmult_le_compat_r; lra. }
    rewrite Zle_Qle in P. change (inject_Z 1) with 1 in P.
    rewrite <- (Qmult_1_l (2 ^ (-1074))) at 1.
    apply Qmult_le_compat_r; lra.
  - rewrite Qle_bool_true by lra.
    assert (Hneg : 0 < - (x - y)) by lra.
    pose proof (roundPositive_not_negative _ Hneg) as R.
    destruct (roundPositive (- (x - y))) as [| s | q]; [contradiction | |].
    + now subst s.
    + cbn [isPositive negb]. rewrite Qle_bool_true; [reflexivity |].
      rewrite Qred_correct. lra.
Qed.

Lemma Qred_integer (q : Q) (k : Z) : q == inject_Z k -> Qred q = inject_Z k.
Proof.
  intros E. rewrite (Qred_complete _ _ E).
  apply Qred_identity. apply Z.gcd_1_r.
Qed.

Lemma roundPositive_integer (p : positive) :
  (exists k : Z, roundPositive (inject_Z (Z.pos p)) = Finite (inject_Z k)
                 /\ (0 < k)%Z)
  \/ roundPositive (inject_Z (Z.pos p)) = Infinity false.
Proof.
  set (x := inject_Z (Z.pos p)).
  assert (Hx : 0 < x) by reflexivity.
  assert (Hmin : 2 ^ (-1074) <= x).
  { apply Qle_trans with 1; [| unfold x; change 1 with (inject_Z 1);
                                rewrite <- Zle_Qle; lia].
    change 1 with (2 ^ 0). apply Qpower_le_compat_l; [lia | discriminate]. }
  pose proof (roundPositive_positive x Hx Hmin) as Pos.
  unfold roundPositive in *.
  set (e := Z.max (ilog2 x - 52) (-1074)) in *.
  set (m := roundHalfEven (x / 2 ^ e)) in *.
  destruct (Qle_bool _ _); [now right |]. left.
  assert (I : exists k : Z, inject_Z m * 2 ^ e == inject_Z k).
  { destruct (Z_lt_le_dec e 0) as [Neg | Nonneg].
    - exists (Z.pos p).
      assert (E : x / 2 ^ e == inject_Z (Z.pos p * 2 ^ (- e))).
      { rewrite inject_Z_mult, <- pow2_of_Z, Qpower_opp by lia.
        reflexivity. }
      unfold m. rewrite (roundHalfEven_integer _ _ E).
      rewrite inject_Z_mult, <- pow2_of_Z, <- Qmult_assoc by lia.
      rewrite <- Qpower_plus by discriminate.
      replace (- e + e)%Z with 0%Z by lia. apply Qmult_1_r.
    - exists (m * 2 ^ e)%Z. now rewrite inject_Z_mult, <- pow2_of_Z. }
  destruct I as [k Hk]. exists k.
  rewrite (Qred_integer _ _ Hk) in *. split; [reflexivity |].
  cbn [isPositive] in Pos. apply negb_true_iff in Pos.
  destruct (Z_lt_le_dec 0 k) as [Hk0 | Hk0]; [exact Hk0 |].
  rewrite Qle_bool_true in Pos; [discriminate |].
  change 0 with (inject_Z 0). now rewrite <- Zle_Qle.
Qed.

(** An integer is read as an integer of the same sign, or overflows to
    an infinity. *)
Lemma ofZ_integral (n : Z) :
  (exists k : Z, ofZ n = Finite (inject_Z k) /\ (n = 0 <-> k = 0)%Z)
  \/ (exists s, ofZ n = Infinity s).
Proof.
  unfold ofZ, round64. destruct n as [| p | p].
  - left. exists 0%Z. split; [reflexivity | tauto].
  - change (Qnum (inject_Z (Z.pos p))) with (Z.pos p). cbv iota.
    destruct (roundPositive_integer p) as [(k & -> & Hk) | ->].
    + left. exists k. split; [reflexivity | lia].
    + right. eauto.
  - change (Qnum (inject_Z (Z.neg p))) with (Z.neg p). cbv iota.
    change (- inject_Z (Z.neg p)) with (inject_Z (Z.pos p)).
    destruct (roundPositive_integer p) as [(k & -> & Hk) | ->].
    + left. exists (- k)%Z. split; [| lia].
      f_equal. apply Qred_integer. now rewrite inject_Z_opp.
    + right. eauto.
Qed.

Lemma round64_ordered (x : Q) : ordered (round64 x).
Proof.
  destruct (round64 x) as [| s | q] eqn:E; cbn [ordered]; auto.
  - exact (round64_not_NaN x E).
  - exact (round64_representable x q E).
Qed.

Lemma zero_ordered : ordered (Finite 0).
Proof. exists 0%Z. now rewrite Qmult_0_l. Qed.

(** The comparator [a - b] is positive exactly when [a <= b] fails. *)
Lemma sub_sign (a b : number) :
  ordered a -> ordered b -> (isPositive (sub a b) = false <-> le a b).
Proof.
  destruct a as [| s | x], b as [| s' | y]; cbn [ordered]; try tauto;
    intros Ha Hb.
  - destruct s, s'; cbn; intuition discriminate.
  - destruct s; cbn; intuition discriminate.
  - destruct s'; cbn; intuition discriminate.
  - cbn [sub le]. rewrite (difference_sign x y Ha Hb), negb_false_iff.
    apply Qle_bool_iff.
Qed.

Lemma le_total (a b : number) : ordered a -> ordered b -> le a b \/ le b a.
Proof.
  destruct a as [| s | x], b as [| s' | y]; cbn [ordered]; try tauto;
    intros _ _.
  - destruct s, s'; cbn; tauto.
  - destruct s; cbn; tauto.
  - destruct s'; cbn; tauto.
  - cbn. destruct (Qlt_le_dec x y); [left | right]; lra.
Qed.

Lemma le_trans (a b c : number) : le a b -> le b c -> le a c.
Proof.
  destruct a as [| [] | x], b as [| [] | y], c as [| [] | z]; cbn;
    try tauto; lra.
Qed.

End NumberFacts.

Module ExactFacts.
Import JS NumberFacts.
Local Open Scope Q_scope.

(** Below 2^53 an integer is a binary64 value: rounding leaves it as it
    is, however the rational is written. *)
Lemma roundPositive_exact (x : Q) (n : Z) :
  x == inject_Z n -> (0 < n < 2 ^ 53)%Z ->
  roundPositive x = Finite (inject_Z n).
Proof.
  intros Hx Hn.
  assert (Hpos : 0 < x).
  { rewrite Hx. change 0 with (inject_Z 0). rewrite <- Zlt_Qlt. lia. }
  assert (Hlog : (ilog2 x < 53)%Z).
  { apply (Qpower_lt_compat_l_inv 2); [| reflexivity].
    apply Qle_lt_trans with x; [now apply ilog2_le |].
    rewrite Hx, pow2_of_Z by lia. rewrite <- Zlt_Qlt. lia. }
  unfold roundPositive.
  set (e := Z.max (ilog2 x - 52) (-1074)).
  assert (He : (-1074 <= e <= 0)%Z) by lia.
  assert (E : x / 2 ^ e == inject_Z (n * 2 ^ (- e))).
  { rewrite Hx, inject_Z_mult, <- pow2_of_Z, Qpower_opp by lia. reflexivity. }
  rewrite (roundHalfEven_integer _ _ E).
  assert (V : inject_Z (n * 2 ^ (- e)) * 2 ^ e == inject_Z n).
  { rewrite inject_Z_mult, <- pow2_of_Z, <- Qmult_assoc by lia.
    rewrite <- Qpower_plus by discriminate.
    replace (- e + e)%Z with 0%Z by lia. apply Qmult_1_r. }
  rewrite (Qred_integer _ _ V).
  rewrite Qle_bool_false; [reflexivity |].
  rewrite pow2_of_Z by lia. rewrite <- Zlt_Qlt.
  apply Z.lt_trans with (2 ^ 53)%Z; [lia | now apply Z.pow_lt_mono_r].
Qed.

Lemma round64_exact (x : Q) (n : Z) :
  x == inject_Z n -> (Z.abs n < 2 ^ 53)%Z -> round64 x = Finite (inject_Z n).
Proof.
  intros Hx Hn. unfold round64. pose proof (Qnum_sign x) as S.
  destruct (Qnum x).
  - rewrite Hx in S. change 0 with (inject_Z 0) in S.
    rewrite inject_Z_injective in S. now subst n.
  - rewrite Hx in S. change 0 with (inject_Z 0) in S. rewrite <- Zlt_Qlt in S.
    apply roundPositive_exact; [exact Hx | lia].
  - rewrite Hx in S. change 0 with (inject_Z 0) in S. rewrite <- Zlt_Qlt in S.
    rewrite (roundPositive_exact (- x) (- n)).
    + f_equal. apply Qred_integer. now rewrite inject_Z_opp, Qopp_opp.
    + now rewrite Hx, inject_Z_opp.
    + lia.
Qed.

Lemma ofZ_exact (n : Z) : (Z.abs n < 2 ^ 53)%Z -> ofZ n = Finite (inject_Z n).
Proof. intros Hn. apply round64_exact; [reflexivity | exact Hn]. Qed.

(** Subtracting integers is exact as long as the difference is below
    2^53. *)
Lemma sub_exact (a b : Z) :
  (Z.abs (a - b) < 2 ^ 53)%Z ->
  sub (Finite (inject_Z a)) (Finite (inject_Z b)) = Finite (inject_Z (a - b)).
Proof.
  intros H. cbn [sub]. apply round64_exact; [| exact H].
  unfold Z.sub. now rewrite inject_Z_plus, inject_Z_opp.
Qed.

Lemma mul_exact (a b : Z) :
  (Z.abs (a * b) < 2 ^ 53)%Z ->
  mul (Finite (inject_Z a)) (inject_Z b) = Finite (inject_Z (a * b)).
Proof.
  intros H. cbn [mul]. apply round64_exact; [| exact H].
  now rewrite inject_Z_mult.
Qed.

End ExactFacts.

Module DateFacts.
Import JS JS.Date.

(** [YearFromTime t] is the year that holds [t]. *)
Lemma YearFromTime_spec (t : Z) :
  TimeFromYear (YearFromTime t) <= t < TimeFromYear (YearFromTime t + 1).
Proof.
  unfold TimeFromYear, YearFromTime, DayFromYear, Day, msPerDay.
  repeat match goal with
         | |- context [if ?b then _ else _] => destruct b eqn:?
         end;
    Z.div_mod_to_equations; lia.
Qed.

Lemma DayFromYear_succ (y : Z) :
  DayFromYear (y + 1) = DayFromYear y + DaysInYear y.
Proof.
  unfold DayFromYear, DaysInYear.
  repeat match goal with
         | |- context [if ?b then _ else _] => destruct b eqn:?
         end;
    Z.div_mod_to_equations; lia.
Qed.

Lemma DayWithinYear_range (t : Z) :
  0 <= DayWithinYear t < 365 + InLeapYear t.
Proof.
  pose proof (YearFromTime_spec t) as S.
  unfold DayWithinYear, InLeapYear, leapDays, TimeFromYear in *.
  rewrite DayFromYear_succ in S.
  assert (D : DaysInYear (YearFromTime t) = 365 \/ DaysInYear (YearFromTime t) = 366).
  { unfold DaysInYear.
    repeat match goal with
           | |- context [if ?b then _ else _] => destruct b
           end; auto. }
  unfold Day, msPerDay in *.
  destruct D as [D | D]; rewrite D in *; cbn [Z.eqb Pos.eqb];
    Z.div_mod_to_equations; lia.
Qed.

Lemma MonthFromTime_range (t : Z) : 0 <= MonthFromTime t <= 11.
Proof.
  unfold MonthFromTime.
  repeat match goal with
         | |- context [if ?b then _ else _] => destruct b
         end; lia.
Qed.

Lemma InLeapYear_cases (t : Z) : InLeapYear t = 0 \/ InLeapYear t = 1.
Proof. unfold InLeapYear, leapDays. destruct (_ =? 366); auto. Qed.

(** The day of the month lies between 1 and 31. *)
Lemma DateFromTime_range (t : Z) : 1 <= DateFromTime t <= 31.
Proof.
  pose proof (DayWithinYear_range t) as R.
  unfold DateFromTime, MonthFromTime.
  destruct (InLeapYear_cases t) as [E | E]; rewrite E in *;
  repeat match goal with
         | |- context [if ?b then _ else _] => destruct b eqn:?
         end; cbn [monthOffset]; lia.
Qed.

(** Moving the day of the month by [k] moves the day number by [k]. *)
Lemma MakeDay_shift (t k : Z) :
  MakeDay (YearFromTime t) (MonthFromTime t) (DateFromTime t + k) = Day t + k.
Proof.
  pose proof (MonthFromTime_range t) as R.
  unfold MakeDay.
  replace (MonthFromTime t / 12) with 0 by (Z.div_mod_to_equations; lia).
  replace (MonthFromTime t mod 12) with (MonthFromTime t)
    by (Z.div_mod_to_equations; lia).
  rewrite Z.add_0_r. unfold DateFromTime, DayWithinYear, InLeapYear. lia.
Qed.

Lemma time_parts (t : Z) :
  t = Day t * msPerDay + HourFromTime t * msPerHour
      + MinFromTime t * msPerMinute + SecFromTime t * msPerSecond
      + msFromTime t.
Proof.
  unfold Day, HourFromTime, MinFromTime, SecFromTime, msFromTime,
    msPerDay, msPerHour, msPerMinute, msPerSecond.
  Z.div_mod_to_equations. lia.
Qed.

Lemma day_parts (t : Z) : t = Day t * msPerDay + TimeWithinDay t.
Proof.
  unfold Day, TimeWithinDay, msPerDay. Z.div_mod_to_equations. lia.
Qed.

Section Host.

Variable LocalTZA : Z -> bool -> Z.

(** [setDate(getDate() + k)] moves the local time by [k] days. *)
Lemma setDate_shift (tv k : Z) :
  setDate LocalTZA tv (Finite (inject_Z (getDate LocalTZA tv + k)))
  = TimeClip (UTC LocalTZA (LocalTime LocalTZA tv + k * msPerDay)).
Proof.
  unfold setDate, getDate. cbn [toInteger inject_Z Qnum Qden].
  rewrite Z.quot_1_r, MakeDay_shift. f_equal. f_equal.
  pose proof (day_parts (LocalTime LocalTZA tv)) as P.
  unfold MakeDate. lia.
Qed.

(** [setHours(getHours() + k)] moves the local time by [k] hours. *)
Lemma setHours_shift (tv k : Z) :
  setHours LocalTZA tv (Finite (inject_Z (getHours LocalTZA tv + k)))
  = TimeClip (UTC LocalTZA (LocalTime LocalTZA tv + k * msPerHour)).
Proof.
  unfold setHours, getHours. cbn [toInteger inject_Z Qnum Qden].
  rewrite Z.quot_1_r. f_equal. f_equal.
  pose proof (time_parts (LocalTime LocalTZA tv)) as P.
  unfold MakeDate, MakeTime. lia.
Qed.

(** [setMinutes(getMinutes() + k)] moves the local time by [k] minutes. *)
Lemma setMinutes_shift (tv k : Z) :
  setMinutes LocalTZA tv (Finite (inject_Z (getMinutes LocalTZA tv + k)))
  = TimeClip (UTC LocalTZA (LocalTime LocalTZA tv + k * msPerMinute)).
Proof.
  unfold setMinutes, getMinutes. cbn [toInteger inject_Z Qnum Qden].
  rewrite Z.quot_1_r. f_equal. f_equal.
  pose proof (time_parts (LocalTime LocalTZA tv)) as P.
  unfold MakeDate, MakeTime. lia.
Qed.

End Host.
End DateFacts.

(* ===================================================================== *)
(** * Properties of the MangaDex adapter                                  *)
(* ===================================================================== *)

Module ListFacts.

(** An element that sits at the end of a list and nowhere before it can
    only be split off at the end. *)
Lemma split_at_last {A : Type} (l1 l2 l3 : list A) (a b : A) :
  l1 ++ [a] = l2 ++ b :: l3 -> ~ In b l1 -> l3 = [] /\ l1 = l2 /\ a = b.
Proof.
  intros E Hb.
  destruct l3 as [| c l3] using rev_ind.
  - apply app_inj_tail in E. tauto.
  - clear IHl3. exfalso. apply Hb.
    change (l2 ++ b :: l3 ++ [c]) with (l2 ++ (b :: l3) ++ [c]) in E.
    rewrite app_assoc in E. apply app_inj_tail in E. destruct E as [-> _].
    apply in_elt.
Qed.

Lemma removelast_snoc {A : Type} (l : list A) (a : A) :
  removelast (l ++ [a]) = l.
Proof. apply removelast_last. Qed.

End ListFacts.

Module StringFacts.
Import JS.

Lemma append_assoc (a b c : string) :
  ((a ++ b) ++ c = a ++ (b ++ c))%string.
Proof. induction a; simpl; congruence. Qed.

Lemma append_inj_l (a b c : string) : (a ++ b = a ++ c)%string -> b = c.
Proof. induction a; simpl; [auto | intros [= E]; auto]. Qed.

Lemma prefix_refl (s : string) : String.prefix s s = true.
Proof.
  induction s as [| c s IH]; simpl; [reflexivity |].
  destruct (ascii_dec c c); [exact IH | congruence].
Qed.

(** Interpolating a value into a message makes the message contain it. *)
Lemma includes_append (a b : string) : includes (a ++ b) b = true.
Proof.
  induction a as [| c a IH]; simpl.
  - destruct b; simpl; [reflexivity |].
    rewrite prefix_refl. destruct (ascii_dec a a); [reflexivity | congruence].
  - rewrite IH. apply orb_true_r.
Qed.

Lemma ToString_inj (a b : Z) : ToString a = ToString b -> a = b.
Proof.
  unfold ToString. intros E.
  apply DecimalZ.to_int_inj.
  assert (N : forall z, Z.to_int z <> Decimal.Pos Decimal.Nil
                        /\ Z.to_int z <> Decimal.Neg Decimal.Nil).
  { intros [| p | p]; simpl; split; try discriminate;
      intros [= H]; exact (DecimalPos.Unsigned.to_uint_nonnil p H). }
  pose proof (NilZero.isi (Z.to_int a) (proj1 (N a)) (proj2 (N a))) as Ha.
  pose proof (NilZero.isi (Z.to_int b) (proj1 (N b)) (proj2 (N b))) as Hb.
  rewrite E in Ha. congruence.
Qed.

End StringFacts.

Module MangaDexFacts.
Import JS Types MangaDex ListFacts StringFacts.

Lemma chaptersUrl_inj mangaId o o' :
  chaptersUrl mangaId o = chaptersUrl mangaId o' -> o = o'.
Proof.
  unfold chaptersUrl. intros E.
  repeat (apply append_inj_l in E). now apply ToString_inj.
Qed.

Lemma offsetsFrom_length o n : List.length (offsetsFrom o n) = n.
Proof. revert o; induction n; simpl; auto. Qed.

Lemma offsetsFrom_snoc o n :
  offsetsFrom o (S n) = offsetsFrom o n ++ [o + batchSize * Z.of_nat n].
Proof.
  revert o; induction n as [| n IH]; intros o.
  - simpl. f_equal. lia.
  - change (offsetsFrom o (S (S n)))
      with (o :: offsetsFrom (o + batchSize) (S n)).
    rewrite IH. cbn [offsetsFrom app]. do 3 f_equal. lia.
Qed.

(** The offsets of successive pages are the multiples of the batch size. *)
Lemma offsetsFrom_multiples n :
  offsetsFrom 0 n = map (fun i => batchSize * Z.of_nat i) (seq 0 n).
Proof.
  induction n as [| n IH]; [reflexivity |].
  rewrite offsetsFrom_snoc, seq_S, map_app, IH. reflexivity.
Qed.

Lemma offsetsFrom_bounds o n x :
  In x (offsetsFrom o n) -> o <= x <= o + batchSize * (Z.of_nat n - 1).
Proof.
  revert o; induction n as [| n IH]; intros o; cbn [offsetsFrom In]; [tauto |].
  intros [<- | Hx].
  - unfold batchSize. lia.
  - apply IH in Hx. unfold batchSize in *. lia.
Qed.

Lemma offsetsFrom_NoDup o n : NoDup (offsetsFrom o n).
Proof.
  revert o; induction n as [| n IH]; intros o; cbn [offsetsFrom];
    constructor; auto.
  intros Hx. apply offsetsFrom_bounds in Hx. unfold batchSize in Hx. lia.
Qed.

Section Pagination.

Context {World : Type}.
Variable fetch : string -> World -> Fetched MangaDexChapterResponse * World.

Abbreviation Run := (Run World MangaDexChapterResponse).

(** One pass of the loop issues one request, and what it does next is
    decided by the reply alone. *)
Lemma iteration_spec mangaId offset all (r : Run) :
  let reply := fst (fetch (chaptersUrl mangaId offset) (world r)) in
  let sent := exchanges r ++ [(chaptersUrl mangaId offset, reply)] in
  match iteration fetch mangaId offset all r with
  | Continue offset' all' r' =>
      exchanges r' = sent /\ console r' = console r
      /\ isFullPage reply = true /\ all' = all ++ chaptersOf reply
      /\ offset' = offset + batchSize /\ offset' <= safetyLimit
  | Break all' r' =>
      exchanges r' = sent
      /\ console r' = console r ++ ceilingWarning offset reply
      /\ Resolved all' = settle offset all reply
      /\ (isFullPage reply = true -> safetyLimit < offset + batchSize)
  | Throw e r' =>
      exchanges r' = sent /\ console r' = console r
      /\ Rejected e = settle offset all reply /\ isFullPage reply = false
  end.
Proof.
  unfold iteration, settle, ceilingWarning, isFullPage, chaptersOf.
  destruct (fetch _ _) as [[e | response] w]; simpl.
  - auto using app_nil_r.
  - destruct (ok response); simpl.
    + destruct (body response) as [data | e]; simpl;
        [| auto using app_nil_r].
      destruct (_ <? batchSize) eqn:Short; simpl.
      * rewrite app_nil_r. repeat split; auto. discriminate.
      * destruct (offset + batchSize >? safetyLimit) eqn:Over; simpl.
        -- repeat split; auto. lia.
        -- repeat split; auto. lia.
    + destruct (offset =? 0); simpl; rewrite ?app_nil_r;
        repeat split; auto; discriminate.
Qed.

Lemma paginate_unfold mangaId offset all (r : Run) :
  paginate fetch mangaId offset all r =
  match iteration fetch mangaId offset all r with
  | Continue offset' all' r' => paginate fetch mangaId offset' all' r'
  | Break all' r' => (Resolved all', r')
  | Throw e r' => (Rejected e, r')
  end.
Proof.
  funelim (paginate fetch mangaId offset all r);
    match goal with
    | E : iteration _ _ _ _ _ = _ |- _ => rewrite E; reflexivity
    end.
Qed.

(** The shape of every run of the loop: some full pages at successive
    offsets, then one last reply that settles the call. *)
Lemma paginate_spec mangaId offset all (r : Run) :
  offset <= safetyLimit ->
  exists (full : list (string * Fetched MangaDexChapterResponse))
         (last : Fetched MangaDexChapterResponse),
    let result := paginate fetch mangaId offset all r in
    let lastOffset := offset + batchSize * Z.of_nat (List.length full) in
    exchanges (snd result)
      = exchanges r ++ full ++ [(chaptersUrl mangaId lastOffset, last)]
    /\ map fst full
       = map (chaptersUrl mangaId) (offsetsFrom offset (List.length full))
    /\ Forall (fun x => isFullPage (snd x) = true) full
    /\ lastOffset <= safetyLimit
    /\ fst result
       = settle lastOffset (all ++ flat_map chaptersOf (map snd full)) last
    /\ console (snd result) = console r ++ ceilingWarning lastOffset last
    /\ (isFullPage last = true -> safetyLimit < lastOffset + batchSize).
Proof.
  funelim (paginate fetch mangaId offset all r); intros Hle;
    match goal with
    | E : iteration _ ?id ?o ?a ?r = _ |- _ =>
        pose proof (iteration_spec id o a r) as S; rewrite E in S; cbn zeta in S
    end.
  - destruct S as (Hx & Hc & Hfull & -> & -> & Hle').
    match goal with
    | IH : _ -> exists _ _, _ |- _ => destruct (IH Hle') as (full & last & IHs)
    end.
    cbn zeta in IHs.
    destruct IHs as (Ex & Eu & Ef & El & Er & Ec & Eo).
    set (reply := fst (fetch (chaptersUrl mangaId offset) (world r))) in *.
    exists ((chaptersUrl mangaId offset, reply) :: full), last. cbn zeta.
    simpl List.length.
    replace (offset + batchSize * Z.of_nat (S (List.length full)))
      with (offset + batchSize + batchSize * Z.of_nat (List.length full))
      by lia.
    repeat split.
    + rewrite Ex, Hx, <- app_assoc. reflexivity.
    + simpl. now rewrite Eu.
    + constructor; auto.
    + exact El.
    + rewrite Er. simpl. now rewrite <- app_assoc.
    + rewrite Ec, Hc. reflexivity.
    + exact Eo.
  - destruct S as (Hx & Hc & Hs & Ho).
    exists [], (fst (fetch (chaptersUrl mangaId offset) (world r))).
    cbn [List.length map flat_map app fst snd Z.of_nat].
    rewrite Z.mul_0_r, Z.add_0_r, app_nil_r.
    repeat split; auto.
  - destruct S as (Hx & Hc & Hs & Hf).
    exists [], (fst (fetch (chaptersUrl mangaId offset) (world r))).
    cbn [List.length map flat_map app fst snd Z.of_nat].
    rewrite Z.mul_0_r, Z.add_0_r, app_nil_r.
    repeat split; auto.
    + unfold ceilingWarning. rewrite Hf, app_nil_r. exact Hc.
    + rewrite Hf. discriminate.
Qed.

(** The first request of a run of the loop is the one for its starting
    offset, and the reply to it is what [fetch] gives in the starting
    world. *)
Lemma paginate_first mangaId offset all (r : Run) :
  exists rest,
    exchanges (snd (paginate fetch mangaId offset all r))
    = exchanges r
        ++ (chaptersUrl mangaId offset,
            fst (fetch (chaptersUrl mangaId offset) (world r))) :: rest.
Proof.
  funelim (paginate fetch mangaId offset all r);
    match goal with
    | E : iteration _ ?id ?o ?a ?r = _ |- _ =>
        pose proof (iteration_spec id o a r) as S; rewrite E in S; cbn zeta in S
    end.
  - destruct S as (Hx & _).
    match goal with
    | IH : exists _, _ |- _ => destruct IH as (rest & Hrest)
    end.
    rewrite Hrest, Hx, <- app_assoc. simpl. eauto.
  - destruct S as (Hx & _). exists []. exact Hx.
  - destruct S as (Hx & _). exists []. exact Hx.
Qed.

(** A reply that is not a full page settles the call at once. *)
Lemma paginate_stops mangaId offset all (r : Run) :
  let reply := fst (fetch (chaptersUrl mangaId offset) (world r)) in
  isFullPage reply = false ->
  let result := paginate fetch mangaId offset all r in
  fst result = settle offset all reply
  /\ exchanges (snd result)
     = exchanges r ++ [(chaptersUrl mangaId offset, reply)].
Proof.
  intros reply Hnot. cbn zeta. rewrite paginate_unfold.
  pose proof (iteration_spec mangaId offset all r) as S. cbn zeta in S.
  fold reply in S.
  destruct (iteration fetch mangaId offset all r) as [o' a' r' | a' r' | e r'].
  - destruct S as (_ & _ & Hfull & _). congruence.
  - destruct S as (Hx & _ & Hs & _). simpl. auto.
  - destruct S as (Hx & _ & Hs & _). simpl. auto.
Qed.

(** A full page is followed by the request for the next offset, unless
    that offset is past the safety limit. *)
Lemma paginate_continues mangaId offset all (r : Run) :
  let sent := fetch (chaptersUrl mangaId offset) (world r) in
  isFullPage (fst sent) = true ->
  offset + batchSize <= safetyLimit ->
  paginate fetch mangaId offset all r
  = paginate fetch mangaId (offset + batchSize)
      (all ++ chaptersOf (fst sent))
      (mkRun (snd sent)
             (exchanges r ++ [(chaptersUrl mangaId offset, fst sent)])
             (console r)).
Proof.
  intros sent Hfull Hle. rewrite paginate_unfold.
  unfold iteration. fold sent.
  unfold isFullPage, chaptersOf in *.
  destruct sent as [[e | response] w]; simpl in *; [discriminate |].
  destruct (ok response); simpl in *; [| discriminate].
  destruct (body response) as [data | e]; [| discriminate].
  destruct (_ <? batchSize); [discriminate |].
  destruct (offset + batchSize >? safetyLimit) eqn:Over; [lia |].
  reflexivity.
Qed.

Lemma getMangaDexChapters_run mangaId options w :
  snd (getMangaDexChapters fetch mangaId options w)
  = snd (paginate fetch mangaId 0 [] (start _ w)).
Proof.
  unfold getMangaDexChapters.
  now destruct (paginate fetch mangaId 0 [] (start _ w)) as [[a | e] r].
Qed.

Lemma getMangaDexChapters_result mangaId options w :
  fst (getMangaDexChapters fetch mangaId options w)
  = match fst (paginate fetch mangaId 0 [] (start _ w)) with
    | Resolved allChapters => Resolved (applyFilters options allChapters)
    | Rejected e => Rejected e
    end.
Proof.
  unfold getMangaDexChapters.
  now destruct (paginate fetch mangaId 0 [] (start _ w)) as [[a | e] r].
Qed.

(** The whole run of a call, as [paginate_spec] describes it. *)
Lemma getMangaDexChapters_spec mangaId options w :
  exists (full : list (string * Fetched MangaDexChapterResponse))
         (last : Fetched MangaDexChapterResponse),
    let out := getMangaDexChapters fetch mangaId options w in
    let lastOffset := batchSize * Z.of_nat (List.length full) in
    exchanges (snd out) = full ++ [(chaptersUrl mangaId lastOffset, last)]
    /\ map fst full
       = map (chaptersUrl mangaId) (offsetsFrom 0 (List.length full))
    /\ Forall (fun x => isFullPage (snd x) = true) full
    /\ lastOffset <= safetyLimit
    /\ fst (paginate fetch mangaId 0 [] (start _ w))
       = settle lastOffset (flat_map chaptersOf (map snd full)) last
    /\ console (snd out) = ceilingWarning lastOffset last
    /\ (isFullPage last = true -> safetyLimit < lastOffset + batchSize).
Proof.
  destruct (paginate_spec mangaId 0 [] (start _ w)) as (full & last & S).
  { unfold safetyLimit. lia. }
  exists full, last. cbn zeta in *.
  rewrite getMangaDexChapters_run. simpl in S. exact S.
Qed.

(** C1. For every manga id, [getMangaDexChapters] issues its first
    request with [offset=0]. If the reply to it is a response that is
    not OK, the call rejects, with a message that contains the upstream
    status. If a response that is not OK comes for a later page, it is
    the last request, and the call resolves with the chapters of the
    pages fetched before it: exactly these when no option is given, and
    these with the client-side filters applied otherwise. *)
Theorem first_failure_rejects_later_failure_keeps_pages
        (mangaId : string) (options : Options) (w : World) :
  let out := getMangaDexChapters fetch mangaId options w in
  let first := fst (fetch (chaptersUrl mangaId 0) w) in
  (exists rest,
      exchanges (snd out) = (chaptersUrl mangaId 0, first) :: rest)
  /\ chaptersUrl mangaId 0
     = ("/api/reader/" ++ mangaId ++ "/chapters?limit=500&offset=0")%string
  /\ (forall response,
         first = Responded response -> ok response = false ->
         exists e,
           fst out = Rejected e
           /\ message e = ("Failed to fetch MangaDex chapters: "
                             ++ ToString (status response))%string
           /\ includes (message e) (ToString (status response)) = true)
  /\ (forall earlier url response later,
         exchanges (snd out) = earlier ++ (url, Responded response) :: later ->
         earlier <> [] -> ok response = false ->
         let accumulated := flat_map chaptersOf (map snd earlier) in
         later = []
         /\ fst out = Resolved (applyFilters options accumulated)
         /\ (options = noOptions -> fst out = Resolved accumulated)).
Proof.
  cbn zeta. split; [| split; [| split]].
  - rewrite getMangaDexChapters_run.
    destruct (paginate_first mangaId 0 [] (start _ w)) as (rest & E).
    exists rest. exact E.
  - reflexivity.
  - intros response Hfirst Hok.
    pose proof (paginate_stops mangaId 0 [] (start _ w)) as S.
    cbn zeta in S. simpl world in S. rewrite Hfirst in S.
    destruct S as [S _]; [simpl; now rewrite Hok |].
    rewrite getMangaDexChapters_result, S. unfold settle. rewrite Hok.
    cbn [negb Z.eqb].
    eexists. split; [reflexivity |]. split; [reflexivity |].
    cbn [message]. apply includes_append.
  - intros earlier url response later Hsplit Hearlier Hok.
    destruct (getMangaDexChapters_spec mangaId options w)
      as (full & last & Ex & _ & Ef & _ & Es & _).
    rewrite Ex in Hsplit. apply split_at_last in Hsplit.
    + destruct Hsplit as (-> & -> & [= _ ->]). cbn zeta.
      split; [reflexivity |].
      assert (R : fst (getMangaDexChapters fetch mangaId options w)
                  = Resolved (applyFilters options
                                (flat_map chaptersOf (map snd earlier)))).
      { rewrite getMangaDexChapters_result, Es. simpl. rewrite Hok. simpl.
        destruct earlier as [| x earlier]; [congruence |].
        replace (batchSize * Z.of_nat (List.length (x :: earlier)) =? 0)
          with false; [reflexivity |].
        symmetry. apply Z.eqb_neq. unfold batchSize. simpl List.length. lia. }
      split; [exact R |]. intros ->. exact R.
    + intros Hin. rewrite Forall_forall in Ef. apply Ef in Hin.
      simpl in Hin. rewrite Hok in Hin. discriminate.
Qed.

(** C2. Across one call no offset is requested twice: the requests are
    those for the offsets 0, 500, 1000, ..., each the previous one plus
    500, and every request but the last was answered by a page of at
    least 500 items. In particular, a first page of exactly 500 items
    followed by a page of 200 items gives 700 chapters after two
    requests. *)
Theorem offsets_advance_by_batch_size
        (mangaId : string) (options : Options) (w : World) :
  let out := getMangaDexChapters fetch mangaId options w in
  let offsets :=
    map (fun i => 500 * Z.of_nat i)
        (seq 0 (List.length (exchanges (snd out)))) in
  requested (snd out) = map (chaptersUrl mangaId) offsets
  /\ NoDup offsets
  /\ NoDup (requested (snd out))
  /\ Forall (fun reply => isFullPage reply = true)
            (removelast (map snd (exchanges (snd out))))
  /\ (forall first second page1 page2,
         fst (fetch (chaptersUrl mangaId 0) w) = Responded first ->
         ok first = true -> body first = Resolved page1 ->
         List.length (MangaDexChapterResponse.chapters page1) = 500%nat ->
         fst (fetch (chaptersUrl mangaId 500)
                    (snd (fetch (chaptersUrl mangaId 0) w)))
         = Responded second ->
         ok second = true -> body second = Resolved page2 ->
         List.length (MangaDexChapterResponse.chapters page2) = 200%nat ->
         let combined :=
           map toSourceChapter
               (MangaDexChapterResponse.chapters page1
                  ++ MangaDexChapterResponse.chapters page2) in
         requested (snd out)
         = [chaptersUrl mangaId 0; chaptersUrl mangaId 500]
         /\ List.length combined = 700%nat
         /\ fst out = Resolved (applyFilters options combined)
         /\ (options = noOptions -> fst out = Resolved combined)).
Proof.
  cbn zeta.
  destruct (getMangaDexChapters_spec mangaId options w)
    as (full & last & Ex & Eu & Ef & _).
  assert (Eo : map (fun i => 500 * Z.of_nat i)
                   (seq 0 (List.length (exchanges
                      (snd (getMangaDexChapters fetch mangaId options w)))))
               = offsetsFrom 0 (S (List.length full))).
  { rewrite Ex, length_app, Nat.add_comm. simpl Nat.add.
    symmetry. apply offsetsFrom_multiples. }
  rewrite Eo. split; [| split; [| split; [| split]]].
  - unfold requested. rewrite Ex, map_app, Eu, offsetsFrom_snoc, map_app.
    reflexivity.
  - apply offsetsFrom_NoDup.
  - unfold requested. rewrite Ex, map_app, Eu.
    change (map fst [(chaptersUrl mangaId (batchSize * Z.of_nat (List.length full)), last)])
      with (map (chaptersUrl mangaId) [0 + batchSize * Z.of_nat (List.length full)]).
    rewrite <- map_app, <- offsetsFrom_snoc.
    apply Finite.Injective_map_NoDup; [| apply offsetsFrom_NoDup].
    intros a b. apply chaptersUrl_inj.
  - rewrite Ex, map_app. simpl map. rewrite removelast_snoc.
    rewrite Forall_map. exact Ef.
  - clear Ex Eu Ef Eo full last.
    intros first second page1 page2 H1 Hok1 Hbody1 Hlen1 H2 Hok2 Hbody2 Hlen2.
    pose proof (paginate_continues mangaId 0 [] (start _ w)) as C.
    cbn zeta in C. simpl world in C. rewrite H1 in C.
    change (0 + batchSize) with 500 in C.
    assert (Full1 : isFullPage (Responded first) = true).
    { simpl. rewrite Hok1, Hbody1, Hlen1. reflexivity. }
    specialize (C Full1 ltac:(unfold safetyLimit; lia)).
    match type of C with
    | _ = paginate fetch mangaId ?o ?a ?r =>
        pose proof (paginate_stops mangaId o a r) as S
    end.
    cbn zeta in S. simpl world in S. rewrite H2 in S.
    assert (Short2 : isFullPage (Responded second) = false).
    { simpl. rewrite Hok2, Hbody2, Hlen2. reflexivity. }
    destruct (S Short2) as [Sres Sx]. clear S.
    rewrite <- C in Sres, Sx.
    cbn zeta. split; [| split; [| split]].
    + unfold requested. rewrite getMangaDexChapters_run, Sx. reflexivity.
    + rewrite length_map, length_app. lia.
    + rewrite getMangaDexChapters_result, Sres.
      simpl. rewrite Hok1, Hok2, Hbody1, Hbody2. simpl.
      rewrite map_app. reflexivity.
    + intros ->. rewrite getMangaDexChapters_result, Sres.
      simpl. rewrite Hok1, Hok2, Hbody1, Hbody2. simpl.
      rewrite map_app. reflexivity.
Qed.

(** C3. The loop terminates whatever the upstream answers
    ([getMangaDexChapters] is a total function): it stops at the first
    reply that is not a full page (fewer than 500 items, or a failure),
    or when the offset passes 10,000, which is logged and not raised.
    No request has an offset above 10,000, and a call makes at most 21
    requests. *)
Theorem pagination_stops_within_ceiling
        (mangaId : string) (options : Options) (w : World) :
  let out := getMangaDexChapters fetch mangaId options w in
  exists (n : nat) (before : list (string * Fetched MangaDexChapterResponse))
         (last : Fetched MangaDexChapterResponse),
    (1 <= n <= 21)%nat
    /\ List.length (exchanges (snd out)) = n
    /\ requested (snd out) = map (chaptersUrl mangaId) (offsetsFrom 0 n)
    /\ Forall (fun o => 0 <= o <= 10000) (offsetsFrom 0 n)
    /\ exchanges (snd out)
       = before ++ [(chaptersUrl mangaId (500 * (Z.of_nat n - 1)), last)]
    /\ Forall (fun x => isFullPage (snd x) = true) before
    /\ ((isFullPage last = false /\ console (snd out) = [])
        \/ (isFullPage last = true /\ n = 21%nat
            /\ (exists chapters, fst out = Resolved chapters)
            /\ console (snd out)
               = ["[MangaDex] Safety limit reached at offset 10500"])).
Proof.
  cbn zeta.
  destruct (getMangaDexChapters_spec mangaId options w)
    as (full & last & Ex & Eu & Ef & El & Es & Ec & Eo).
  exists (S (List.length full)), full, last.
  unfold batchSize, safetyLimit in *.
  repeat split.
  - lia.
  - lia.
  - rewrite Ex, length_app. simpl. lia.
  - unfold requested. rewrite Ex, map_app, Eu, offsetsFrom_snoc, map_app.
    reflexivity.
  - apply Forall_forall. intros o Ho. apply offsetsFrom_bounds in Ho.
    unfold batchSize in Ho. lia.
  - replace (500 * (Z.of_nat (S (List.length full)) - 1))
      with (500 * Z.of_nat (List.length full)) by lia.
    exact Ex.
  - exact Ef.
  - destruct (isFullPage last) eqn:Hfull.
    + right. specialize (Eo eq_refl).
      assert (En : List.length full = 20%nat) by lia.
      repeat split; [lia | |].
      * rewrite getMangaDexChapters_result, Es.
        unfold isFullPage in Hfull. unfold settle.
        destruct last as [e | response]; [discriminate |].
        destruct (ok response); [| discriminate]. simpl.
        destruct (body response); [| discriminate]. eauto.
      * rewrite Ec. unfold ceilingWarning. rewrite Hfull, En. reflexivity.
    + left. split; [reflexivity |].
      rewrite Ec. unfold ceilingWarning. now rewrite Hfull.
Qed.

(** Whenever the loop resolves, it resolves with the chapters of all
    the pages it fetched. *)
Lemma paginate_resolves_with_fetched mangaId options w allChapters :
  fst (paginate fetch mangaId 0 [] (start _ w)) = Resolved allChapters ->
  allChapters
  = flat_map chaptersOf
      (map snd (exchanges (snd (getMangaDexChapters fetch mangaId options w)))).
Proof.
  destruct (getMangaDexChapters_spec mangaId options w)
    as (full & last & Ex & _ & _ & _ & Es & _).
  rewrite Ex, Es, map_app, flat_map_app. simpl. rewrite app_nil_r.
  unfold settle, chaptersOf.
  destruct last as [e | response]; [discriminate |].
  destruct (ok response); simpl.
  - destruct (body response); [| discriminate]. now intros [= <-].
  - destruct (_ =? 0); [discriminate |].
    intros [= <-]. now rewrite app_nil_r.
Qed.

(** C4 (amended). The language filter and the limit are applied, in
    that order, to the list accumulated from all fetched pages. A
    non-empty language keeps exactly the records whose language equals
    it, in their original order; a positive limit then keeps the first
    [limit] of these; a limit of 0 is taken as no limit. *)
Theorem filters_apply_to_fetched_list
        (mangaId language : string) (limit : option Z) (w : World)
        (result : list SourceChapter) :
  let out :=
    getMangaDexChapters fetch mangaId (mkOptions limit (Some language)) w in
  let fetched := flat_map chaptersOf (map snd (exchanges (snd out))) in
  let matching :=
    filter (fun ch => String.eqb (SourceChapter.language ch) language)
           fetched in
  language <> EmptyString ->
  fst out = Resolved result ->
  (forall ch, In ch matching
              <-> In ch fetched /\ SourceChapter.language ch = language)
  /\ (limit = None -> result = matching)
  /\ (forall n, limit = Some n -> 0 < n ->
                result = firstn (Z.to_nat n) matching)
  /\ (limit = Some 0 -> result = matching).
Proof.
  cbn zeta. intros Hlang Hres.
  rewrite getMangaDexChapters_result in Hres.
  destruct (fst (paginate fetch mangaId 0 [] (start _ w)))
    as [allChapters | e] eqn:Hall; [| discriminate].
  apply (paginate_resolves_with_fetched mangaId
           (mkOptions limit (Some language))) in Hall.
  rewrite <- Hall. clear Hall. injection Hres as <-.
  unfold applyFilters. cbn [opt_language opt_limit truthyString].
  apply String.eqb_neq in Hlang. rewrite Hlang. cbn [negb].
  set (matching := filter _ allChapters).
  split; [| split; [| split]].
  - intros ch. unfold matching. rewrite filter_In, String.eqb_eq. tauto.
  - now intros ->.
  - intros n -> Hn. unfold truthyInt.
    replace (n =? 0) with false by (symmetry; apply Z.eqb_neq; lia).
    cbn [negb andb].
    destruct (Z.of_nat (List.length matching) >? n) eqn:Hlen.
    + unfold slice. cbn [Z.ltb Z.compare].
      replace (n <? 0) with false by (symmetry; apply Z.ltb_ge; lia).
      rewrite Z.min_l by lia. rewrite Z.min_l by lia.
      rewrite Z.sub_0_r. reflexivity.
    + symmetry. apply firstn_all2. lia.
  - intros ->. reflexivity.
Qed.

End Pagination.

Section ChapterPages.

Context {World : Type}.
Variable fetch : string -> World -> Fetched MangaDexImagesResponse * World.

Lemma includes_colon (s : string) :
  includes s ":" = match remainder s with Some _ => true | None => false end.
Proof.
  unfold remainder.
  induction s as [| c s IH]; [reflexivity |].
  cbn [includes String.prefix span].
  destruct (Ascii.eqb_spec c ":") as [-> | Hc].
  - simpl. now destruct s.
  - destruct (ascii_dec ":" c) as [E | _]; [congruence |].
    rewrite IH. cbn [orb negb]. now destruct (span _ s).
Qed.

Lemma split_colon (s : string) :
  split s ":"
  = firstPart s :: match remainder s with
                   | Some rest => split rest ":"
                   | None => []
                   end.
Proof.
  unfold firstPart, remainder.
  induction s as [| c s IH]; [reflexivity |].
  cbn [split span].
  destruct (Ascii.eqb c ":") eqn:Hc; cbn [negb].
  - reflexivity.
  - rewrite IH. now destruct (span _ s).
Qed.

(** C5 (amended). [mangadexSource.getChapterPages] cuts its argument at
    every colon and keeps the first two pieces: the manga id is the
    text before the first colon, the chapter id the text between the
    first colon and the second one (all that follows the first colon
    when there is no second). Without a colon, or with nothing before
    the first one, the call rejects with the format error and no
    request is made; otherwise the pages of that manga id and chapter
    id are fetched. *)
Theorem getChapterPages_keeps_two_pieces (s : string) (w : World) :
  let out := getChapterPages fetch s w in
  match remainder s with
  | None => out = (Rejected formatError, start _ w)
  | Some rest =>
      if String.eqb (firstPart s) EmptyString
      then out = (Rejected formatError, start _ w)
      else
        out = getMangaDexChapterPages fetch (firstPart s) (firstPart rest)
                true (start _ w)
        /\ requested (snd out)
           = [pagesUrl (firstPart s) (firstPart rest) true]
        /\ (remainder rest = None -> firstPart rest = rest)
  end.
Proof.
  cbn zeta. unfold getChapterPages.
  rewrite includes_colon, split_colon.
  destruct (remainder s) as [rest |] eqn:Hrest.
  - rewrite (split_colon rest). cbn [element nth_error truthyString].
    destruct (String.eqb (firstPart s) EmptyString); cbn [negb];
      [reflexivity |].
    split; [reflexivity |]. split.
    + unfold getMangaDexChapterPages, requested.
      destruct (fetch _ _) as [[e | response] w']; [reflexivity |].
      destruct (negb (ok response)); [reflexivity |].
      now destruct (body response).
    + unfold remainder, firstPart. clear.
      induction rest as [| c rest IH]; [reflexivity |].
      cbn [span]. destruct (Ascii.eqb c ":"); cbn [negb];
        [discriminate |].
      destruct (span _ rest) as [a b]. cbn [fst snd] in *.
      intros Hb. now rewrite IH.
  - reflexivity.
Qed.

End ChapterPages.

(** C1, at a feed whose second page fails with status 503: the call
    resolves with the 500 chapters of the first page. *)
Lemma later_failure_keeps_first_page :
  fst (getMangaDexChapters Fixtures.replay "m1" noOptions
         [Fixtures.okPage 0 500; Fixtures.notOk 503])
  = Resolved (map toSourceChapter
                (MangaDexChapterResponse.chapters (Fixtures.feedPage 0 500))).
Proof.
  pose proof (first_failure_rejects_later_failure_keeps_pages
                Fixtures.replay "m1" noOptions
                [Fixtures.okPage 0 500; Fixtures.notOk 503]) as T.
  cbv zeta in T. destruct T as (_ & _ & _ & T).
  destruct (T [(chaptersUrl "m1" 0, Fixtures.okPage 0 500)]
              (chaptersUrl "m1" 500)
              (mkResponse false 503
                 (Rejected (mkError "TypeError" "body does not decode")))
              []) as (_ & _ & E).
  - vm_compute. reflexivity.
  - discriminate.
  - reflexivity.
  - rewrite (E eq_refl). vm_compute. reflexivity.
Defined.

(** C2, at a feed of a page of 500 items and a page of 200 items. *)
Lemma two_pages_give_700_chapters :
  requested (snd (getMangaDexChapters Fixtures.replay "m1" noOptions
                    [Fixtures.okPage 0 500; Fixtures.okPage 500 200]))
  = [chaptersUrl "m1" 0; chaptersUrl "m1" 500]
  /\ exists chapters,
       fst (getMangaDexChapters Fixtures.replay "m1" noOptions
              [Fixtures.okPage 0 500; Fixtures.okPage 500 200])
       = Resolved chapters
       /\ List.length chapters = 700%nat.
Proof.
  pose proof (offsets_advance_by_batch_size
                Fixtures.replay "m1" noOptions
                [Fixtures.okPage 0 500; Fixtures.okPage 500 200]) as T.
  cbv zeta in T. destruct T as (_ & _ & _ & _ & T).
  destruct (T (mkResponse true 200 (Resolved (Fixtures.feedPage 0 500)))
              (mkResponse true 200 (Resolved (Fixtures.feedPage 500 200)))
              (Fixtures.feedPage 0 500) (Fixtures.feedPage 500 200))
    as (Hreq & Hlen & Hres & Hnone);
    try reflexivity.
  split; [exact Hreq |].
  eexists. split; [exact (Hnone eq_refl) | exact Hlen].
Defined.

(** C4, at a feed of mixed languages, filtered by en with limit 1: the
    call returns the first of the two English chapters. *)
Lemma english_limit_one :
  [toSourceChapter (Fixtures.apiChapter "en" 1)]
  = firstn (Z.to_nat 1)
      (filter (fun ch => String.eqb (SourceChapter.language ch) "en")
              Fixtures.mixed).
Proof.
  exact (proj1 (proj2 (proj2 (filters_apply_to_fetched_list
                  Fixtures.replay "m1" "en" (Some 1) Fixtures.mixedFeed
                  [toSourceChapter (Fixtures.apiChapter "en" 1)]
                  ltac:(discriminate) ltac:(vm_compute; reflexivity))))
               1 eq_refl ltac:(lia)).
Defined.

(** C4 as stated fails at a limit of 0: the call returns both English
    chapters, not the first 0 of them. *)
Lemma limit_zero_is_no_limit :
  fst (getMangaDexChapters Fixtures.replay "m1"
         (mkOptions (Some 0) (Some "en")) Fixtures.mixedFeed)
  = Resolved [toSourceChapter (Fixtures.apiChapter "en" 1);
              toSourceChapter (Fixtures.apiChapter "en" 3)]
  /\ fst (getMangaDexChapters Fixtures.replay "m1"
            (mkOptions (Some 0) (Some "en")) Fixtures.mixedFeed)
     <> Resolved
          (firstn 0 (filter (fun ch => String.eqb (SourceChapter.language ch) "en")
                            Fixtures.mixed)).
Proof.
  split; [vm_compute; reflexivity | vm_compute; discriminate].
Qed.

(** C5 as stated fails at an argument with two colons: the pages are
    requested for the chapter id [c1], not for the whole remainder
    [c1:x]. *)
Lemma second_colon_cuts_chapter_id :
  requested (snd (getChapterPages Fixtures.replay "m1:c1:x"
                    [Fixtures.imagesReply]))
  = [pagesUrl "m1" "c1" true]
  /\ pagesUrl "m1" "c1" true <> pagesUrl "m1" "c1:x" true.
Proof.
  split; [vm_compute; reflexivity | vm_compute; discriminate].
Qed.

End MangaDexFacts.
(* ===================================================================== *)
(** * Properties of the Batoto scraper                                    *)
(* ===================================================================== *)

Module SortFacts.
Import JS Batoto NumberFacts.

Section Sorting.

Context {A : Type} (key : A -> number).

(** A comparator that subtracts the keys, as the callback of
    [chapters.sort] does. *)
Let compare (a b : A) : number := sub (key a) (key b).

Let below (a b : A) : Prop := le (key a) (key b).

Lemma insert_Permutation (x : A) (l : list A) :
  Permutation (x :: l) (insert compare x l).
Proof.
  induction l as [| y l IH]; cbn [insert]; [reflexivity |].
  destruct (isPositive (compare x y)); [| reflexivity].
  rewrite perm_swap. now apply perm_skip.
Qed.

(** Sorting rearranges the records and changes none of them. *)
Lemma sort_Permutation (l : list A) : Permutation l (sort compare l).
Proof.
  induction l as [| x l IH]; cbn [sort]; [reflexivity |].
  rewrite <- insert_Permutation. now apply perm_skip.
Qed.

Lemma insert_sorted (x : A) (l : list A) :
  ordered (key x) -> Forall (fun a => ordered (key a)) l ->
  StronglySorted below l -> StronglySorted below (insert compare x l).
Proof.
  intros Hx Hl Hs. induction Hs as [| y l Hs IH Hy]; cbn [insert].
  - repeat constructor.
  - inversion Hl as [| ? ? Oy Ol]; subst.
    destruct (isPositive (compare x y)) eqn:E.
    + constructor; [now apply IH |].
      apply (Permutation_Forall (insert_Permutation x l)).
      constructor; [| exact Hy].
      destruct (le_total (key y) (key x) Oy Hx) as [L | L]; [exact L |].
      apply (sub_sign _ _ Hx Oy) in L. unfold compare in E. congruence.
    + assert (L : below x y) by (now apply (sub_sign _ _ Hx Oy)).
      constructor; [now constructor |].
      constructor; [exact L |].
      eapply Forall_impl; [| exact Hy].
      intros z Hz. exact (le_trans _ _ _ L Hz).
Qed.

(** Sorting puts the records in ascending order of their keys. *)
Lemma sort_sorted (l : list A) :
  Forall (fun a => ordered (key a)) l -> StronglySorted below (sort compare l).
Proof.
  induction 1 as [| x l Hx Hl IH]; cbn [sort]; [constructor |].
  apply insert_sorted; auto.
  apply (Permutation_Forall (sort_Permutation l)). exact Hl.
Qed.

End Sorting.
End SortFacts.

Module ParseFacts.
Import JS Types Batoto NumberFacts.

Lemma span_digits_head (s whole rest : string) :
  span isDigit s = (whole, rest) -> whole <> EmptyString -> startsWithDigit whole.
Proof.
  destruct s as [| c s]; cbn [span]; [intros [= <- _]; congruence |].
  destruct (isDigit c) eqn:Hc.
  - destruct (span isDigit s). intros [= <- _] _. exact Hc.
  - intros [= <- _]. congruence.
Qed.

Lemma decimalAt_head (s number rest : string) :
  decimalAt s = Some (number, rest) -> startsWithDigit number.
Proof.
  unfold decimalAt. destruct (span isDigit s) as [whole left] eqn:E.
  assert (H : whole <> EmptyString -> startsWithDigit whole)
    by (apply (span_digits_head s whole left E)).
  destruct whole as [| c whole]; [discriminate |].
  specialize (H ltac:(discriminate)).
  destruct left as [| d left]; [now intros [= <- _] |].
  destruct (Ascii.eqb_spec d "."%char) as [-> | Hd].
  - destruct (span isDigit left) as [[| f fraction] left'].
    + now intros [= <- _].
    + intros [= <- _]. exact H.
  - replace (match d with
             | "."%char => _
             | _ => Some (String c whole, String d left)
             end) with (Some (String c whole, String d left)).
    + now intros [= <- _].
    + destruct d as [[] [] [] [] [] [] [] []]; try reflexivity. congruence.
Qed.

Lemma firstMatch_found {R : Type} (at_ : string -> option R) (s : string) (r : R) :
  firstMatch at_ s = Some r -> exists s', at_ s' = Some r.
Proof.
  induction s as [| c s IH]; cbn [firstMatch].
  - destruct (at_ EmptyString) eqn:E; [intros [= <-]; eauto | discriminate].
  - destruct (at_ (String c s)) eqn:E; [intros [= <-]; eauto | exact IH].
Qed.

Lemma firstOf_found {R : Type} (alternatives : list (string -> option R))
      (s : string) (r : R) :
  firstOf alternatives s = Some r ->
  exists alt, In alt alternatives /\ alt s = Some r.
Proof.
  induction alternatives as [| alt others IH]; cbn [firstOf]; [discriminate |].
  destruct (alt s) eqn:E.
  - intros [= <-]. exists alt. split; [now left | exact E].
  - intros H. destruct (IH H) as (alt' & Hin & Halt).
    exists alt'. split; [now right | exact Halt].
Qed.

Lemma optionally_found {R : Type} (x : ascii) (k : string -> option R)
      (s : string) (r : R) :
  optionally x k s = Some r -> exists s', k s' = Some r.
Proof.
  unfold optionally. destruct s as [| c s]; [eauto |].
  destruct (Ascii.eqb _ _); [| eauto].
  destruct (k s) eqn:E; [intros [= <-] |]; eauto.
Qed.

Lemma numberAfter_head (s number : string) :
  numberAfter s = Some number -> startsWithDigit number.
Proof.
  unfold numberAfter.
  destruct (decimalAt _) as [[n rest] |] eqn:E; [| discriminate].
  intros [= <-]. exact (decimalAt_head _ _ _ E).
Qed.

Lemma keywordNumberAt_head (s number : string) :
  keywordNumberAt s = Some number -> startsWithDigit number.
Proof.
  unfold keywordNumberAt. intros H.
  apply firstOf_found in H. destruct H as (alt & Hin & Halt).
  cbn [In] in Hin.
  destruct Hin as [<- | [<- | [<- | [<- | []]]]];
    destruct (literalCI _ s) as [[matched rest] |]; try discriminate.
  - exact (numberAfter_head _ _ Halt).
  - apply optionally_found in Halt. destruct Halt as [s' Halt].
    exact (numberAfter_head _ _ Halt).
  - exact (numberAfter_head _ _ Halt).
  - apply optionally_found in Halt. destruct Halt as [s' Halt].
    exact (numberAfter_head _ _ Halt).
Qed.

(** Whatever [parseChapterNumber] extracts begins with a digit. *)
Lemma parseChapterNumber_head (text number : string) :
  parseChapterNumber text = Some number -> startsWithDigit number.
Proof.
  unfold parseChapterNumber.
  destruct (firstMatch keywordNumberAt (trim text)) as [n |] eqn:E.
  - intros [= <-]. apply firstMatch_found in E. destruct E as [s' E].
    exact (keywordNumberAt_head _ _ E).
  - destruct (decimalAt (trim text)) as [[n rest] |] eqn:D; [| discriminate].
    intros [= <-]. exact (decimalAt_head _ _ _ D).
Qed.

Lemma digit_cases (c : ascii) :
  isDigit c = true ->
  isWhiteSpace c = false /\ c <> "-"%char /\ c <> "+"%char /\ c <> "I"%char.
Proof.
  destruct c as [[] [] [] [] [] [] [] []]; try discriminate;
    intros _; repeat split; try reflexivity; discriminate.
Qed.

(** A text that begins with a digit parses to a number. *)
Lemma parseFloat_ordered (s : string) :
  startsWithDigit s -> ordered (parseFloat s).
Proof.
  destruct s as [| c s]; [contradiction |]. cbn [startsWithDigit]. intros Hc.
  destruct (digit_cases c Hc) as (Hw & Hminus & Hplus & HI).
  unfold parseFloat, dropWhile. cbn [span]. rewrite Hw. cbn [snd].
  assert (Hs : signOf (String c s) = (false, String c s)).
  { unfold signOf.
    destruct c as [[] [] [] [] [] [] [] []]; try reflexivity; congruence. }
  rewrite Hs. unfold unsignedDecimal.
  assert (Hp : String.prefix "Infinity" (String c s) = false).
  { cbn [String.prefix]. destruct (ascii_dec "I" c); [congruence | reflexivity]. }
  rewrite Hp. cbn [span]. rewrite Hc.
  destruct (span isDigit s) as [whole rest].
  destruct rest as [| d rest].
  - apply round64_ordered.
  - destruct (Ascii.eqb_spec d "."%char) as [-> | Hd].
    + destruct (span isDigit rest) as [fraction rest']. apply round64_ordered.
    + replace (match d with
               | "."%char => _
               | _ => (EmptyString, String d rest)
               end) with (EmptyString, String d rest).
      * apply round64_ordered.
      * destruct d as [[] [] [] [] [] [] [] []]; try reflexivity. congruence.
Qed.

(** The sort key of a record whose chapter came from
    [parseChapterNumber] takes part in comparisons. *)
Lemma chapterValue_ordered (a : SourceChapter) (text : string) :
  SourceChapter.chapter a = parseChapterNumber text -> ordered (chapterValue a).
Proof.
  unfold chapterValue. intros ->.
  destruct (parseChapterNumber text) as [number |] eqn:E.
  - apply parseChapterNumber_head in E.
    destruct (truthyString (Some number)); [| apply zero_ordered].
    cbn [orEmpty orElse]. destruct number; [contradiction |].
    apply parseFloat_ordered. exact E.
  - apply zero_ordered.
Qed.

End ParseFacts.

Module BatotoFacts.
Import JS Types Batoto NumberFacts SortFacts ParseFacts.

Lemma parseInt_cases (s : string) :
  parseInt s = NaN \/ exists n : Z, parseInt s = ofZ n.
Proof.
  unfold parseInt.
  destruct (signOf _) as [negative rest].
  destruct (span isDigit rest) as [[| c digits] left]; eauto.
Qed.

(** [parseInt(...) || undefined] is absent, or an integer other than
    zero (an infinity when the numeral is too long for a Number). *)
Lemma orUndefined_parseInt (s : string) :
  orUndefined (parseInt s) = None
  \/ exists v, orUndefined (parseInt s) = Some v /\ nonZeroInteger v.
Proof.
  unfold orUndefined.
  destruct (parseInt_cases s) as [-> | [n ->]]; [now left |].
  destruct (ofZ_integral n) as [(k & -> & Hk) | [negative ->]].
  - cbn [truthyNumber].
    destruct (Qeq_bool (inject_Z k) 0) eqn:E; cbn [negb]; [now left |].
    right. eexists. split; [reflexivity |]. left. exists k.
    split; [| reflexivity]. intros ->. discriminate.
  - right. eexists. split; [reflexivity |]. right. eauto.
Qed.

Section ParseDate.

Context {host : Host}.

(** A text the host parses natively gets the timestamp of that date. *)
Lemma parseDate_native now text tv :
  dateParse (trim text) = Some tv ->
  parseDate now text = Resolved (Date.isoString tv).
Proof. unfold parseDate. now intros ->. Qed.

(** A text that is neither a date nor a relative date gets the
    timestamp of the current instant. *)
Lemma parseDate_fallback now text :
  dateParse (trim text) = None ->
  firstMatch relativeAt (trim text) = None ->
  parseDate now text = Resolved (Date.isoString now).
Proof. unfold parseDate. now intros -> ->. Qed.

(** [parseDate] returns a timestamp or throws a RangeError. *)
Lemma parseDate_returns_or_throws now text :
  (exists timestamp, parseDate now text = Resolved timestamp)
  \/ parseDate now text = Rejected (mkError "RangeError" "Invalid time value").
Proof.
  unfold parseDate.
  destruct (dateParse (trim text)); [left; eexists; reflexivity |].
  destruct (firstMatch relativeAt (trim text)) as [[digits unitText] |];
    [| left; eexists; reflexivity].
  match goal with
  | |- context [Date.toISOString ?d] => destruct d
  end; [left; eexists; reflexivity | now right].
Qed.

(** A relative date in days, on a text the host does not parse
    natively: the local time moves back by that many days. *)
Lemma parseDate_days_ago now text digits unitText n :
  dateParse (trim text) = None ->
  firstMatch relativeAt (trim text) = Some (digits, unitText) ->
  toLowerCase unitText = "day" ->
  parseInt digits = Finite (inject_Z n) -> 0 <= n < 2 ^ 50 ->
  parseDate now text
  = Date.toISOString
      (Date.TimeClip
         (Date.UTC LocalTZA (Date.LocalTime LocalTZA now - n * Date.msPerDay))).
Proof.
  intros Hnative Hmatch Hunit Hamount Hn.
  unfold parseDate. rewrite Hnative, Hmatch, Hunit, Hamount.
  cbn [String.eqb Ascii.eqb Bool.eqb andb].
  pose proof (DateFacts.DateFromTime_range (Date.LocalTime LocalTZA now)) as R.
  fold (Date.getDate LocalTZA now) in R.
  rewrite ExactFacts.ofZ_exact, ExactFacts.sub_exact by lia.
  replace (Date.getDate LocalTZA now - n)
    with (Date.getDate LocalTZA now + - n) by lia.
  rewrite DateFacts.setDate_shift.
  do 3 f_equal. lia.
Qed.

(** In a zone of constant offset, with the native parser rejecting the
    text, [3 days ago] is exactly three days before the clock reading. *)
Lemma parseDate_three_days_ago now offset :
  (forall t isUTC, LocalTZA t isUTC = offset) ->
  dateParse "3 days ago" = None ->
  Z.abs (now - 3 * Date.msPerDay) <= 8640000000000000 ->
  parseDate now "3 days ago"
  = Resolved (Date.isoString (now - 3 * Date.msPerDay)).
Proof.
  intros Hzone Hnative Hrange.
  rewrite (parseDate_days_ago now "3 days ago" "3" "day" 3);
    try reflexivity; try exact Hnative; [| lia].
  unfold Date.UTC, Date.LocalTime, Date.TimeClip. rewrite !Hzone.
  replace (now + offset - 3 * Date.msPerDay - offset)
    with (now - 3 * Date.msPerDay) by lia.
  replace (Z.abs (now - 3 * Date.msPerDay) >? 8640000000000000) with false
    by (symmetry; rewrite Z.gtb_ltb; apply Z.ltb_ge; lia).
  reflexivity.
Qed.

(** Whatever the clock reads and whatever the zone (offsets stay below a
    day), an amount of 999999999 days leaves the range of Date, and
    [parseDate] throws. *)
Lemma parseDate_huge_amount_throws now :
  (forall t isUTC, Z.abs (LocalTZA t isUTC) <= Date.msPerDay) ->
  dateParse "999999999 days ago" = None ->
  Z.abs now <= 8640000000000000 ->
  parseDate now "999999999 days ago"
  = Rejected (mkError "RangeError" "Invalid time value").
Proof.
  intros Hzone Hnative Hrange.
  rewrite (parseDate_days_ago now "999999999 days ago" "999999999" "day"
                              999999999);
    try reflexivity; try exact Hnative; [| lia].
  unfold Date.UTC, Date.LocalTime, Date.TimeClip.
  set (local := now + LocalTZA now true - 999999999 * Date.msPerDay).
  pose proof (Hzone now true) as H1. pose proof (Hzone local false) as H2.
  replace (Z.abs (local - LocalTZA local false) >? 8640000000000000)
    with true; [reflexivity |].
  symmetry. rewrite Z.gtb_ltb. apply Z.ltb_lt.
  unfold local, Date.msPerDay in *. lia.
Qed.

End ParseDate.

Section Scraper.

Context {cheerio : Cheerio} {host : Host} {World : Type}.
Variable fetch :
  string -> list (string * string) -> World -> Fetched string * World.

(** ** Chapters *)

(** Every record the loop pushes was built from one of the links. *)
Lemma eachLink_spec dom clock index links chapters out :
  eachLink dom clock index links chapters = Resolved out ->
  exists pushed,
    out = chapters ++ pushed
    /\ Forall (fun ch => exists el i,
                   In el links
                   /\ chapterOfLink dom (clock i) el = Resolved (Some ch))
              pushed.
Proof.
  revert index chapters.
  induction links as [| el links IH]; intros index chapters; cbn [eachLink].
  - intros [= <-]. exists []. now rewrite app_nil_r.
  - destruct (chapterOfLink dom (clock index) el) as [[ch |] | e] eqn:E;
      [| | discriminate]; intros H; apply IH in H;
      destruct H as (pushed & -> & Hall).
    + exists (ch :: pushed). rewrite <- app_assoc. split; [reflexivity |].
      constructor.
      * exists el, index. split; [now left | exact E].
      * eapply Forall_impl; [| exact Hall].
        intros ch' (el' & i & Hin & Hch). exists el', i. split; [now right | exact Hch].
    + exists pushed. split; [reflexivity |].
      eapply Forall_impl; [| exact Hall].
      intros ch' (el' & i & Hin & Hch). exists el', i. split; [now right | exact Hch].
Qed.

(** What a link's record holds. *)
Lemma chapterOfLink_spec dom now el ch :
  chapterOfLink dom now el = Resolved (Some ch) ->
  let item := match closest dom el SELECTORS.chapterList.item with
              | Some ancestor => ancestor
              | None => el
              end in
  let numberText :=
    orString (text dom (find dom item SELECTORS.chapterList.number))
             (textContent dom el) in
  let titleText :=
    orElse (Some (trim (text dom (find dom item SELECTORS.chapterList.title))))
           None in
  SourceChapter.chapter ch = parseChapterNumber numberText
  /\ SourceChapter.title ch
     = (if differ titleText (parseChapterNumber numberText)
        then titleText else None).
Proof.
  unfold chapterOfLink.
  destruct (extractBatotoChapterId _); [| discriminate].
  destruct (parseDate _ _); [| discriminate].
  intros [= <-]. split; reflexivity.
Qed.

(** A call that resolves was answered by an OK response whose body
    reads; it returns the records pushed for the links, sorted. *)
Lemma scrapeBatotoChapters_resolved clock seriesId w out :
  fst (scrapeBatotoChapters fetch clock seriesId w) = Resolved out ->
  exists response html pushed,
    fst (fetch (BATOTO_BASE_URL ++ "/series/" ++ seriesId)%string
               (spread defaultHeaders []) w) = Responded response
    /\ ok response = true
    /\ body response = Resolved html
    /\ eachLink (load html) clock 0
                (select (load html) SELECTORS.chapterList.link) []
       = Resolved pushed
    /\ out = sort compareChapters pushed.
Proof.
  unfold scrapeBatotoChapters, fetchWithTimeout. cbn [world start].
  destruct (fetch _ _ w) as [[e | response] w']; cbn [fst]; [discriminate |].
  destruct (ok response) eqn:Hok; cbn [negb]; [| discriminate].
  destruct (body response) as [html | e] eqn:Hbody; [| discriminate].
  destruct (select (load html) SELECTORS.chapterList.link) as [| el links] eqn:L.
  - cbn. intros [= <-]. exists response, html, []. rewrite L.
    repeat split; auto.
  - cbn [List.length Nat.eqb].
    destruct (eachLink _ _ _ _ _) as [pushed | e] eqn:E; [| discriminate].
    cbn [fst]. intros [= <-]. exists response, html, pushed.
    rewrite L. repeat split; auto.
Qed.

(** With an OK response and no element matching the link selector, the
    call resolves with the empty list. *)
Lemma no_links_resolves_empty clock seriesId w response html :
  fst (fetch (BATOTO_BASE_URL ++ "/series/" ++ seriesId)%string
             (spread defaultHeaders []) w) = Responded response ->
  ok response = true -> body response = Resolved html ->
  select (load html) SELECTORS.chapterList.link = [] ->
  fst (scrapeBatotoChapters fetch clock seriesId w) = Resolved [].
Proof.
  unfold scrapeBatotoChapters, fetchWithTimeout. cbn [world start].
  destruct (fetch _ _ w) as [reply w']. cbn [fst].
  intros -> -> -> ->. reflexivity.
Qed.

(** A link's callback throws only what [parseDate] throws. *)
Lemma chapterOfLink_throws dom now el e :
  chapterOfLink dom now el = Rejected e ->
  e = mkError "RangeError" "Invalid time value".
Proof.
  unfold chapterOfLink.
  destruct (extractBatotoChapterId _); [| discriminate].
  match goal with
  | |- context [parseDate now ?t] =>
      destruct (parseDate_returns_or_throws now t) as [[timestamp ->] | ->]
  end; [discriminate | now intros [= <-]].
Qed.

(** The loop throws only what the callback throws on one of the links. *)
Lemma eachLink_throws dom clock index links chapters e :
  eachLink dom clock index links chapters = Rejected e ->
  exists el i, In el links /\ chapterOfLink dom (clock i) el = Rejected e.
Proof.
  revert index chapters.
  induction links as [| el links IH]; intros index chapters; cbn [eachLink];
    [discriminate |].
  destruct (chapterOfLink dom (clock index) el) as [[ch |] | e'] eqn:E.
  - intros H. apply IH in H. destruct H as (el' & i & Hin & H).
    exists el', i. split; [now right | exact H].
  - intros H. apply IH in H. destruct H as (el' & i & Hin & H).
    exists el', i. split; [now right | exact H].
  - intros [= <-]. exists el, index. split; [now left | exact E].
Qed.

(** Where a rejection of [scrapeBatotoChapters] comes from: the request
    failed, the response is not OK, its body does not read, or the
    callback threw a RangeError on one of the links of an OK response. *)
Lemma chapters_reject_cases clock seriesId w e :
  fst (scrapeBatotoChapters fetch clock seriesId w) = Rejected e ->
  let reply := fst (fetch (BATOTO_BASE_URL ++ "/series/" ++ seriesId)%string
                          (spread defaultHeaders []) w) in
  reply = NetworkFailure e
  \/ (exists response, reply = Responded response /\ ok response = false)
  \/ (exists response, reply = Responded response /\ body response = Rejected e)
  \/ (exists response html el i,
         reply = Responded response /\ ok response = true
         /\ body response = Resolved html
         /\ In el (select (load html) SELECTORS.chapterList.link)
         /\ chapterOfLink (load html) (clock i) el = Rejected e
         /\ e = mkError "RangeError" "Invalid time value").
Proof.
  unfold scrapeBatotoChapters, fetchWithTimeout. cbn [world start].
  destruct (fetch _ _ w) as [[e' | response] w']; cbn [fst].
  - intros [= <-]. now left.
  - destruct (ok response) eqn:Hok; cbn [negb].
    + destruct (body response) as [html | e'] eqn:Hbody.
      * destruct (List.length _ =? 0)%nat; [discriminate |].
        destruct (eachLink _ _ _ _ _) as [pushed | e'] eqn:E; [discriminate |].
        cbn [fst]. intros [= <-].
        destruct (eachLink_throws _ _ _ _ _ _ E) as (el & i & Hin & H).
        right. right. right. exists response, html, el, i.
        repeat split; auto. exact (chapterOfLink_throws _ _ _ _ H).
      * cbn [fst]. intros [= <-]. right. right. left. eauto.
    + intros _. right. left. eauto.
Qed.

(** C7. The list [scrapeBatotoChapters] returns is in ascending order
    of the number parsed from each record's chapter field, a null field
    counting as 0; it holds the records pushed for the links, none of
    them changed; and four records whose chapters are 2, null, 1 and 10
    come out with the null one first, then 1, 2 and 10. *)
Theorem chapters_sorted_by_number clock seriesId w out :
  fst (scrapeBatotoChapters fetch clock seriesId w) = Resolved out ->
  StronglySorted (fun a b => le (chapterValue a) (chapterValue b)) out
  /\ (forall a, SourceChapter.chapter a = None -> chapterValue a = Finite 0)
  /\ (exists html pushed,
         eachLink (load html) clock 0
                  (select (load html) SELECTORS.chapterList.link) []
         = Resolved pushed
         /\ out = sort compareChapters pushed
         /\ Permutation pushed out)
  /\ (forall a b c d,
         SourceChapter.chapter a = Some "2" ->
         SourceChapter.chapter b = None ->
         SourceChapter.chapter c = Some "1" ->
         SourceChapter.chapter d = Some "10" ->
         sort compareChapters [a; b; c; d] = [b; c; a; d]).
Proof.
  intros H. apply scrapeBatotoChapters_resolved in H.
  destruct H as (response & html & pushed & _ & _ & _ & Hpushed & ->).
  split; [| split; [| split]].
  - apply (sort_sorted chapterValue).
    apply eachLink_spec in Hpushed.
    destruct Hpushed as (pushed' & -> & Hall). cbn [app].
    eapply Forall_impl; [| exact Hall].
    intros ch (el & i & _ & Hch). apply chapterOfLink_spec in Hch.
    cbn zeta in Hch. destruct Hch as [Hch _].
    exact (chapterValue_ordered _ _ Hch).
  - intros a Ha. unfold chapterValue. now rewrite Ha.
  - exists html, pushed. split; [exact Hpushed |]. split; [reflexivity |].
    apply (sort_Permutation chapterValue).
  - intros a b c d Ha Hb Hc Hd.
    assert (Va : chapterValue a = Finite 2)
      by (unfold chapterValue; rewrite Ha; reflexivity).
    assert (Vb : chapterValue b = Finite 0)
      by (unfold chapterValue; rewrite Hb; reflexivity).
    assert (Vc : chapterValue c = Finite 1)
      by (unfold chapterValue; rewrite Hc; reflexivity).
    assert (Vd : chapterValue d = Finite 10)
      by (unfold chapterValue; rewrite Hd; reflexivity).
    repeat (cbn [sort insert]; unfold compareChapters;
            rewrite ?Va, ?Vb, ?Vc, ?Vd;
            match goal with
            | |- context [isPositive (sub (Finite ?x) (Finite ?y))] =>
                let v := eval vm_compute in
                           (isPositive (sub (Finite x) (Finite y))) in
                change (isPositive (sub (Finite x) (Finite y))) with v
            end; cbv iota).
    reflexivity.
Qed.

(** ** Pages *)

Lemma strategy1_spec dom imgs pages :
  exists pushed,
    strategy1 dom imgs pages = pages ++ pushed
    /\ Forall (measuredFrom dom imgs) pushed.
Proof.
  revert pages. induction imgs as [| img imgs IH]; intros pages;
    cbn [strategy1].
  - exists []. now rewrite app_nil_r.
  - assert (Keep : forall pages',
               exists pushed,
                 strategy1 dom imgs pages' = pages' ++ pushed
                 /\ Forall (measuredFrom dom (img :: imgs)) pushed).
    { intros pages'. destruct (IH pages') as (pushed & E & Hall).
      exists pushed. split; [exact E |].
      eapply Forall_impl; [| exact Hall].
      intros p (img' & Hin & Hw & Hh). exists img'. split; [now right | auto]. }
    destruct (orElse _ _) as [src |]; [| apply Keep].
    destruct (_ && _); [| apply Keep].
    destruct (Keep (pages ++
      [ {| SourcePage.index := Z.of_nat (List.length pages);
           SourcePage.imageUrl := absolute src;
           SourcePage.width := dimension dom img "width";
           SourcePage.height := dimension dom img "height" |} ]))
      as (pushed & E & Hall).
    eexists (_ :: pushed). rewrite E, <- app_assoc. split; [reflexivity |].
    constructor; [| exact Hall].
    exists img. cbn. auto.
Qed.

Lemma strategy2_spec dom els pages :
  exists pushed,
    strategy2 dom els pages = pages ++ pushed /\ Forall bare pushed.
Proof.
  revert pages. induction els as [| el els IH]; intros pages;
    cbn [strategy2].
  - exists []. now rewrite app_nil_r.
  - destruct (orElse _ _) as [src |]; [| apply IH].
    destruct (truthyString _); [| apply IH].
    destruct (IH (pages ++
      [ {| SourcePage.index := Z.of_nat (List.length pages);
           SourcePage.imageUrl := absolute src;
           SourcePage.width := None;
           SourcePage.height := None |} ])) as (pushed & E & Hall).
    eexists (_ :: pushed). rewrite E, <- app_assoc. split; [reflexivity |].
    constructor; [split; reflexivity | exact Hall].
Qed.

Lemma pushUrls_spec urls pages :
  exists pushed,
    pushUrls urls pages = pages ++ pushed /\ Forall bare pushed.
Proof.
  revert pages. induction urls as [| url urls IH]; intros pages;
    cbn [pushUrls].
  - exists []. now rewrite app_nil_r.
  - destruct (IH (pages ++
      [ {| SourcePage.index := Z.of_nat (List.length pages);
           SourcePage.imageUrl := url;
           SourcePage.width := None;
           SourcePage.height := None |} ])) as (pushed & E & Hall).
    eexists (_ :: pushed). rewrite E, <- app_assoc. split; [reflexivity |].
    constructor; [split; reflexivity | exact Hall].
Qed.

Lemma strategy3_spec dom pages :
  exists pushed,
    strategy3 dom pages = pages ++ pushed /\ Forall bare pushed.
Proof.
  unfold strategy3. destruct (matchAll _ _ _).
  - exists []. now rewrite app_nil_r.
  - apply pushUrls_spec.
Qed.

(** With an OK response whose body reads, the call resolves, whatever
    the document holds, with the pages extracted from it. *)
Lemma pages_resolve_on_any_document chapterId w response html :
  fst (fetch (BATOTO_BASE_URL ++ "/chapter/" ++ chapterId)%string
             (spread defaultHeaders []) w) = Responded response ->
  ok response = true -> body response = Resolved html ->
  fst (scrapeBatotoChapterPages fetch chapterId w)
  = Resolved (SourceChapterPages.mk chapterId (extracted (load html))
                                    (Some BATOTO_BASE_URL)).
Proof.
  unfold scrapeBatotoChapterPages, fetchWithTimeout. cbn [world start].
  destruct (fetch _ _ w) as [reply w']. cbn [fst].
  intros -> -> ->. reflexivity.
Qed.

(** The call rejects only when the request fails, the response is not
    OK, or its body cannot be read. *)
Lemma pages_reject_only_on_transport chapterId w e :
  fst (scrapeBatotoChapterPages fetch chapterId w) = Rejected e ->
  match fst (fetch (BATOTO_BASE_URL ++ "/chapter/" ++ chapterId)%string
                   (spread defaultHeaders []) w) with
  | NetworkFailure e' => e' = e
  | Responded response =>
      ok response = false \/ body response = Rejected e
  end.
Proof.
  unfold scrapeBatotoChapterPages, fetchWithTimeout. cbn [world start].
  destruct (fetch _ _ w) as [[e' | response] w']; cbn [fst].
  - now intros [= <-].
  - destruct (ok response); cbn [negb]; [| now left].
    destruct (body response); [discriminate |].
    intros [= <-]. now right.
Qed.

Lemma scrapeBatotoChapterPages_resolved chapterId w result :
  fst (scrapeBatotoChapterPages fetch chapterId w) = Resolved result ->
  exists html,
    result = SourceChapterPages.mk chapterId (extracted (load html))
                                   (Some BATOTO_BASE_URL).
Proof.
  unfold scrapeBatotoChapterPages, fetchWithTimeout. cbn [world start].
  destruct (fetch _ _ w) as [[e' | response] w']; cbn [fst];
    [discriminate |].
  destruct (ok response); cbn [negb]; [| discriminate].
  destruct (body response) as [html |]; [| discriminate].
  intros [= <-]. exists html. reflexivity.
Qed.

(** The pages of a document come from strategy 1, with the dimensions
    read from the image attributes, or else carry no dimensions. *)
Lemma extracted_spec dom :
  (extracted dom = strategy1 dom (select dom SELECTORS.chapterPage.images) []
   /\ Forall (measuredFrom dom (select dom SELECTORS.chapterPage.images))
             (extracted dom))
  \/ (strategy1 dom (select dom SELECTORS.chapterPage.images) [] = []
      /\ Forall bare (extracted dom)).
Proof.
  unfold extracted.
  destruct (strategy1_spec dom (select dom SELECTORS.chapterPage.images) [])
    as (pushed & E & Hall).
  cbn [app] in E. rewrite E.
  destruct pushed as [| p pushed]; cbn [List.length Nat.eqb].
  - right. split; [reflexivity |].
    destruct (strategy2_spec dom (select dom SELECTORS.chapterPage.imageData) [])
      as (pushed2 & E2 & Hall2).
    cbn [app] in E2. rewrite E2.
    destruct pushed2 as [| p2 pushed2]; cbn [List.length Nat.eqb];
      [| exact Hall2].
    destruct (strategy3_spec dom []) as (pushed3 & E3 & Hall3).
    cbn [app] in E3. rewrite E3. exact Hall3.
  - left. split; [reflexivity | exact Hall].
Qed.


End Scraper.

(** C7, at the series page of the fixtures: the links come in the order
    2, none, 1, 10 and the records come out as none, 1, 2, 10. *)
Lemma series_page_sorted :
  map SourceChapter.id
      [ SourceChapter.mk "202" None None None "en" 0
          "2023-11-14T22:13:20.000Z" (Some "https://mto.to/chapter/202");
        SourceChapter.mk "203" (Some "1") None None "en" 0
          "2023-11-14T22:13:20.000Z" (Some "https://mto.to/chapter/203");
        SourceChapter.mk "201" (Some "2") None None "en" 0
          "2023-11-14T22:13:20.000Z" (Some "https://mto.to/chapter/201");
        SourceChapter.mk "204" (Some "10") None None "en" 0
          "2023-11-14T22:13:20.000Z" (Some "https://mto.to/chapter/204") ]
  = ["202"; "203"; "201"; "204"]
  /\ StronglySorted (fun a b => le (chapterValue a) (chapterValue b))
       [ SourceChapter.mk "202" None None None "en" 0
           "2023-11-14T22:13:20.000Z" (Some "https://mto.to/chapter/202");
         SourceChapter.mk "203" (Some "1") None None "en" 0
           "2023-11-14T22:13:20.000Z" (Some "https://mto.to/chapter/203");
         SourceChapter.mk "201" (Some "2") None None "en" 0
           "2023-11-14T22:13:20.000Z" (Some "https://mto.to/chapter/201");
         SourceChapter.mk "204" (Some "10") None None "en" 0
           "2023-11-14T22:13:20.000Z" (Some "https://mto.to/chapter/204") ].
Proof.
  split; [reflexivity |].
  refine (proj1 (chapters_sorted_by_number
                   (cheerio := Fixtures.engine) (host := Fixtures.utc)
                   Fixtures.serve Fixtures.clock "77"
                   [Fixtures.okHtml Fixtures.seriesHtml] _ _)).
  vm_compute. reflexivity.
Defined.

(** C9. A record keeps a title that repeats the number text of its
    link. The series page of the fixtures has one link, which is its own
    item, with the number text Chapter 5 and the same text as title; the
    call resolves with one record whose chapter is the parsed number 5
    and whose title is still Chapter 5: the title is compared with the
    parsed number, so it is not nulled. *)
Theorem duplicate_title_is_kept :
  let dom := Fixtures.parse Fixtures.titledHtml in
  exists el,
    select (Cheerio := Fixtures.engine) dom SELECTORS.chapterList.link = [el]
    /\ closest (Cheerio := Fixtures.engine) dom el SELECTORS.chapterList.item
       = Some el
    /\ text (cheerio := Fixtures.engine) dom
            (find (Cheerio := Fixtures.engine) dom el
                  SELECTORS.chapterList.number)
       = "Chapter 5"%string
    /\ text (cheerio := Fixtures.engine) dom
            (find (Cheerio := Fixtures.engine) dom el
                  SELECTORS.chapterList.title)
       = "Chapter 5"%string
    /\ fst (scrapeBatotoChapters
              (cheerio := Fixtures.engine) (host := Fixtures.utc)
              Fixtures.serve Fixtures.clock "77"
              [Fixtures.okHtml Fixtures.titledHtml])
       = Resolved
           [SourceChapter.mk "301" (Some "5") None (Some "Chapter 5") "en" 0
              "2023-11-14T22:13:20.000Z" (Some "https://mto.to/chapter/301")].
Proof.
  exists (Fixtures.chapterLink "/chapter/301"
            [Fixtures.numberElement "Chapter 5";
             Fixtures.titleElement "Chapter 5"]).
  repeat split; vm_compute; reflexivity.
Qed.



(** C8 fails at a relative date whose amount leaves the range of Date:
    the native parser rejects the text, the pattern matches, [setDate]
    makes the date invalid, and [toISOString] throws instead of
    returning a timestamp. *)
Theorem parseDate_throws_on_huge_amount :
  dateParse (Host := Fixtures.utc) "999999999 days ago" = None
  /\ firstMatch relativeAt "999999999 days ago" = Some ("999999999", "day")
  /\ Date.setDate (LocalTZA (Host := Fixtures.utc)) 1700000000000
       (sub (ofZ (Date.getDate (LocalTZA (Host := Fixtures.utc)) 1700000000000))
            (parseInt "999999999"))
     = None
  /\ parseDate (host := Fixtures.utc) 1700000000000 "999999999 days ago"
     = Rejected (mkError "RangeError" "Invalid time value").
Proof.
  repeat split; vm_compute; reflexivity.
Qed.

(** C6 fails at a series page, served with status 200, one of whose
    chapter links carries such a date: the exception of [parseDate]
    leaves the callback of [each] and the call rejects, although the
    response is OK and its body was read. *)
Theorem scrapeBatotoChapters_rejects_on_ok_response :
  Fixtures.serve "https://mto.to/series/77" (spread defaultHeaders [])
                 [Fixtures.okHtml Fixtures.datedHtml]
  = (Responded (mkResponse true 200 (Resolved Fixtures.datedHtml)), [])
  /\ fst (scrapeBatotoChapters
            (cheerio := Fixtures.engine) (host := Fixtures.utc)
            Fixtures.serve Fixtures.clock "77"
            [Fixtures.okHtml Fixtures.datedHtml])
     = Rejected (mkError "RangeError" "Invalid time value").
Proof.
  split; vm_compute; reflexivity.
Qed.

End BatotoFacts.
(* ===================================================================== *)
(** * Properties of texts and patterns                                   *)
(* ===================================================================== *)

Module TextFacts.
Import JS.

(** The characters of a text. *)
Abbreviation chars := list_ascii_of_string.

Lemma span_spec (p : ascii -> bool) (s taken rest : string) :
  span p s = (taken, rest) ->
  s = (taken ++ rest)%string
  /\ Forall (fun c => p c = true) (chars taken)
  /\ match rest with
     | String c _ => p c = false
     | EmptyString => True
     end.
Proof.
  revert taken rest. induction s as [| c s IH]; intros taken rest; cbn [span].
  - intros [= <- <-]. repeat split. constructor.
  - destruct (p c) eqn:Hc.
    + destruct (span p s) as [taken' rest'] eqn:E. intros [= <- <-].
      destruct (IH _ _ eq_refl) as (-> & Hall & Hrest).
      repeat split; [constructor; assumption | exact Hrest].
    + intros [= <- <-]. repeat split; [constructor | exact Hc].
Qed.

Lemma span_app (p : ascii -> bool) (a b : string) :
  Forall (fun c => p c = true) (chars a) ->
  match b with String c _ => p c = false | EmptyString => True end ->
  span p (a ++ b) = (a, b).
Proof.
  intros Ha Hb. induction a as [| c a IH]; cbn [append span].
  - destruct b as [| c b]; [reflexivity |]. cbn [span]. now rewrite Hb.
  - inversion Ha as [| ? ? Hc Ha']; subst. rewrite Hc, (IH Ha'). reflexivity.
Qed.

Lemma literal_spec (p s rest : string) :
  literal p s = Some rest -> s = (p ++ rest)%string.
Proof.
  revert s. induction p as [| a p IH]; intros s; cbn [literal].
  - now intros [= ->].
  - destruct s as [| c s]; [discriminate |].
    destruct (Ascii.eqb a c) eqn:E; [| discriminate].
    apply Ascii.eqb_eq in E. subst c. intros H. now rewrite (IH _ H).
Qed.

Lemma literal_app (p rest : string) : literal p (p ++ rest) = Some rest.
Proof.
  induction p as [| a p IH]; cbn [append literal]; [reflexivity |].
  now rewrite Ascii.eqb_refl.
Qed.

(** What [firstMatch] finds is found at a suffix. *)
Lemma firstMatch_spec {R : Type} (at_ : string -> option R) (s : string) (r : R) :
  firstMatch at_ s = Some r ->
  exists before after, s = (before ++ after)%string /\ at_ after = Some r.
Proof.
  induction s as [| c s IH]; cbn [firstMatch].
  - destruct (at_ EmptyString) eqn:E; [| discriminate].
    intros [= <-]. exists EmptyString, EmptyString. now split.
  - destruct (at_ (String c s)) eqn:E.
    + intros [= <-]. exists EmptyString, (String c s). now split.
    + intros H. destruct (IH H) as (before & after & -> & Hat).
      exists (String c before), after. now split.
Qed.

(** A pattern that starts with a character the text does not hold
    matches nowhere in it. *)
Lemma firstMatch_none {R : Type} (at_ : string -> option R) (s : string) :
  (forall after, (exists before, s = (before ++ after)%string) -> at_ after = None) ->
  firstMatch at_ s = None.
Proof.
  induction s as [| c s IH]; intros H; cbn [firstMatch].
  - now rewrite (H EmptyString (ex_intro _ EmptyString eq_refl)).
  - rewrite (H (String c s) (ex_intro _ EmptyString eq_refl)).
    apply IH. intros after [before ->]. apply H. now exists (String c before).
Qed.

Lemma append_nil_r (s : string) : (s ++ "")%string = s.
Proof. induction s as [| c s IH]; cbn; [reflexivity | now rewrite IH]. Qed.

Lemma chars_app (a b : string) : chars (a ++ b) = chars a ++ chars b.
Proof. induction a as [| c a IH]; cbn; [reflexivity | now rewrite IH]. Qed.


Lemma prefix_spec (p s : string) :
  String.prefix p s = true -> exists rest, s = (p ++ rest)%string.
Proof.
  revert s. induction p as [| a p IH]; intros s.
  - intros _. now exists s.
  - destruct s as [| c s]; [discriminate |]. simpl.
    destruct (ascii_dec a c) as [E | E]; [subst c | discriminate].
    intros H. destruct (IH _ H) as [rest ->]. now exists rest.
Qed.

Lemma prefix_app (p rest : string) : String.prefix p (p ++ rest) = true.
Proof.
  induction p as [| a p IH]; simpl; [destruct rest; reflexivity |].
  destruct (ascii_dec a a); [exact IH | congruence].
Qed.

Lemma includes_spec (s sub : string) :
  includes s sub = true ->
  exists before after, s = (before ++ sub ++ after)%string.
Proof.
  induction s as [| c s IH]; cbn [includes].
  - rewrite orb_false_r. intros H. destruct (prefix_spec _ _ H) as [rest E].
    exists EmptyString, rest. exact E.
  - intros H. apply orb_true_iff in H. destruct H as [H | H].
    + destruct (prefix_spec _ _ H) as [rest E]. exists EmptyString, rest. exact E.
    + destruct (IH H) as (before & after & ->). now exists (String c before), after.
Qed.

Lemma includes_app (before sub after : string) :
  includes (before ++ sub ++ after) sub = true.
Proof.
  induction before as [| c before IH]; cbn [append].
  - destruct (sub ++ after)%string eqn:E; cbn [includes];
      rewrite <- E, prefix_app; reflexivity.
  - cbn [includes]. rewrite IH. apply orb_true_r.
Qed.

(** A text holds the characters of the texts it includes. *)
Lemma includes_chars (s sub : string) (c : ascii) :
  includes s sub = true -> In c (chars sub) -> In c (chars s).
Proof.
  intros H Hc. destruct (includes_spec _ _ H) as (before & after & ->).
  rewrite !chars_app. apply in_or_app. right. apply in_or_app. now left.
Qed.

Lemma chars_inj (a b : string) : chars a = chars b -> a = b.
Proof.
  intros H. rewrite <- (string_of_list_ascii_of_string a),
                    <- (string_of_list_ascii_of_string b).
  now rewrite H.
Qed.

Lemma rev_string_chars (acc s : string) :
  chars (rev_string acc s) = rev (chars s) ++ chars acc.
Proof.
  revert acc. induction s as [| c s IH]; intros acc; cbn [rev_string];
    [reflexivity |].
  rewrite IH. cbn. now rewrite <- app_assoc.
Qed.

Lemma dropWhile_head (p : ascii -> bool) (s : string) :
  match s with String c _ => p c = false | EmptyString => True end ->
  dropWhile p s = s.
Proof.
  unfold dropWhile. destruct s as [| c s]; [reflexivity |].
  cbn [span]. now intros ->.
Qed.

(** A text without white space is its own trimmed form. *)
Lemma trim_fixed (s : string) :
  Forall (fun c => isWhiteSpace c = false) (chars s) -> trim s = s.
Proof.
  intros H. unfold trim.
  rewrite (dropWhile_head isWhiteSpace s)
    by (destruct s; [exact I | now inversion H]).
  assert (Hr : Forall (fun c => isWhiteSpace c = false)
                      (chars (rev_string EmptyString s))).
  { rewrite rev_string_chars, app_nil_r. now apply Forall_rev. }
  rewrite (dropWhile_head isWhiteSpace (rev_string EmptyString s))
    by (destruct (rev_string EmptyString s); [exact I | now inversion Hr]).
  apply chars_inj. rewrite !rev_string_chars. cbn [chars].
  now rewrite !app_nil_r, rev_involutive.
Qed.

End TextFacts.

(* ===================================================================== *)
(** * Properties of the ids and numbers read from texts                  *)
(* ===================================================================== *)

Module ValidationFacts.
Import JS Types Batoto TextFacts.

(** What the pattern of an id captures at a position. *)
Lemma idAt_spec (keyword s id : string) :
  match literal keyword s with
  | Some rest =>
      match fst (span isIdChar rest) with
      | EmptyString => None
      | id => Some id
      end
  | None => None
  end = Some id ->
  id <> EmptyString
  /\ Forall (fun c => isIdChar c = true) (chars id)
  /\ exists after, s = (keyword ++ id ++ after)%string.
Proof.
  destruct (literal keyword s) as [rest |] eqn:L; [| discriminate].
  apply literal_spec in L. subst s.
  destruct (span isIdChar rest) as [taken after] eqn:S. cbn [fst].
  destruct (span_spec _ _ _ _ S) as (-> & Hall & _).
  destruct taken as [| c taken]; [discriminate |]. intros [= <-].
  split; [discriminate |]. split; [exact Hall |]. now exists after.
Qed.

Lemma idAt_app (keyword id after : string) :
  id <> EmptyString ->
  Forall (fun c => isIdChar c = true) (chars id) ->
  match after with String c _ => isIdChar c = false | EmptyString => True end ->
  match literal keyword (keyword ++ id ++ after) with
  | Some rest =>
      match fst (span isIdChar rest) with
      | EmptyString => None
      | id => Some id
      end
  | None => None
  end = Some id.
Proof.
  intros Hne Hall Hafter. rewrite literal_app, (span_app _ _ _ Hall Hafter).
  cbn [fst]. destruct id; [congruence | reflexivity].
Qed.

Lemma extractBatotoChapterId_spec (url id : string) :
  extractBatotoChapterId url = Some id ->
  id <> EmptyString
  /\ Forall (fun c => isIdChar c = true) (chars id)
  /\ exists before after,
       url = (before ++ "/chapter/" ++ id ++ after)%string.
Proof.
  intros H. destruct (firstMatch_spec _ _ _ H) as (before & s & -> & Hat).
  destruct (idAt_spec "/chapter/" s id Hat) as (Hne & Hall & after & ->).
  split; [exact Hne |]. split; [exact Hall |]. now exists before, after.
Qed.

Lemma extractBatotoSeriesId_spec (url id : string) :
  extractBatotoSeriesId url = Some id ->
  id <> EmptyString
  /\ Forall (fun c => isIdChar c = true) (chars id)
  /\ exists before after,
       url = (before ++ "/series/" ++ id ++ after)%string.
Proof.
  intros H. destruct (firstMatch_spec _ _ _ H) as (before & s & -> & Hat).
  destruct (idAt_spec "/series/" s id Hat) as (Hne & Hall & after & ->).
  split; [exact Hne |]. split; [exact Hall |]. now exists before, after.
Qed.

Lemma firstMatch_miss {R : Type} (at_ : string -> option R) (c : ascii) (s : string) :
  at_ (String c s) = None -> firstMatch at_ (String c s) = firstMatch at_ s.
Proof. intros H. cbn [firstMatch]. now rewrite H. Qed.

Lemma firstMatch_hit {R : Type} (at_ : string -> option R) (s : string) (r : R) :
  at_ s = Some r -> firstMatch at_ s = Some r.
Proof. intros H. destruct s; cbn [firstMatch]; now rewrite H. Qed.

(** The id is read back from the URL of a chapter. *)
Lemma extractBatotoChapterId_of_url (id after : string) :
  id <> EmptyString ->
  Forall (fun c => isIdChar c = true) (chars id) ->
  match after with String c _ => isIdChar c = false | EmptyString => True end ->
  extractBatotoChapterId (BATOTO_BASE_URL ++ "/chapter/" ++ id ++ after) = Some id.
Proof.
  intros Hne Hall Hafter.
  pose proof (idAt_app "/chapter/" id after Hne Hall Hafter) as H.
  unfold extractBatotoChapterId, BATOTO_BASE_URL.
  cbn [append].
  repeat (rewrite (firstMatch_miss chapterIdAt) by reflexivity).
  apply firstMatch_hit. exact H.
Qed.
Lemma extractBatotoSeriesId_of_url (id after : string) :
  id <> EmptyString ->
  Forall (fun c => isIdChar c = true) (chars id) ->
  match after with String c _ => isIdChar c = false | EmptyString => True end ->
  extractBatotoSeriesId (BATOTO_BASE_URL ++ "/series/" ++ id ++ after) = Some id.
Proof.
  intros Hne Hall Hafter.
  pose proof (idAt_app "/series/" id after Hne Hall Hafter) as H.
  unfold extractBatotoSeriesId, BATOTO_BASE_URL.
  cbn [append].
  repeat (rewrite (firstMatch_miss seriesIdAt) by reflexivity).
  apply firstMatch_hit. exact H.
Qed.

Lemma isSlugChar_cases (c : ascii) :
  isSlugChar c = true ->
  isIdChar c = true /\ isWhiteSpace c = false
  /\ c <> "."%char /\ c <> "/"%char.
Proof.
  destruct c as [[] [] [] [] [] [] [] []]; vm_compute;
    intros H; try discriminate H; repeat split; discriminate.
Qed.

Lemma isSlug_spec (s : string) :
  isSlug s = true ->
  s <> EmptyString /\ Forall (fun c => isSlugChar c = true) (chars s).
Proof.
  unfold isSlug. destruct (span isSlugChar s) as [run rest] eqn:S.
  destruct (span_spec _ _ _ _ S) as (-> & Hall & _).
  intros H. apply andb_true_iff in H. destruct H as [Hrun Hrest].
  apply String.eqb_eq in Hrest. subst rest.
  rewrite append_nil_r.
  split; [| exact Hall].
  intros ->. discriminate Hrun.
Qed.

Lemma slug_trim (s : string) : isSlug s = true -> trim s = s.
Proof.
  intros H. apply trim_fixed. destruct (isSlug_spec _ H) as [_ Hall].
  eapply Forall_impl; [| exact Hall]. intros c Hc. now apply isSlugChar_cases.
Qed.

(** A text without a slash holds neither a series nor a chapter path. *)
Lemma extractBatotoSeriesId_needs_slash (s : string) :
  ~ In "/"%char (chars s) -> extractBatotoSeriesId s = None.
Proof.
  intros H. apply firstMatch_none. intros after [before ->].
  unfold seriesIdAt. destruct (literal "/series/" after) as [rest |] eqn:L;
    [| reflexivity].
  apply literal_spec in L. subst after. exfalso. apply H.
  rewrite chars_app. apply in_or_app. right. now left.
Qed.

Lemma validated_id_not_empty (input id : string) :
  validateBatotoSeriesInput input = Some id -> id <> EmptyString.
Proof.
  unfold validateBatotoSeriesInput.
  destruct (_ || _).
  - intros H. now destruct (extractBatotoSeriesId_spec _ _ H).
  - destruct (isSlug (trim input)) eqn:S; [| discriminate].
    intros [= <-]. now destruct (isSlug_spec _ S).
Qed.

(** X1. Whatever [validateBatotoSeriesInput] accepts is a usable path
    segment: the id it returns is not empty, holds no slash, question
    mark or hash, and occurs in the trimmed input. *)
Theorem validated_series_id_is_path_segment (input id : string) :
  validateBatotoSeriesInput input = Some id ->
  id <> EmptyString
  /\ Forall (fun c => c <> "/"%char /\ c <> "?"%char /\ c <> "#"%char)
            (chars id)
  /\ includes (trim input) id = true.
Proof.
  unfold validateBatotoSeriesInput.
  assert (Hclean : forall c, isIdChar c = true ->
                             c <> "/"%char /\ c <> "?"%char /\ c <> "#"%char).
  { intros c Hc. repeat split; intros ->; discriminate Hc. }
  destruct (includes (trim input) "mto.to" || includes (trim input) "batoto").
  - intros H. destruct (extractBatotoSeriesId_spec _ _ H)
      as (Hne & Hall & before & after & E).
    split; [exact Hne |]. split.
    + eapply Forall_impl; [| exact Hall]. exact Hclean.
    + rewrite E, <- (StringFacts.append_assoc before "/series/" (id ++ after)).
      apply includes_app.
  - destruct (isSlug (trim input)) eqn:S; [| discriminate].
    intros [= <-]. destruct (isSlug_spec _ S) as [Hne Hall].
    split; [exact Hne |]. split.
    + eapply Forall_impl; [| exact Hall].
      intros c Hc. apply Hclean. now apply isSlugChar_cases.
    + pose proof (includes_app EmptyString (trim input) EmptyString) as H.
      cbn [append] in H. now rewrite append_nil_r in H.
Qed.

(** X2. A plain id made of letters, digits, underscores and dashes is
    accepted as it is, unless it holds the word batoto: then it is taken
    for a URL, no series path is found in it, and it is refused. *)
Theorem plain_id_accepted_unless_it_holds_batoto (id : string) :
  isSlug id = true ->
  validateBatotoSeriesInput id
  = if includes id "batoto" then None else Some id.
Proof.
  intros S. unfold validateBatotoSeriesInput. rewrite (slug_trim _ S).
  destruct (isSlug_spec _ S) as [_ Hall].
  assert (Hdot : includes id "mto.to" = false).
  { destruct (includes id "mto.to") eqn:I; [| reflexivity]. exfalso.
    assert (Hin : In "."%char (chars id))
      by (apply (includes_chars _ _ _ I); cbn; tauto).
    rewrite Forall_forall in Hall.
    now destruct (isSlugChar_cases _ (Hall _ Hin)) as (_ & _ & Hd & _). }
  rewrite Hdot. cbn [orb].
  destruct (includes id "batoto"); [| now rewrite S].
  apply extractBatotoSeriesId_needs_slash. intros Hin.
  rewrite Forall_forall in Hall.
  now destruct (isSlugChar_cases _ (Hall _ Hin)) as (_ & _ & _ & Hs).
Qed.

(** X3. The address of a series page on the site gives back the id of
    the series, whatever path, query or fragment follows it. *)
Theorem series_url_gives_back_its_id (id after : string) :
  isSlug id = true ->
  match after with String c _ => isIdChar c = false | EmptyString => True end ->
  Forall (fun c => isWhiteSpace c = false) (chars after) ->
  validateBatotoSeriesInput (BATOTO_BASE_URL ++ "/series/" ++ id ++ after)
  = Some id.
Proof.
  intros S Hafter Hws. destruct (isSlug_spec _ S) as [Hne Hall].
  unfold validateBatotoSeriesInput.
  rewrite trim_fixed.
  - replace (includes (BATOTO_BASE_URL ++ "/series/" ++ id ++ after) "mto.to")
      with true
      by (symmetry; exact (includes_app "https://" "mto.to"
                                        ("/series/" ++ id ++ after))).
    cbn [orb]. apply extractBatotoSeriesId_of_url; [exact Hne | | exact Hafter].
    eapply Forall_impl; [| exact Hall]. intros c Hc. now apply isSlugChar_cases.
  - unfold BATOTO_BASE_URL. rewrite !chars_app.
    apply Forall_app; split; [cbn; repeat constructor |].
    apply Forall_app; split; [cbn; repeat constructor |].
    apply Forall_app; split; [| exact Hws].
    eapply Forall_impl; [| exact Hall]. intros c Hc. now apply isSlugChar_cases.
Qed.

(** X2, at two plain ids: the first is accepted, the second holds the
    word batoto and is refused. *)
Lemma plain_and_batoto_ids :
  validateBatotoSeriesInput "one-piece_2" = Some "one-piece_2"
  /\ validateBatotoSeriesInput "my-batoto-list" = None.
Proof.
  split.
  - exact (plain_id_accepted_unless_it_holds_batoto "one-piece_2" eq_refl).
  - exact (plain_id_accepted_unless_it_holds_batoto "my-batoto-list" eq_refl).
Defined.

(** X3, at the address of a series page followed by a query. *)
Lemma series_url_with_query :
  validateBatotoSeriesInput "https://mto.to/series/12345?page=2" = Some "12345".
Proof.
  apply (series_url_gives_back_its_id "12345" "?page=2");
    [reflexivity | reflexivity | cbn; repeat constructor].
Defined.

(** X1, at an address with white space around it and a path after
    the id. *)
Lemma padded_url_is_validated :
  validateBatotoSeriesInput "  https://mto.to/series/12345/extra " = Some "12345"
  /\ "12345" <> EmptyString.
Proof.
  split; [reflexivity |].
  exact (proj1 (validated_series_id_is_path_segment
                  "  https://mto.to/series/12345/extra " "12345" eq_refl)).
Defined.

End ValidationFacts.

Module NumberFormFacts.
Import JS Types Batoto TextFacts ParseFacts.

(** [n] occurs in [s]. *)
Lemma occurs_later (n s : string) (before : string) :
  (exists a b, s = (a ++ n ++ b)%string) ->
  exists a b, (before ++ s)%string = (a ++ n ++ b)%string.
Proof.
  intros (a & b & ->). exists (before ++ a)%string, b.
  now rewrite StringFacts.append_assoc.
Qed.

Lemma literalCI_spec (p s matched rest : string) :
  literalCI p s = Some (matched, rest) -> s = (matched ++ rest)%string.
Proof.
  revert s matched rest. induction p as [| a p IH]; intros s matched rest;
    cbn [literalCI].
  - now intros [= <- <-].
  - destruct s as [| c s]; [discriminate |].
    destruct (Ascii.eqb (toUpper a) (toUpper c)); [| discriminate].
    destruct (literalCI p s) as [[m r] |] eqn:E; [| discriminate].
    intros [= <- <-]. now rewrite (IH _ _ _ E).
Qed.

Lemma dropWhile_spec (p : ascii -> bool) (s : string) :
  exists taken, s = (taken ++ dropWhile p s)%string.
Proof.
  unfold dropWhile. destruct (span p s) as [taken rest] eqn:E.
  exists taken. now destruct (span_spec _ _ _ _ E) as (-> & _).
Qed.

(** What the pattern of a number captures: digits, or digits, a dot and
    digits; the pattern matches all of it again. *)
Lemma decimalAt_spec (s number rest : string) :
  decimalAt s = Some (number, rest) ->
  s = (number ++ rest)%string
  /\ Forall (fun c => isDigit c = true \/ c = "."%char) (chars number)
  /\ decimalAt number = Some (number, EmptyString).
Proof.
  unfold decimalAt at 1.
  destruct (span isDigit s) as [whole after] eqn:S.
  destruct (span_spec _ _ _ _ S) as (-> & Hwhole & Hafter).
  assert (Hd : Forall (fun c => isDigit c = true \/ c = "."%char) (chars whole))
    by (eapply Forall_impl; [| exact Hwhole]; intros c Hc; now left).
  assert (Hself : whole <> EmptyString ->
                  decimalAt whole = Some (whole, EmptyString)).
  { intros Hne. unfold decimalAt.
    pose proof (span_app isDigit whole EmptyString Hwhole I) as E.
    rewrite append_nil_r in E. rewrite E.
    destruct whole; [congruence | reflexivity]. }
  destruct whole as [| d whole]; [discriminate |].
  destruct after as [| c after].
  - intros [= <- <-]. split; [reflexivity |]. split; [exact Hd |].
    now apply Hself.
  - destruct (Ascii.eqb c ".") eqn:Edot.
    + apply Ascii.eqb_eq in Edot. subst c.
      destruct (span isDigit after) as [fraction after'] eqn:F.
      destruct (span_spec _ _ _ _ F) as (-> & Hfrac & Hafter').
      destruct fraction as [| f fraction].
      * intros [= <- <-]. split; [reflexivity |]. split; [exact Hd |].
        now apply Hself.
      * intros [= <- <-].
        change (String d (whole ++ String "." (String f fraction)))%string
          with (String d whole ++ "." ++ String f fraction)%string.
        split.
        { cbn [append]. f_equal. symmetry.
          exact (StringFacts.append_assoc whole (String "." (String f fraction)) after'). }
        split.
        { rewrite !chars_app. apply Forall_app. split; [exact Hd |].
          apply Forall_app. split; [constructor; [now right | constructor] |].
          eapply Forall_impl; [| exact Hfrac]. intros c Hc. now left. }
        unfold decimalAt.
        rewrite (span_app isDigit (String d whole)
                          ("." ++ String f fraction) Hwhole eq_refl).
        cbn [append].
        pose proof (span_app isDigit (String f fraction) EmptyString Hfrac I)
          as E.
        rewrite append_nil_r in E. rewrite E. reflexivity.
    + assert (H : forall R (x y : R),
                 match c with
                 | "."%char => x
                 | _ => y
                 end = y).
      { intros R x y. destruct c as [[] [] [] [] [] [] [] []];
          try reflexivity. discriminate Edot. }
      match goal with
      | |- ?lhs = _ -> _ => assert (E : lhs = Some (String d whole, String c after))
      end.
      { destruct c as [[] [] [] [] [] [] [] []];
          try reflexivity. discriminate Edot. }
      rewrite E. intros [= <- <-]. split; [reflexivity |].
      split; [exact Hd |]. now apply Hself.
Qed.

Lemma numberAfter_spec (s number : string) :
  numberAfter s = Some number ->
  (exists a b, s = (a ++ number ++ b)%string)
  /\ Forall (fun c => isDigit c = true \/ c = "."%char) (chars number)
  /\ decimalAt number = Some (number, EmptyString).
Proof.
  unfold numberAfter.
  destruct (decimalAt (dropWhile isWhiteSpace s)) as [[n rest] |] eqn:D;
    [| discriminate].
  cbn [option_map fst]. intros [= <-].
  destruct (decimalAt_spec _ _ _ D) as (E & Hall & Hself).
  split; [| now split].
  destruct (dropWhile_spec isWhiteSpace s) as [taken Hs].
  exists taken, rest. now rewrite <- E.
Qed.

Lemma optionally_spec {R : Type} (x : ascii) (k : string -> option R)
      (s : string) (r : R) :
  optionally x k s = Some r ->
  k s = Some r \/ exists c rest, s = String c rest /\ k rest = Some r.
Proof.
  unfold optionally. destruct s as [| c rest]; [now left |].
  destruct (Ascii.eqb (toUpper c) (toUpper x)); [| now left].
  destruct (k rest) eqn:E; [| now left].
  intros [= <-]. right. now exists c, rest.
Qed.

Lemma keywordNumberAt_spec (s number : string) :
  keywordNumberAt s = Some number ->
  (exists a b, s = (a ++ number ++ b)%string)
  /\ Forall (fun c => isDigit c = true \/ c = "."%char) (chars number)
  /\ decimalAt number = Some (number, EmptyString).
Proof.
  intros H. apply firstOf_found in H. destruct H as (alt & Hin & Halt).
  assert (plain : forall keyword,
             match literalCI keyword s with
             | Some (_, rest) => numberAfter rest
             | None => None
             end = Some number ->
             (exists a b, s = (a ++ number ++ b)%string)
             /\ Forall (fun c => isDigit c = true \/ c = "."%char) (chars number)
             /\ decimalAt number = Some (number, EmptyString)).
  { intros keyword. destruct (literalCI keyword s) as [[m rest] |] eqn:L;
      [| discriminate].
    apply literalCI_spec in L. subst s. intros N.
    destruct (numberAfter_spec _ _ N) as (Hocc & Hrest).
    split; [now apply occurs_later | exact Hrest]. }
  assert (dotted : forall keyword,
             match literalCI keyword s with
             | Some (_, rest) => optionally "." numberAfter rest
             | None => None
             end = Some number ->
             (exists a b, s = (a ++ number ++ b)%string)
             /\ Forall (fun c => isDigit c = true \/ c = "."%char) (chars number)
             /\ decimalAt number = Some (number, EmptyString)).
  { intros keyword. destruct (literalCI keyword s) as [[m rest] |] eqn:L;
      [| discriminate].
    apply literalCI_spec in L. subst s. intros O.
    apply optionally_spec in O. destruct O as [N | (c & rest' & -> & N)];
      destruct (numberAfter_spec _ _ N) as (Hocc & Hrest);
      (split; [| exact Hrest]).
    - now apply occurs_later.
    - apply occurs_later.
      exact (occurs_later number rest' (String c EmptyString) Hocc). }
  cbn [In] in Hin.
  destruct Hin as [<- | [<- | [<- | [<- | []]]]];
    [apply (plain "chapter") | apply (dotted "ch")
     | apply (plain "episode") | apply (dotted "ep")]; exact Halt.
Qed.

Lemma numeral_char_cases (c : ascii) :
  isDigit c = true \/ c = "."%char ->
  isWhiteSpace c = false
  /\ Ascii.eqb (toUpper "c") (toUpper c) = false
  /\ Ascii.eqb (toUpper "e") (toUpper c) = false.
Proof.
  intros [H | ->]; [| now vm_compute].
  destruct c as [[] [] [] [] [] [] [] []]; try discriminate H; now vm_compute.
Qed.

(** No keyword starts in a text of digits and dots. *)
Lemma keywordNumberAt_numeral (s : string) :
  Forall (fun c => isDigit c = true \/ c = "."%char) (chars s) ->
  keywordNumberAt s = None.
Proof.
  intros H. destruct s as [| c s]; [reflexivity |].
  inversion H as [| ? ? Hc _]; subst.
  destruct (numeral_char_cases _ Hc) as (_ & Ec & Ee).
  unfold keywordNumberAt. cbn [firstOf literalCI]. now rewrite Ec, Ee.
Qed.

(** X4. The chapter number read from a text is a plain decimal numeral
    taken from the text: digits, or digits, a dot and digits; and
    reading a chapter number from it gives it back. *)
Theorem chapter_number_is_a_numeral_of_the_text (text number : string) :
  parseChapterNumber text = Some number ->
  decimalAt number = Some (number, EmptyString)
  /\ Forall (fun c => isDigit c = true \/ c = "."%char) (chars number)
  /\ includes (trim text) number = true
  /\ parseChapterNumber number = Some number.
Proof.
  intros H.
  assert (core : (exists a b, trim text = (a ++ number ++ b)%string)
                 /\ Forall (fun c => isDigit c = true \/ c = "."%char)
                           (chars number)
                 /\ decimalAt number = Some (number, EmptyString)).
  { unfold parseChapterNumber in H.
    destruct (firstMatch keywordNumberAt (trim text)) as [n |] eqn:K.
    - injection H as ->.
      destruct (firstMatch_spec _ _ _ K) as (before & s & E & Hat).
      destruct (keywordNumberAt_spec _ _ Hat) as (Hocc & Hrest).
      split; [| exact Hrest]. rewrite E. now apply occurs_later.
    - destruct (decimalAt (trim text)) as [[n rest] |] eqn:D; [| discriminate].
      cbn [option_map fst] in H. injection H as ->.
      destruct (decimalAt_spec _ _ _ D) as (E & Hrest).
      split; [| exact Hrest]. now exists EmptyString, rest. }
  destruct core as ((a & b & E) & Hall & Hself).
  split; [exact Hself |]. split; [exact Hall |]. split.
  - rewrite E. apply includes_app.
  - unfold parseChapterNumber. rewrite trim_fixed.
    + rewrite firstMatch_none; [now rewrite Hself |].
      intros after [before Eq]. apply keywordNumberAt_numeral.
      rewrite Eq, chars_app in Hall. now apply Forall_app in Hall.
    + eapply Forall_impl; [| exact Hall].
      intros c Hc. now apply numeral_char_cases.
Qed.

(** X4, at a title that names a volume and a chapter: the number
    read is that of the chapter, and it reads as itself. *)
Lemma chapter_number_of_a_title :
  parseChapterNumber "  Vol.2 Ch. 10.5 - The End " = Some "10.5"
  /\ parseChapterNumber "10.5" = Some "10.5".
Proof.
  split; [reflexivity |].
  exact (proj2 (proj2 (proj2
           (chapter_number_is_a_numeral_of_the_text
              "  Vol.2 Ch. 10.5 - The End " "10.5" eq_refl)))).
Defined.

End NumberFormFacts.

(* ===================================================================== *)
(** * Properties of the records and pages scraped                        *)
(* ===================================================================== *)

Module ScraperFacts.
Import JS Types Batoto TextFacts ValidationFacts SortFacts BatotoFacts.

(** The ids the links of a page give, in document order: one for each
    link whose address holds a chapter id. *)
Abbreviation idsOf dom links :=
  (flat_map (fun el =>
               match extractBatotoChapterId (orEmpty (attr dom el "href")) with
               | Some id => [id]
               | None => []
               end) links).

(** Pages are numbered from 0 in the order they are pushed. *)
Abbreviation numbered pages :=
  (map SourcePage.index pages = map Z.of_nat (seq 0 (List.length pages))).

(** The address begins with http, in either case. *)
Abbreviation web url :=
  (exists scheme rest, literalCI "http" url = Some (scheme, rest)).

Lemma numbered_push (pages : list SourcePage) (p : SourcePage) :
  numbered pages ->
  SourcePage.index p = Z.of_nat (List.length pages) ->
  numbered (pages ++ [p]).
Proof.
  intros H Hp. rewrite map_app, length_app, Nat.add_1_r, seq_S, map_app, H.
  cbn [map Nat.add]. now rewrite Hp.
Qed.

Lemma prefix_web (s : string) : startsWith s "http" = true -> web s.
Proof.
  intros H. apply prefix_spec in H. destruct H as [rest ->].
  now exists "http", rest.
Qed.

Lemma absolute_web (src : string) : web (absolute src).
Proof.
  unfold absolute. destruct (startsWith src "http") eqn:E.
  - now apply prefix_web.
  - now exists "http", ("s://mto.to" ++ src)%string.
Qed.

Section Scraper.

Context {cheerio : Cheerio} {host : Host} {World : Type}.
Variable fetch :
  string -> list (string * string) -> World -> Fetched string * World.

(** ** Chapters *)

Lemma chapterOfLink_fields dom now el ch :
  chapterOfLink dom now el = Resolved (Some ch) ->
  extractBatotoChapterId (orEmpty (attr dom el "href"))
  = Some (SourceChapter.id ch)
  /\ SourceChapter.volume ch = None
  /\ SourceChapter.language ch = "en"
  /\ SourceChapter.pages ch = 0
  /\ SourceChapter.externalUrl ch
     = Some (BATOTO_BASE_URL ++ "/chapter/" ++ SourceChapter.id ch)%string.
Proof.
  unfold chapterOfLink.
  destruct (extractBatotoChapterId _) as [id |]; [| discriminate].
  destruct (parseDate _ _); [| discriminate].
  intros [= <-]. now repeat split.
Qed.

Lemma chapterOfLink_skips dom now el :
  chapterOfLink dom now el = Resolved None ->
  extractBatotoChapterId (orEmpty (attr dom el "href")) = None.
Proof.
  unfold chapterOfLink.
  destruct (extractBatotoChapterId _) as [id |]; [| reflexivity].
  destruct (parseDate _ _); discriminate.
Qed.

Lemma eachLink_ids dom clock index links chapters out :
  eachLink dom clock index links chapters = Resolved out ->
  map SourceChapter.id out = map SourceChapter.id chapters ++ idsOf dom links.
Proof.
  revert index chapters.
  induction links as [| el links IH]; intros index chapters;
    cbn [eachLink flat_map].
  - intros [= <-]. now rewrite app_nil_r.
  - destruct (chapterOfLink dom (clock index) el) as [[ch |] | e] eqn:E;
      [| | discriminate]; intros H; apply IH in H; rewrite H.
    + destruct (chapterOfLink_fields _ _ _ _ E) as [-> _].
      rewrite map_app. cbn [map]. now rewrite <- app_assoc.
    + now rewrite (chapterOfLink_skips _ _ _ E).
Qed.

(** The links that give a record: those whose address holds a chapter
    id, in document order. *)
Abbreviation linksWithId dom links :=
  (filter (fun el =>
             match extractBatotoChapterId (orEmpty (attr dom el "href")) with
             | Some _ => true
             | None => false
             end) links).

(** The records the loop pushes are those of the links with an id, link
    by link and in their order. *)
Lemma eachLink_records dom clock index links chapters out :
  eachLink dom clock index links chapters = Resolved out ->
  exists pushed,
    out = chapters ++ pushed
    /\ Forall2 (fun el ch =>
                  exists i, chapterOfLink dom (clock i) el = Resolved (Some ch))
               (linksWithId dom links) pushed.
Proof.
  revert index chapters.
  induction links as [| el links IH]; intros index chapters;
    cbn [eachLink filter].
  - intros [= <-]. exists []. now rewrite app_nil_r.
  - destruct (chapterOfLink dom (clock index) el) as [[ch |] | e] eqn:E;
      [| | discriminate]; intros H; apply IH in H;
      destruct H as (pushed & -> & Hall).
    + destruct (chapterOfLink_fields _ _ _ _ E) as [-> _].
      exists (ch :: pushed). rewrite <- app_assoc. split; [reflexivity |].
      constructor; [now exists index | exact Hall].
    + rewrite (chapterOfLink_skips _ _ _ E). now exists pushed.
Qed.

(** How the title of every record comes from its own link. The records
    of [scrapeBatotoChapters] are, up to the sorting, those of the links
    with an id in the document of the reply, link by link: each has the
    id of its link and the parsed number of its link's number text as
    chapter, and its title is null when the trimmed title text of its
    link is empty or equal to that parsed number, and the trimmed title
    text otherwise. *)
Lemma titles_follow_their_links clock seriesId w out :
  fst (scrapeBatotoChapters fetch clock seriesId w) = Resolved out ->
  exists response html pushed,
    fst (fetch ("https://mto.to/series/" ++ seriesId)%string
               (spread defaultHeaders []) w) = Responded response
    /\ body response = Resolved html
    /\ Permutation pushed out
    /\ let dom := load html in
       Forall2
         (fun el ch =>
            let item := match closest dom el SELECTORS.chapterList.item with
                        | Some ancestor => ancestor
                        | None => el
                        end in
            let numberText :=
              orString (text dom (find dom item SELECTORS.chapterList.number))
                       (textContent dom el) in
            let titleText :=
              trim (text dom (find dom item SELECTORS.chapterList.title)) in
            extractBatotoChapterId (orEmpty (attr dom el "href"))
            = Some (SourceChapter.id ch)
            /\ SourceChapter.chapter ch = parseChapterNumber numberText
            /\ (SourceChapter.title ch = None
                <-> titleText = EmptyString
                    \/ parseChapterNumber numberText = Some titleText)
            /\ (SourceChapter.title ch = None
                \/ SourceChapter.title ch = Some titleText))
         (linksWithId dom (select dom SELECTORS.chapterList.link)) pushed.
Proof.
  intros H.
  destruct (scrapeBatotoChapters_resolved _ _ _ _ _ H)
    as (response & html & pushed & Hreply & _ & Hbody & Each & ->).
  exists response, html, pushed.
  split; [exact Hreply |]. split; [exact Hbody |]. split.
  { pose proof (sort_Permutation chapterValue pushed) as P. exact P. }
  destruct (eachLink_records _ _ _ _ _ _ Each) as (pushed' & E & Hall).
  cbn [app] in E. subst pushed'. cbv zeta.
  eapply Forall2_impl; [| exact Hall].
  intros el ch [i Hch].
  destruct (chapterOfLink_fields _ _ _ _ Hch) as [Hid _].
  split; [exact Hid |].
  apply chapterOfLink_spec in Hch. cbv zeta in Hch.
  destruct Hch as [Hchapter Htitle]. split; [exact Hchapter |].
  set (titleText := trim _) in *. set (number := parseChapterNumber _) in *.
  rewrite Htitle. unfold orElse, truthyString.
  destruct (String.eqb_spec titleText EmptyString) as [-> | Hne]; cbn [negb].
  - cbn [differ]. destruct number; cbn; tauto.
  - destruct number as [n |]; cbn [differ].
    + destruct (String.eqb_spec titleText n) as [-> | Hn]; cbn [negb].
      * tauto.
      * split; [| now right]. split; [discriminate |].
        intros [E | [= E]]; congruence.
    + split; [| now right]. split; [discriminate |].
      intros [E | E]; congruence.
Qed.

Lemma idsOf_length dom (links : list Element) :
  (List.length (idsOf dom links) <= List.length links)%nat.
Proof.
  induction links as [| el links IH]; cbn [flat_map List.length]; [lia |].
  rewrite length_app.
  destruct (extractBatotoChapterId _); cbn [List.length]; lia.
Qed.

(** X5. Every record of [scrapeBatotoChapters] names its chapter: the
    id is not empty and holds no slash, question mark or hash, the
    address is the chapter page of that id on the site, and
    [extractBatotoChapterId] reads the id back from the address; the
    language is always en, the page count 0 and the volume null. *)
Theorem chapter_records_name_their_chapter clock seriesId w out ch :
  fst (scrapeBatotoChapters fetch clock seriesId w) = Resolved out ->
  In ch out ->
  SourceChapter.id ch <> EmptyString
  /\ Forall (fun c => c <> "/"%char /\ c <> "?"%char /\ c <> "#"%char)
            (chars (SourceChapter.id ch))
  /\ SourceChapter.externalUrl ch
     = Some ("https://mto.to/chapter/" ++ SourceChapter.id ch)%string
  /\ extractBatotoChapterId
       ("https://mto.to/chapter/" ++ SourceChapter.id ch)
     = Some (SourceChapter.id ch)
  /\ SourceChapter.language ch = "en"
  /\ SourceChapter.pages ch = 0
  /\ SourceChapter.volume ch = None.
Proof.
  intros H Hin.
  destruct (scrapeBatotoChapters_resolved _ _ _ _ _ H)
    as (response & html & pushed & _ & _ & _ & Each & ->).
  apply (Permutation_in _ (Permutation_sym (sort_Permutation _ pushed))) in Hin.
  destruct (eachLink_spec _ _ _ _ _ _ Each) as (pushed' & E & Hall).
  cbn [app] in E. subst pushed'. rewrite Forall_forall in Hall.
  destruct (Hall _ Hin) as (el & i & _ & Hch).
  destruct (chapterOfLink_fields _ _ _ _ Hch) as (Hid & Hv & Hl & Hp & Hu).
  destruct (extractBatotoChapterId_spec _ _ Hid) as (Hne & Hchars & _).
  split; [exact Hne |]. split.
  { eapply Forall_impl; [| exact Hchars].
    intros c Hc. repeat split; intros ->; discriminate Hc. }
  split; [exact Hu |]. split; [| now repeat split].
  pose proof (extractBatotoChapterId_of_url (SourceChapter.id ch) EmptyString
                Hne Hchars I) as R.
  now rewrite append_nil_r in R.
Qed.

(** X6. [scrapeBatotoChapters] gives one record for each link whose
    address holds a chapter id, and nothing else: the ids of the result
    are the ids of the links, a chapter linked twice being listed
    twice, and a link without an id being left out. *)
Theorem one_record_per_chapter_link clock seriesId w out :
  fst (scrapeBatotoChapters fetch clock seriesId w) = Resolved out ->
  exists response html,
    fst (fetch ("https://mto.to/series/" ++ seriesId)%string
               (spread defaultHeaders []) w) = Responded response
    /\ body response = Resolved html
    /\ let dom := load html in
       let links := select dom SELECTORS.chapterList.link in
       Permutation (map SourceChapter.id out) (idsOf dom links)
       /\ (List.length out <= List.length links)%nat.
Proof.
  intros H.
  destruct (scrapeBatotoChapters_resolved _ _ _ _ _ H)
    as (response & html & pushed & Hreply & _ & Hbody & Each & ->).
  exists response, html. split; [exact Hreply |]. split; [exact Hbody |].
  pose proof (eachLink_ids _ _ _ _ _ _ Each) as Hids. cbn [map app] in Hids.
  pose proof (sort_Permutation chapterValue pushed) as P.
  change (Permutation pushed (sort compareChapters pushed)) in P.
  cbn zeta. split.
  - rewrite <- Hids. apply Permutation_map, Permutation_sym, P.
  - rewrite <- (Permutation_length P), <- (length_map SourceChapter.id), Hids.
    apply idsOf_length.
Qed.

End Scraper.

(** X5, at the series page of the fixtures: the address of the record
    of chapter 203 gives back its id. *)
Lemma series_page_records_name_their_chapter :
  extractBatotoChapterId "https://mto.to/chapter/203" = Some "203".
Proof.
  refine (proj1 (proj2 (proj2 (proj2
            (chapter_records_name_their_chapter
               (cheerio := Fixtures.engine) (host := Fixtures.utc)
               Fixtures.serve Fixtures.clock "77"
               [Fixtures.okHtml Fixtures.seriesHtml] _
               (SourceChapter.mk "203" (Some "1") None None "en" 0
                  "2023-11-14T22:13:20.000Z"
                  (Some "https://mto.to/chapter/203")) _ _))))).
  - vm_compute. reflexivity.
  - right. left. reflexivity.
Defined.

(** X6, at the series page of the fixtures: the ids of the four
    records are those of the four links. *)
Lemma series_page_has_four_records :
  exists response html,
    Fixtures.serve "https://mto.to/series/77" (spread defaultHeaders [])
                   [Fixtures.okHtml Fixtures.seriesHtml]
    = (Responded response, [])
    /\ body response = Resolved html
    /\ Permutation ["202"; "203"; "201"; "204"]
                   ["201"; "202"; "203"; "204"].
Proof.
  destruct (one_record_per_chapter_link
              (cheerio := Fixtures.engine) (host := Fixtures.utc)
              Fixtures.serve Fixtures.clock "77"
              [Fixtures.okHtml Fixtures.seriesHtml]
              [ SourceChapter.mk "202" None None None "en" 0
                  "2023-11-14T22:13:20.000Z" (Some "https://mto.to/chapter/202");
                SourceChapter.mk "203" (Some "1") None None "en" 0
                  "2023-11-14T22:13:20.000Z" (Some "https://mto.to/chapter/203");
                SourceChapter.mk "201" (Some "2") None None "en" 0
                  "2023-11-14T22:13:20.000Z" (Some "https://mto.to/chapter/201");
                SourceChapter.mk "204" (Some "10") None None "en" 0
                  "2023-11-14T22:13:20.000Z" (Some "https://mto.to/chapter/204") ])
    as (response & html & Hreply & Hbody & P & _).
  - vm_compute. reflexivity.
  - exists response, html. cbn in Hreply. injection Hreply as <-.
    cbn in Hbody. injection Hbody as <-.
    split; [reflexivity |]. split; [reflexivity |]. exact P.
Defined.

End ScraperFacts.

Module PageFacts.
Import JS Types Batoto TextFacts ValidationFacts NumberFormFacts
       BatotoFacts ScraperFacts.

Lemma length_append (a b : string) :
  String.length (a ++ b) = (String.length a + String.length b)%nat.
Proof. induction a as [| c a IH]; cbn; [reflexivity | now rewrite IH]. Qed.

Lemma literalCI_length (p s matched rest : string) :
  literalCI p s = Some (matched, rest) -> String.length matched = String.length p.
Proof.
  revert s matched rest. induction p as [| a p IH]; intros s matched rest;
    cbn [literalCI].
  - now intros [= <- _].
  - destruct s as [| c s]; [discriminate |].
    destruct (Ascii.eqb (toUpper a) (toUpper c)); [| discriminate].
    destruct (literalCI p s) as [[m r] |] eqn:E; [| discriminate].
    intros [= <- _]. cbn. now rewrite (IH _ _ _ E).
Qed.

(** A literal found at the head of a text is found at the head of
    every prefix of the text that is long enough. *)
Lemma literalCI_prefix (p matched rest tail : string) :
  literalCI p (matched ++ rest) = Some (matched, rest) ->
  String.length matched = String.length p ->
  literalCI p (matched ++ tail) = Some (matched, tail).
Proof.
  revert matched. induction p as [| a p IH]; intros matched.
  - destruct matched; [reflexivity | discriminate].
  - destruct matched as [| c matched]; [discriminate |].
    cbn [append literalCI].
    destruct (Ascii.eqb (toUpper a) (toUpper c)); [| discriminate].
    destruct (literalCI p (matched ++ rest)) as [[m r] |] eqn:E; [| discriminate].
    intros [= -> ->] [= L]. now rewrite (IH _ E L).
Qed.

Lemma substring_app (a b : string) :
  substring 0 (String.length a) (a ++ b) = a.
Proof. induction a as [| c a IH]; cbn; [now destruct b | now rewrite IH]. Qed.

Lemma imageExtensionAt_spec (s matched after : string) :
  imageExtensionAt s = Some (matched, after) -> s = (matched ++ after)%string.
Proof.
  unfold imageExtensionAt. destruct s as [| c s]; [discriminate |].
  assert (E : forall (R : Type) (x y : R),
             c <> "."%char ->
             match c with "."%char => x | _ => y end = y).
  { intros R x y Hc. destruct c as [[] [] [] [] [] [] [] []];
      try reflexivity. congruence. }
  destruct (ascii_dec c ".") as [-> | Hc]; [| now rewrite (E _ _ _ Hc)].
  destruct (firstOf _ s) as [[m a] |] eqn:F; [| discriminate].
  intros [= <- <-]. apply ParseFacts.firstOf_found in F.
  destruct F as (alt & Hin & Halt). apply in_map_iff in Hin.
  destruct Hin as (ext & <- & _). apply literalCI_spec in Halt. now subst s.
Qed.

Lemma plusThen_spec (p : ascii -> bool) (k : string -> option (string * string))
      (s matched after : string) :
  (forall s m a, k s = Some (m, a) -> s = (m ++ a)%string) ->
  plusThen p k s = Some (matched, after) -> s = (matched ++ after)%string.
Proof.
  intros Hk. revert matched after.
  induction s as [| c s IH]; intros matched after; cbn [plusThen];
    [discriminate |].
  destruct (p c); [| discriminate].
  destruct (plusThen p k s) as [[m a] |] eqn:E.
  - intros [= <- <-]. now rewrite (IH _ _ eq_refl).
  - destruct (k s) as [[m a] |] eqn:K; [| discriminate].
    intros [= <- <-]. now rewrite (Hk _ _ _ K).
Qed.

(** What the pattern of an image address matches begins with http. *)
Lemma imageUrlAt_web (s url after : string) :
  imageUrlAt s = Some (url, after) -> web url.
Proof.
  unfold imageUrlAt.
  destruct (literalCI "http" s) as [[scheme rest] |] eqn:L; [| discriminate].
  pose proof (literalCI_length _ _ _ _ L) as Hlen.
  pose proof (literalCI_spec _ _ _ _ L) as Hs. subst s.
  intros O. apply optionally_spec in O.
  assert (tail : forall rest',
             (String.length rest' <= String.length rest)%nat ->
             match literal "://" rest' with
             | Some path =>
                 match plusThen isUrlChar imageExtensionAt path with
                 | Some (_, after) =>
                     Some (substring 0 (String.length (scheme ++ rest)
                                        - String.length after) (scheme ++ rest),
                           after)
                 | None => None
                 end
             | None => None
             end = Some (url, after) -> web url).
  { intros rest' Hle.
    destruct (literal "://" rest') as [path |] eqn:P; [| discriminate].
    apply literal_spec in P. subst rest'.
    destruct (plusThen isUrlChar imageExtensionAt path) as [[m a] |] eqn:T;
      [| discriminate].
    apply (plusThen_spec _ _ _ _ _ imageExtensionAt_spec) in T. subst path.
    intros [= <- <-].
    rewrite !length_append in Hle. cbn [String.length] in Hle.
    rewrite length_append.
    remember (String.length scheme + String.length rest - String.length a)%nat
      as n eqn:Hn.
    assert (Hge : (String.length scheme <= n)%nat) by lia.
    clear Hn Hle.
    exists scheme.
    assert (Hsub : forall n s t,
               (String.length s <= n)%nat ->
               substring 0 n (s ++ t)
               = (s ++ substring 0 (n - String.length s) t)%string).
    { clear. intros n s. revert n.
      induction s as [| c s IH]; intros n t H; cbn [append String.length].
      - now rewrite Nat.sub_0_r.
      - destruct n as [| n]; [cbn in H; lia |].
        cbn [substring]. cbn [String.length] in H.
        rewrite IH by lia. reflexivity. }
    rewrite (Hsub _ _ _ Hge). eexists.
    exact (literalCI_prefix _ _ _ _ L Hlen). }
  destruct O as [O | (c & rest' & -> & O)].
  - exact (tail rest (Nat.le_refl _) O).
  - refine (tail rest' _ O). cbn. lia.
Qed.

Lemma matchAll_found (at_ : string -> option (string * string)) (skip : nat)
      (s url : string) :
  In url (matchAll at_ skip s) -> exists s' after, at_ s' = Some (url, after).
Proof.
  revert skip. induction s as [| c s IH]; intros skip; cbn [matchAll];
    [intros [] |].
  destruct skip as [| k]; [| apply IH].
  destruct (at_ (String c s)) as [[m a] |] eqn:E; [| apply IH].
  intros [<- | H]; [now exists (String c s), a | exact (IH _ H)].
Qed.

Lemma unique_from_spec (seen l : list string) :
  NoDup (unique_from seen l)
  /\ forall x, In x (unique_from seen l) <-> In x l /\ ~ In x seen.
Proof.
  revert seen. induction l as [| y l IH]; intros seen; cbn [unique_from].
  - split; [constructor |]. intros x. cbn. tauto.
  - destruct (existsb (String.eqb y) seen) eqn:E.
    + destruct (IH seen) as [Hnd Hin]. split; [exact Hnd |].
      intros x. rewrite Hin. apply existsb_exists in E.
      destruct E as (z & Hz & Ez). apply String.eqb_eq in Ez. subst z.
      cbn [In]. split; [tauto |]. intros [[<- | H] Hn]; tauto.
    + destruct (IH (y :: seen)) as [Hnd Hin]. split.
      * constructor; [| exact Hnd]. rewrite Hin. cbn [In]. tauto.
      * intros x. cbn [In]. rewrite Hin. cbn [In].
        assert (Hy : ~ In y seen).
        { intros Hy. apply Bool.not_true_iff_false in E. apply E.
          apply existsb_exists. exists y. split; [exact Hy |].
          apply String.eqb_refl. }
        destruct (string_dec y x) as [-> | Hne]; [tauto |]. tauto.
Qed.

Section Scraper.

Context {cheerio : Cheerio} {World : Type}.
Variable fetch :
  string -> list (string * string) -> World -> Fetched string * World.

Lemma strategy1_pages dom imgs pages :
  numbered pages ->
  Forall (fun p => web (SourcePage.imageUrl p)) pages ->
  numbered (strategy1 dom imgs pages)
  /\ Forall (fun p => web (SourcePage.imageUrl p)) (strategy1 dom imgs pages).
Proof.
  revert pages. induction imgs as [| img imgs IH]; intros pages Hn Hw;
    cbn [strategy1]; [now split |].
  destruct (orElse _ _) as [s |]; [| now apply IH].
  destruct (_ && _); [| now apply IH].
  apply IH.
  - now apply numbered_push.
  - apply Forall_app. split; [exact Hw |].
    constructor; [apply absolute_web | constructor].
Qed.

Lemma strategy2_pages dom els pages :
  numbered pages ->
  Forall (fun p => web (SourcePage.imageUrl p)) pages ->
  numbered (strategy2 dom els pages)
  /\ Forall (fun p => web (SourcePage.imageUrl p)) (strategy2 dom els pages).
Proof.
  revert pages. induction els as [| el els IH]; intros pages Hn Hw;
    cbn [strategy2]; [now split |].
  destruct (orElse _ _) as [s |] eqn:E; [| now apply IH].
  destruct (truthyString (Some s)); [| now apply IH].
  apply IH.
  - now apply numbered_push.
  - apply Forall_app. split; [exact Hw |].
    constructor; [apply absolute_web | constructor].
Qed.

Lemma pushUrls_pages urls pages :
  numbered pages ->
  numbered (pushUrls urls pages)
  /\ map SourcePage.imageUrl (pushUrls urls pages)
     = map SourcePage.imageUrl pages ++ urls.
Proof.
  revert pages. induction urls as [| url urls IH]; intros pages Hn;
    cbn [pushUrls]; [now rewrite app_nil_r |].
  destruct (IH (pages ++ [SourcePage.mk (Z.of_nat (List.length pages)) url
                                        None None]))
    as [Hn' Hu]; [now apply numbered_push |].
  split; [exact Hn' |]. rewrite Hu, map_app. cbn [map SourcePage.imageUrl].
  now rewrite <- app_assoc.
Qed.

(** The addresses strategy 3 finds in the scripts of a document. *)
Abbreviation scriptUrls dom :=
  (filter notDecoration
          (unique (matchAll imageUrlAt 0 (text dom (select dom "script"))))).

Lemma strategy3_pages dom :
  numbered (strategy3 dom [])
  /\ map SourcePage.imageUrl (strategy3 dom []) = scriptUrls dom.
Proof.
  unfold strategy3.
  destruct (matchAll imageUrlAt 0 (text dom (select dom "script")))
    as [| url urls] eqn:M; [split; reflexivity |].
  cbv zeta.
  destruct (pushUrls_pages (filter notDecoration (unique (url :: urls))) []
              eq_refl) as [Hn Hu].
  now split.
Qed.

Lemma scriptUrls_spec dom :
  NoDup (scriptUrls dom)
  /\ Forall (fun url => notDecoration url = true /\ web url) (scriptUrls dom).
Proof.
  destruct (unique_from_spec [] (matchAll imageUrlAt 0
                                   (text dom (select dom "script"))))
    as [Hnd Hin].
  split; [now apply NoDup_filter |].
  apply Forall_forall. intros url H. apply filter_In in H.
  destruct H as [H Hd]. split; [exact Hd |].
  apply Hin in H. destruct H as [H _].
  destruct (matchAll_found _ _ _ _ H) as (s' & after & Hat).
  exact (imageUrlAt_web _ _ _ Hat).
Qed.

Lemma extracted_pages dom :
  numbered (extracted dom)
  /\ Forall (fun p => web (SourcePage.imageUrl p)) (extracted dom).
Proof.
  unfold extracted.
  destruct (strategy1_pages dom (select dom SELECTORS.chapterPage.images) []
              eq_refl (Forall_nil _)) as [N1 W1].
  destruct (List.length (strategy1 _ _ _) =? 0)%nat eqn:E1;
    [| cbv iota; rewrite E1; now split].
  apply Nat.eqb_eq, length_zero_iff_nil in E1. rewrite E1.
  destruct (strategy2_pages dom (select dom SELECTORS.chapterPage.imageData) []
              eq_refl (Forall_nil _)) as [N2 W2].
  destruct (List.length (strategy2 _ _ _) =? 0)%nat eqn:E2;
    [| cbv iota; now split].
  apply Nat.eqb_eq, length_zero_iff_nil in E2. rewrite E2.
  destruct (strategy3_pages dom) as [N3 U3]. split; [exact N3 |].
  destruct (scriptUrls_spec dom) as [_ Hall]. rewrite <- U3 in Hall.
  rewrite Forall_map in Hall. eapply Forall_impl; [| exact Hall].
  now intros p [_ Hw].
Qed.

(** X7. The pages of [scrapeBatotoChapterPages] are numbered 0, 1, 2,
    ... in the order they are listed, whichever strategy found them,
    and every image address begins with http (in either case): an
    address of the markup that does not has the address of the site
    put before it. *)
Theorem pages_are_numbered_and_absolute chapterId w result :
  fst (scrapeBatotoChapterPages fetch chapterId w) = Resolved result ->
  let pages := SourceChapterPages.pages result in
  map SourcePage.index pages = map Z.of_nat (seq 0 (List.length pages))
  /\ Forall (fun p => exists scheme rest,
                 literalCI "http" (SourcePage.imageUrl p) = Some (scheme, rest))
            pages.
Proof.
  intros H. destruct (scrapeBatotoChapterPages_resolved _ _ _ _ H) as [html ->].
  cbn [SourceChapterPages.pages].
  destruct (extracted_pages (load html)) as [Hn Hw]. now split.
Qed.

Lemma pages_resolved_from chapterId w result :
  fst (scrapeBatotoChapterPages fetch chapterId w) = Resolved result ->
  exists response html,
    fst (fetch ("https://mto.to/chapter/" ++ chapterId)%string
               (spread defaultHeaders []) w) = Responded response
    /\ ok response = true
    /\ body response = Resolved html
    /\ result = SourceChapterPages.mk chapterId (extracted (load html))
                                      (Some BATOTO_BASE_URL).
Proof.
  intros H.
  destruct (fst (fetch ("https://mto.to/chapter/" ++ chapterId)%string
                       (spread defaultHeaders []) w))
    as [e | response] eqn:R.
  - exfalso. revert H. unfold scrapeBatotoChapterPages, fetchWithTimeout.
    cbn [world start]. change (BATOTO_BASE_URL ++ "/chapter/" ++ chapterId)%string
      with ("https://mto.to/chapter/" ++ chapterId)%string.
    destruct (fetch _ _ w) as [reply w']. cbn [fst] in R. subst reply.
    discriminate.
  - destruct (ok response) eqn:Hok.
    + destruct (body response) as [html | e] eqn:Hbody.
      * exists response, html. repeat split; try assumption.
        rewrite (pages_resolve_on_any_document fetch chapterId w response html
                   R Hok Hbody) in H.
        now injection H.
      * exfalso. revert H. unfold scrapeBatotoChapterPages, fetchWithTimeout.
        cbn [world start].
        change (BATOTO_BASE_URL ++ "/chapter/" ++ chapterId)%string
          with ("https://mto.to/chapter/" ++ chapterId)%string.
        destruct (fetch _ _ w) as [reply w']. cbn [fst] in R. subst reply.
        rewrite Hok, Hbody. discriminate.
    + exfalso. revert H. unfold scrapeBatotoChapterPages, fetchWithTimeout.
      cbn [world start].
      change (BATOTO_BASE_URL ++ "/chapter/" ++ chapterId)%string
        with ("https://mto.to/chapter/" ++ chapterId)%string.
      destruct (fetch _ _ w) as [reply w']. cbn [fst] in R. subst reply.
      rewrite Hok. discriminate.
Qed.

(** X8. When neither the images nor the data attributes of the page
    give a page, the pages are the image addresses found in the
    scripts: each address once, in the order of its first occurrence,
    none holding avatar, logo or icon. *)
Theorem script_pages_are_distinct chapterId w result :
  fst (scrapeBatotoChapterPages fetch chapterId w) = Resolved result ->
  exists response html,
    fst (fetch ("https://mto.to/chapter/" ++ chapterId)%string
               (spread defaultHeaders []) w) = Responded response
    /\ body response = Resolved html
    /\ let dom := load html in
       let urls := map SourcePage.imageUrl (SourceChapterPages.pages result) in
       strategy1 dom (select dom SELECTORS.chapterPage.images) [] = [] ->
       strategy2 dom (select dom SELECTORS.chapterPage.imageData) [] = [] ->
       urls = filter notDecoration
                (unique (matchAll imageUrlAt 0
                           (text dom (select dom "script"))))
       /\ NoDup urls
       /\ Forall (fun url => includes url "avatar" = false
                             /\ includes url "logo" = false
                             /\ includes url "icon" = false) urls.
Proof.
  intros H.
  destruct (pages_resolved_from _ _ _ H)
    as (response & html & Hreply & _ & Hbody & ->).
  exists response, html. split; [exact Hreply |]. split; [exact Hbody |].
  cbv zeta. cbn [SourceChapterPages.pages]. intros E1 E2.
  assert (Hu : map SourcePage.imageUrl (extracted (load html))
               = scriptUrls (load html)).
  { unfold extracted. rewrite E1. cbn [List.length Nat.eqb].
    rewrite E2. cbn [List.length Nat.eqb]. apply strategy3_pages. }
  split; [exact Hu |]. rewrite Hu.
  destruct (scriptUrls_spec (load html)) as [Hnd Hall]. split; [exact Hnd |].
  eapply Forall_impl; [| exact Hall]. intros url [Hd _].
  unfold notDecoration in Hd. apply andb_true_iff in Hd. destruct Hd as [Hd Hi].
  apply andb_true_iff in Hd. destruct Hd as [Ha Hl].
  now rewrite negb_true_iff in Ha, Hl, Hi.
Qed.

End Scraper.

(** X7, at the reader page of the fixtures: its two pages are numbered
    0 and 1. *)
Lemma reader_pages_are_numbered :
  map SourcePage.index
      [ SourcePage.mk 0 "https://mto.to/p/1.jpg" (Some (Finite (-5))) None;
        SourcePage.mk 1 "https://cdn.example/p/2.jpg" (Some (Finite 800)) None ]
  = [0; 1].
Proof.
  refine (proj1 (pages_are_numbered_and_absolute
                   (cheerio := Fixtures.engine)
                   Fixtures.serve "401" [Fixtures.okHtml Fixtures.readerHtml]
                   (SourceChapterPages.mk "401"
                      [ SourcePage.mk 0 "https://mto.to/p/1.jpg"
                                      (Some (Finite (-5))) None;
                        SourcePage.mk 1 "https://cdn.example/p/2.jpg"
                                      (Some (Finite 800)) None ]
                      (Some "https://mto.to")) _)).
  vm_compute. reflexivity.
Defined.

(** X8, at a page that names an image twice, a logo and a second
    image in a script: the two images are listed, once each. *)
Lemma script_page_lists_each_image_once :
  NoDup ["https://cdn.example/a/1.jpg"; "HTTPS://CDN.EXAMPLE/A/2.WEBP"].
Proof.
  destruct (script_pages_are_distinct
              (cheerio := Fixtures.scriptEngine)
              Fixtures.serve "9" [Fixtures.okHtml Fixtures.scriptHtml]
              (SourceChapterPages.mk "9"
                 [ SourcePage.mk 0 "https://cdn.example/a/1.jpg" None None;
                   SourcePage.mk 1 "HTTPS://CDN.EXAMPLE/A/2.WEBP" None None ]
                 (Some "https://mto.to")))
    as (response & html & Hreply & Hbody & H).
  - vm_compute. reflexivity.
  - cbn in Hreply. injection Hreply as <-. cbn in Hbody. injection Hbody as <-.
    exact (proj1 (proj2 (H eq_refl eq_refl))).
Defined.

End PageFacts.

Module EffectFacts.
Import JS Types Batoto TextFacts ValidationFacts NumberFormFacts
       SortFacts BatotoFacts ScraperFacts PageFacts.

Section Scraper.

Context {cheerio : Cheerio} {host : Host} {World : Type}.
Variable fetch :
  string -> list (string * string) -> World -> Fetched string * World.

(** X9. Each scraper sends one request and no more, whatever the reply:
    to the series page, or to the chapter page, with the four default
    headers; and it writes to the console only when the page was read
    and nothing was found in it. *)
Theorem scrapers_send_one_request clock id w :
  let chapters := scrapeBatotoChapters fetch clock id w in
  let pages := scrapeBatotoChapterPages fetch id w in
  let seriesReply :=
    fetch ("https://mto.to/series/" ++ id)%string defaultHeaders w in
  let chapterReply :=
    fetch ("https://mto.to/chapter/" ++ id)%string defaultHeaders w in
  exchanges (snd chapters)
  = [(("https://mto.to/series/" ++ id)%string, fst seriesReply)]
  /\ world (snd chapters) = snd seriesReply
  /\ (console (snd chapters) = []
      \/ console (snd chapters)
         = [("[Batoto] No chapters found for series " ++ id
               ++ ". Selectors may need updating.")%string]
         /\ fst chapters = Resolved [])
  /\ exchanges (snd pages)
     = [(("https://mto.to/chapter/" ++ id)%string, fst chapterReply)]
  /\ world (snd pages) = snd chapterReply
  /\ console (snd pages)
     = match fst pages with
       | Resolved result =>
           match SourceChapterPages.pages result with
           | [] => [("[Batoto] No pages found for chapter " ++ id
                       ++ ". Selectors may need updating.")%string]
           | _ => []
           end
       | Rejected _ => []
       end.
Proof.
  cbv zeta. split; [| split; [| split; [| split; [| split]]]].
  1-3: unfold scrapeBatotoChapters, fetchWithTimeout; cbn [world start exchanges console];
    change (spread defaultHeaders []) with defaultHeaders;
    change (BATOTO_BASE_URL ++ "/series/" ++ id)%string
      with ("https://mto.to/series/" ++ id)%string;
    destruct (fetch _ _ w) as [[e | response] w']; cbn [fst snd];
    [ try reflexivity; now left
    | destruct (ok response); cbn [negb];
      [ destruct (body response) as [html | e];
        [ destruct (List.length _ =? 0)%nat;
          [ try reflexivity; right; now split
          | destruct (eachLink _ _ _ _ _); try reflexivity; now left ]
        | try reflexivity; now left ]
      | try reflexivity; now left ] ].
  all: unfold scrapeBatotoChapterPages, fetchWithTimeout;
    cbn [world start exchanges console];
    change (spread defaultHeaders []) with defaultHeaders;
    change (BATOTO_BASE_URL ++ "/chapter/" ++ id)%string
      with ("https://mto.to/chapter/" ++ id)%string;
    destruct (fetch _ _ w) as [[e | response] w']; cbn [fst snd];
    [ reflexivity
    | destruct (ok response); cbn [negb];
      [ destruct (body response) as [html | e]; [| reflexivity]
      | reflexivity ] ].
  1-2: match goal with
       | |- context [if ?c then warn _ _ else _] => destruct c; reflexivity
       end.
  cbv zeta.
  match goal with
  | |- context [SourceChapterPages.mk id ?l _] =>
      generalize l; intros pages; destruct pages; reflexivity
  end.
Qed.

(** The message of the error a rejected scrape carries. *)
Lemma chapters_reject_message clock seriesId w e :
  fst (scrapeBatotoChapters fetch clock seriesId w) = Rejected e ->
  let reply :=
    fst (fetch ("https://mto.to/series/" ++ seriesId)%string defaultHeaders w) in
  reply = NetworkFailure e
  \/ (exists response,
         reply = Responded response /\ ok response = false
         /\ message e = ("Batoto returned " ++ ToString (status response)
                           ++ " for series " ++ seriesId)%string)
  \/ (exists response,
         reply = Responded response /\ ok response = true
         /\ body response = Rejected e)
  \/ (exists response html,
         reply = Responded response /\ ok response = true
         /\ body response = Resolved html
         /\ select (load html) SELECTORS.chapterList.link <> []
         /\ message e = "Invalid time value").
Proof.
  unfold scrapeBatotoChapters, fetchWithTimeout. cbn [world start].
  change (spread defaultHeaders []) with defaultHeaders.
  change (BATOTO_BASE_URL ++ "/series/" ++ seriesId)%string
    with ("https://mto.to/series/" ++ seriesId)%string.
  destruct (fetch _ _ w) as [[e' | response] w']; cbn [fst].
  - intros [= <-]. now left.
  - destruct (ok response) eqn:Hok; cbn [negb].
    + destruct (body response) as [html | e'] eqn:Hbody.
      * destruct (select (load html) SELECTORS.chapterList.link)
          as [| el links] eqn:L; cbn [List.length Nat.eqb];
          [cbn [fst]; discriminate |].
        destruct (eachLink _ _ _ _ _) as [pushed | e'] eqn:E; [discriminate |].
        cbn [fst]. intros [= <-].
        destruct (eachLink_throws _ _ _ _ _ _ E) as (el' & i & _ & H).
        right. right. right. exists response, html.
        split; [reflexivity |]. split; [exact Hok |].
        split; [exact Hbody |]. split; [rewrite L; discriminate |].
        now rewrite (chapterOfLink_throws _ _ _ _ H).
      * cbn [fst]. intros [= <-]. right. right. left. exists response.
        now repeat split.
    + cbn [fst]. intros [= <-]. right. left. exists response.
      now repeat split.
Qed.

(** X10. [testBatotoConnection] always gives a report. A successful
    one counts the links of the page that hold a chapter id; a failed
    one counts 0 and names the cause: the message of the failed request
    or of the unreadable body, the status the site answered with, or
    Invalid time value when a date of the page could not be
    converted. *)
Theorem connection_test_counts_links_or_names_the_cause clock seriesId w :
  let test := fst (testBatotoConnection fetch clock seriesId w) in
  let reply :=
    fst (fetch ("https://mto.to/series/" ++ seriesId)%string defaultHeaders w) in
  if ConnectionTest.success test then
    ConnectionTest.error test = None
    /\ exists response html,
         reply = Responded response /\ ok response = true
         /\ body response = Resolved html
         /\ ConnectionTest.chapterCount test
            = Z.of_nat (List.length
                          (idsOf (load html)
                                 (select (load html) SELECTORS.chapterList.link)))
  else
    ConnectionTest.chapterCount test = 0
    /\ exists cause,
         ConnectionTest.error test = Some cause
         /\ ((exists e, reply = NetworkFailure e /\ cause = message e)
             \/ (exists response,
                    reply = Responded response /\ ok response = false
                    /\ cause = ("Batoto returned " ++ ToString (status response)
                                  ++ " for series " ++ seriesId)%string)
             \/ (exists response e,
                    reply = Responded response /\ ok response = true
                    /\ body response = Rejected e /\ cause = message e)
             \/ (exists response html,
                    reply = Responded response /\ ok response = true
                    /\ body response = Resolved html
                    /\ select (load html) SELECTORS.chapterList.link <> []
                    /\ cause = "Invalid time value")).
Proof.
  cbv zeta. unfold testBatotoConnection.
  destruct (scrapeBatotoChapters fetch clock seriesId w)
    as [[chapters | e] r] eqn:S; cbn [fst ConnectionTest.success
                                      ConnectionTest.error
                                      ConnectionTest.chapterCount].
  - split; [reflexivity |].
    assert (H : fst (scrapeBatotoChapters fetch clock seriesId w)
                = Resolved chapters) by now rewrite S.
    destruct (scrapeBatotoChapters_resolved _ _ _ _ _ H)
      as (response & html & pushed & Hreply & Hok & Hbody & Each & ->).
    exists response, html. repeat split; try assumption.
    pose proof (eachLink_ids _ _ _ _ _ _ Each) as Hids. cbn [map app] in Hids.
    pose proof (sort_Permutation chapterValue pushed) as P.
    change (Permutation pushed (sort compareChapters pushed)) in P.
    now rewrite <- (Permutation_length P), <- Hids, length_map.
  - split; [reflexivity |]. exists (message e). split; [reflexivity |].
    assert (H : fst (scrapeBatotoChapters fetch clock seriesId w) = Rejected e)
      by now rewrite S.
    destruct (chapters_reject_message _ _ _ _ H)
      as [R | [(response & R & Hok & M) | [(response & R & Hok & B)
                                          | (response & html & R & Hok & B & L & M)]]].
    + left. now exists e.
    + right. left. now exists response.
    + right. right. left. now exists response, e.
    + right. right. right. now exists response, html.
Qed.

End Scraper.
End EffectFacts.

(* ===================================================================== *)
(** * Properties of relative dates                                       *)
(* ===================================================================== *)

Module RelativeDateFacts.
Import JS Types Batoto TextFacts NumberFormFacts ParseFacts
       ExactFacts DateFacts.

(** A small letter is matched, under the flag [i], by itself and by
    its capital. *)
Lemma toUpper_matches (a c : ascii) :
  (97 <= N_of_ascii a <= 122)%N ->
  Ascii.eqb (toUpper a) (toUpper c) = true -> toLower c = a.
Proof.
  intros Ha.
  destruct a as [[] [] [] [] [] [] [] []]; cbn in Ha;
    try (exfalso; lia);
    destruct c as [[] [] [] [] [] [] [] []]; vm_compute;
    intros H; try discriminate H; reflexivity.
Qed.

Lemma literalCI_lower (p s matched rest : string) :
  Forall (fun a => (97 <= N_of_ascii a <= 122)%N) (chars p) ->
  literalCI p s = Some (matched, rest) -> toLowerCase matched = p.
Proof.
  revert s matched rest. induction p as [| a p IH]; intros s matched rest Hp;
    cbn [literalCI].
  - now intros [= <- _].
  - destruct s as [| c s]; [discriminate |].
    destruct (Ascii.eqb (toUpper a) (toUpper c)) eqn:E; [| discriminate].
    destruct (literalCI p s) as [[m r] |] eqn:L; [| discriminate].
    intros [= <- _]. inversion Hp as [| ? ? Ha Hp']; subst.
    cbn [toLowerCase]. now rewrite (toUpper_matches _ _ Ha E), (IH _ _ _ Hp' L).
Qed.

(** What the pattern of a relative date captures: a run of digits and
    one of the five units, in either case. *)
Lemma relativeAt_spec (s digits unitText : string) :
  relativeAt s = Some (digits, unitText) ->
  digits <> EmptyString
  /\ Forall (fun c => isDigit c = true) (chars digits)
  /\ In (toLowerCase unitText) ["day"; "hour"; "minute"; "week"; "month"].
Proof.
  unfold relativeAt. destruct (span isDigit s) as [run rest] eqn:S.
  destruct (span_spec _ _ _ _ S) as (_ & Hall & _).
  destruct run as [| d run]; [discriminate |].
  intros H. apply firstOf_found in H. destruct H as (alt & Hin & Halt).
  apply in_map_iff in Hin. destruct Hin as (unit & <- & Hunit).
  destruct (literalCI unit _) as [[matched rest'] |] eqn:L; [| discriminate].
  apply optionally_spec in Halt.
  assert (E : digits = String d run /\ unitText = matched).
  { destruct Halt as [Halt | (c & r & _ & Halt)];
      destruct (literalCI "ago" _); try discriminate;
      now injection Halt as <- <-. }
  destruct E as [-> ->]. split; [discriminate |]. split; [exact Hall |].
  assert (Hlow : Forall (fun a => (97 <= N_of_ascii a <= 122)%N) (chars unit)).
  { cbn [In] in Hunit.
    destruct Hunit as [<- | [<- | [<- | [<- | [<- | []]]]]];
      cbn; repeat constructor; cbn; lia. }
  now rewrite (literalCI_lower _ _ _ _ Hlow L).
Qed.

Lemma digitsValue_nonneg (acc : Z) (s : string) :
  0 <= acc -> Forall (fun c => isDigit c = true) (chars s) ->
  0 <= digitsValue acc s.
Proof.
  revert acc. induction s as [| c s IH]; intros acc Hacc Hall;
    cbn [digitsValue]; [exact Hacc |].
  inversion Hall as [| ? ? Hc Hall']; subst. apply IH; [| exact Hall'].
  unfold isDigit in Hc. apply andb_true_iff in Hc. destruct Hc as [Hlo _].
  apply N.leb_le in Hlo. unfold digitValue. lia.
Qed.

(** The amount read from a run of digits. *)
Lemma parseInt_digits (digits : string) :
  digits <> EmptyString ->
  Forall (fun c => isDigit c = true) (chars digits) ->
  parseInt digits = ofZ (digitsValue 0 digits) /\ 0 <= digitsValue 0 digits.
Proof.
  intros Hne Hall. split; [| now apply digitsValue_nonneg].
  unfold parseInt. destruct digits as [| d digits]; [congruence |].
  inversion Hall as [| ? ? Hd Hall']; subst.
  destruct (digit_cases _ Hd) as (Hws & Hminus & Hplus & _).
  rewrite dropWhile_head by exact Hws.
  assert (Hsign : signOf (String d digits) = (false, String d digits)).
  { unfold signOf. destruct d as [[] [] [] [] [] [] [] []];
      try reflexivity; congruence. }
  rewrite Hsign.
  pose proof (span_app isDigit (String d digits) EmptyString Hall I) as E.
  rewrite append_nil_r in E. now rewrite E.
Qed.

Section Host.

Context {host : Host}.


End Host.


End RelativeDateFacts.

(* ===================================================================== *)
(** * Properties of the external source guard                            *)
(* ===================================================================== *)

Module ExternalSourceFacts.
Import JS Types Batoto TextFacts ValidationFacts.

(** X11. The type guard accepts exactly the objects whose provider is
    the string batoto and whose externalId is a string that is not
    empty; null, arrays and primitive values are refused. What
    [createExternalSource] makes of an id that
    [validateBatotoSeriesInput] accepted passes the guard. *)
Theorem external_source_guard (data : Value) :
  (isValidExternalSource data = true
   <-> exists fields id,
         data = Object fields
         /\ field fields "provider" = Some (Text "batoto")
         /\ field fields "externalId" = Some (Text id)
         /\ id <> EmptyString)
  /\ (forall input id,
         validateBatotoSeriesInput input = Some id ->
         isValidExternalSource (asValue (createExternalSource batoto id))
         = true)
  /\ (forall id,
         isValidExternalSource (asValue (createExternalSource batoto id))
         = negb (String.eqb id EmptyString)).
Proof.
  assert (made : forall id,
             isValidExternalSource (asValue (createExternalSource batoto id))
             = negb (String.eqb id EmptyString)).
  { intros id. unfold isValidExternalSource, asValue, createExternalSource.
    cbn. now destruct id. }
  split; [| split; [| exact made]].
  - unfold isValidExternalSource. split.
    + destruct data as [| | b | n | s | items | fields]; cbn;
        try discriminate; try (destruct b; discriminate);
        try (destruct (truthyNumber n); discriminate);
        try (destruct (negb (String.eqb s EmptyString)); discriminate).
      destruct (field fields "provider") as [[| | b | n | s | items | fs] |]
        eqn:Hp; cbn; try discriminate.
      destruct (String.eqb s "batoto") eqn:Ep; [| discriminate].
      apply String.eqb_eq in Ep. subst s.
      destruct (field fields "externalId") as [[| | b | n | s | items | fs] |]
        eqn:He; cbn; try discriminate.
      intros H. exists fields, s.
      split; [reflexivity |]. split; [exact Hp |]. split; [exact He |].
      intros E. subst s. discriminate H.
    + intros (fields & id & -> & Hp & He & Hne). cbn. rewrite Hp, He. cbn.
      destruct id; [congruence | reflexivity].
  - intros input id H. rewrite made.
    pose proof (validated_id_not_empty input id H) as Hne.
    destruct id; [congruence | reflexivity].
Qed.

(** X11, at the id read from the address of a series page. *)
Lemma validated_url_makes_a_valid_source :
  isValidExternalSource
    (Object [("provider", Text "batoto"); ("externalId", Text "12345")])
  = true.
Proof.
  exact (proj1 (proj2 (external_source_guard Null))
               "https://mto.to/series/12345" "12345" eq_refl).
Defined.

End ExternalSourceFacts.

(* ===================================================================== *)
(** * Further properties of the MangaDex adapter                         *)
(* ===================================================================== *)

Module MangaDexMoreFacts.
Import JS Types MangaDex ListFacts StringFacts MangaDexFacts ExactFacts.

Lemma indexed_spec (index : Z) (urls : list string) :
  map SourcePage.imageUrl (indexed index urls) = urls
  /\ map SourcePage.index (indexed index urls)
     = map (fun i => index + Z.of_nat i) (seq 0 (List.length urls))
  /\ Forall (fun p => SourcePage.width p = None /\ SourcePage.height p = None)
            (indexed index urls).
Proof.
  revert index. induction urls as [| url urls IH]; intros index;
    cbn [indexed map List.length seq]; [now repeat split |].
  destruct (IH (index + 1)) as (Hu & Hi & Hb). repeat split.
  - now rewrite Hu.
  - rewrite Hi, Z.add_0_r, <- seq_shift, map_map. f_equal.
    apply map_ext. intros i. lia.
  - constructor; [now split | exact Hb].
Qed.

Section Pages.

Context {World : Type}.
Variable fetch : string -> World -> Fetched MangaDexImagesResponse * World.

(** X12. [getMangaDexChapterPages] sends one request. On an OK reply
    the pages are the entries of [images], in their order, numbered
    from 0, whatever [dataSaver] says (the entries of
    [dataSaverImages] are not used); the chapter id is the one the
    reply carries, and no referer is given. A reply that is not OK
    rejects with the status in the message. *)
Theorem chapter_pages_follow_the_images mangaId chapterId dataSaver
        (r : Run World MangaDexImagesResponse) :
  let url := pagesUrl mangaId chapterId dataSaver in
  let reply := fst (fetch url (world r)) in
  let out := getMangaDexChapterPages fetch mangaId chapterId dataSaver r in
  exchanges (snd out) = exchanges r ++ [(url, reply)]
  /\ (forall response,
         reply = Responded response -> ok response = false ->
         exists e,
           fst out = Rejected e
           /\ message e = ("Failed to fetch MangaDex chapter pages: "
                             ++ ToString (status response))%string)
  /\ (forall response data,
         reply = Responded response -> ok response = true ->
         body response = Resolved data ->
         exists result,
           fst out = Resolved result
           /\ SourceChapterPages.chapterId result
              = MangaDexImagesResponse.chapterId data
           /\ SourceChapterPages.referer result = None
           /\ map SourcePage.imageUrl (SourceChapterPages.pages result)
              = MangaDexImagesResponse.images data
           /\ map SourcePage.index (SourceChapterPages.pages result)
              = map Z.of_nat
                    (seq 0 (List.length (MangaDexImagesResponse.images data)))
           /\ Forall (fun p => SourcePage.width p = None
                               /\ SourcePage.height p = None)
                     (SourceChapterPages.pages result)).
Proof.
  cbv zeta. unfold getMangaDexChapterPages.
  destruct (fetch _ (world r)) as [reply w']. cbn [fst].
  split; [| split].
  - destruct reply as [e | response]; [reflexivity |].
    destruct (ok response); cbn [negb]; [| reflexivity].
    now destruct (body response).
  - intros response -> ->. cbn [negb fst]. eexists. split; reflexivity.
  - intros response data -> -> ->. cbn [negb fst]. eexists.
    split; [reflexivity |].
    cbn [SourceChapterPages.chapterId SourceChapterPages.referer
         SourceChapterPages.pages].
    destruct (indexed_spec 0 (MangaDexImagesResponse.images data))
      as (Hu & Hi & Hb).
    split; [reflexivity |]. split; [reflexivity |]. split; [exact Hu |].
    split; [| exact Hb]. rewrite Hi. apply map_ext. intros i. lia.
Qed.

End Pages.

(** X12, at the reply of the fixtures, which lists two images and two
    data-saver images: the pages are the two images. *)
Lemma images_reply_gives_two_pages :
  exists result,
    fst (getMangaDexChapterPages Fixtures.replay "m1" "c1" true
           (start _ [Fixtures.imagesReply])) = Resolved result
    /\ map SourcePage.imageUrl (SourceChapterPages.pages result)
       = ["1.png"; "2.png"].
Proof.
  destruct (proj2 (proj2 (chapter_pages_follow_the_images
                            Fixtures.replay "m1" "c1" true
                            (start _ [Fixtures.imagesReply])))
              _ _ eq_refl eq_refl eq_refl)
    as (result & Hres & _ & _ & Hurls & _).
  exists result. split; [exact Hres | exact Hurls].
Defined.

Section Chapters.

Context {World : Type}.
Variable fetch : string -> World -> Fetched MangaDexChapterResponse * World.

(** X13. A request that fails, or an OK reply whose body cannot be
    read, rejects the whole call with that error, at the first page and
    at any later one: unlike a reply that is not OK, it is the last
    request and the chapters of the pages fetched before it are
    lost. *)
Theorem failed_request_loses_the_pages
        (mangaId : string) (options : Options) (w : World)
        earlier url reply later e :
  let out := getMangaDexChapters fetch mangaId options w in
  exchanges (snd out) = earlier ++ (url, reply) :: later ->
  reply = NetworkFailure e
  \/ (exists response,
         reply = Responded response /\ ok response = true
         /\ body response = Rejected e) ->
  later = [] /\ fst out = Rejected e.
Proof.
  cbv zeta. intros Hx Hreply.
  destruct (getMangaDexChapters_spec fetch mangaId options w)
    as (full & last & Hex & _ & Hfull & _ & Hres & _).
  cbv zeta in Hex, Hres.
  assert (Hnot : isFullPage reply = false).
  { destruct Hreply as [-> | (response & -> & Hok & Hbody)]; [reflexivity |].
    cbn. now rewrite Hok, Hbody. }
  rewrite Hex in Hx.
  destruct (split_at_last _ _ _ _ _ Hx) as (-> & -> & [= _ ->]).
  { intros Hin. rewrite Forall_forall in Hfull.
    specialize (Hfull _ Hin). cbn [snd] in Hfull. congruence. }
  split; [reflexivity |].
  rewrite getMangaDexChapters_result, Hres.
  destruct Hreply as [[= ->] | (response & [= ->] & Hok & Hbody)]; cbn.
  - reflexivity.
  - now rewrite Hok, Hbody.
Qed.

Lemma applyFilters_noOptions (all : list SourceChapter) :
  applyFilters noOptions all = all.
Proof. reflexivity. Qed.

(** X14. Options that are falsy or negative: an empty language string
    filters nothing, and a negative limit -k does not bound the result
    but drops its last k chapters. *)
Theorem empty_language_and_negative_limit
        (mangaId : string) (w : World) (all : list SourceChapter) :
  fst (getMangaDexChapters fetch mangaId noOptions w) = Resolved all ->
  fst (getMangaDexChapters fetch mangaId (mkOptions None (Some EmptyString)) w)
  = Resolved all
  /\ (forall k,
         0 < k ->
         fst (getMangaDexChapters fetch mangaId (mkOptions (Some (- k)) None) w)
         = Resolved (firstn (List.length all - Z.to_nat k) all)).
Proof.
  intros H. rewrite getMangaDexChapters_result in H.
  destruct (fst (paginate fetch mangaId 0 [] (start _ w))) as [fetched | e] eqn:P;
    [| discriminate].
  rewrite applyFilters_noOptions in H. injection H as ->. split.
  - now rewrite getMangaDexChapters_result, P.
  - intros k Hk. rewrite getMangaDexChapters_result, P. f_equal.
    unfold applyFilters. cbn [opt_language opt_limit truthyInt].
    replace (- k =? 0) with false by (symmetry; apply Z.eqb_neq; lia).
    replace (Z.of_nat (List.length all) >? - k) with true
      by (symmetry; rewrite Z.gtb_ltb; apply Z.ltb_lt; lia).
    cbn [negb andb]. unfold slice.
    replace (0 <? 0) with false by reflexivity.
    replace (- k <? 0) with true by (symmetry; apply Z.ltb_lt; lia).
    rewrite Z.min_l by lia. cbn [Z.to_nat skipn]. f_equal. lia.
Qed.

(** X15. The two summary helpers never fail: each sends one request
    for a single chapter at offset 0, and a failed request, a reply
    that is not OK or a body that cannot be read gives 0 chapters and
    no language. Otherwise the count is the total less the external
    chapters, and the breakdown the one of the reply. *)
Theorem summaries_fall_back_on_any_failure (mangaId : string) (w : World) :
  let reply := fst (fetch (summaryUrl mangaId) w) in
  let count := getMangaDexChapterCount fetch mangaId w in
  let breakdown := getMangaDexLanguageBreakdown fetch mangaId w in
  summaryUrl mangaId
  = ("/api/reader/" ++ mangaId ++ "/chapters?limit=1&offset=0")%string
  /\ exchanges (snd count) = [(summaryUrl mangaId, reply)]
  /\ exchanges (snd breakdown) = [(summaryUrl mangaId, reply)]
  /\ ((forall response data,
          reply = Responded response -> ok response = true ->
          body response <> Resolved data) ->
      fst count = Finite 0 /\ fst breakdown = [])
  /\ (forall response data,
         reply = Responded response -> ok response = true ->
         body response = Resolved data ->
         fst breakdown = MangaDexChapterResponse.totalByLanguage data
         /\ (0 <= MangaDexChapterResponse.totalExternal data
                <= MangaDexChapterResponse.total data ->
             MangaDexChapterResponse.total data < 2 ^ 53 ->
             fst count
             = Finite (inject_Z (MangaDexChapterResponse.total data
                                 - MangaDexChapterResponse.totalExternal data)))).
Proof.
  cbv zeta. unfold getMangaDexChapterCount, getMangaDexLanguageBreakdown.
  destruct (fetch (summaryUrl mangaId) w) as [reply w']. cbn [fst].
  split; [reflexivity |].
  split; [| split; [| split]].
  - destruct reply as [e | response]; [reflexivity |].
    destruct (ok response); cbn [negb]; [| reflexivity].
    now destruct (body response).
  - destruct reply as [e | response]; [reflexivity |].
    destruct (ok response); cbn [negb]; [| reflexivity].
    now destruct (body response).
  - intros Hfail. destruct reply as [e | response]; [now split |].
    destruct (ok response) eqn:Hok; cbn [negb]; [| now split].
    destruct (body response) as [data | e] eqn:Hbody; [| now split].
    now destruct (Hfail response data eq_refl Hok).
  - intros response data -> -> ->. cbn [negb fst]. split; [reflexivity |].
    intros Hext Htotal.
    rewrite !ofZ_exact by lia. apply sub_exact. lia.
Qed.

End Chapters.

(** X13, at a feed whose second request fails after a full first
    page: the call rejects, and the 500 chapters are lost. *)
Lemma failure_after_a_full_page_rejects :
  fst (getMangaDexChapters Fixtures.replay "m1" noOptions
         [Fixtures.okPage 0 500])
  = Rejected (mkError "TypeError" "fetch failed").
Proof.
  refine (proj2 (failed_request_loses_the_pages
                   Fixtures.replay "m1" noOptions [Fixtures.okPage 0 500]
                   [(chaptersUrl "m1" 0, Fixtures.okPage 0 500)]
                   (chaptersUrl "m1" 500)
                   (NetworkFailure (mkError "TypeError" "fetch failed"))
                   [] (mkError "TypeError" "fetch failed") _ _)).
  - vm_compute. reflexivity.
  - left. reflexivity.
Defined.

(** X14, at the feed of three chapters with the limit -1: the first
    two are returned. *)
Lemma limit_minus_one_drops_the_last :
  fst (getMangaDexChapters Fixtures.replay "m1" (mkOptions (Some (- 1)) None)
         Fixtures.mixedFeed)
  = Resolved (firstn 2 Fixtures.mixed).
Proof.
  refine (proj2 (empty_language_and_negative_limit
                   Fixtures.replay "m1" Fixtures.mixedFeed Fixtures.mixed _)
                1 _).
  - vm_compute. reflexivity.
  - reflexivity.
Defined.

(** X15, at the feed of three chapters, none of them external. *)
Lemma mixed_feed_counts_three :
  fst (getMangaDexChapterCount Fixtures.replay "m1" Fixtures.mixedFeed)
  = Finite (inject_Z 3).
Proof.
  destruct (proj2 (proj2 (proj2 (proj2
              (summaries_fall_back_on_any_failure
                 Fixtures.replay "m1" Fixtures.mixedFeed))))
              _ _ eq_refl eq_refl eq_refl) as [_ H].
  apply H; cbn; lia.
Defined.

End MangaDexMoreFacts.

(* ===================================================================== *)
(** * Properties of the API routes                                       *)
(* ===================================================================== *)

Module RouteFacts.
Import JS Types Batoto Routes TextFacts ValidationFacts
       BatotoFacts ScraperFacts PageFacts.

Lemma includes_later (before s sub : string) :
  includes s sub = true -> includes (before ++ s) sub = true.
Proof.
  intros H. induction before as [| c before IH]; cbn [append]; [exact H |].
  cbn [includes]. rewrite IH. apply orb_true_r.
Qed.

Lemma includes_earlier (s after sub : string) :
  includes s sub = true -> includes (s ++ after) sub = true.
Proof.
  intros H. destruct (includes_spec _ _ H) as (a & b & ->).
  rewrite !StringFacts.append_assoc. apply includes_app.
Qed.

Section Handlers.

Context {cheerio : Cheerio} {host : Host} {World : Type}.
Variable fetch :
  string -> list (string * string) -> World -> Fetched string * World.

Lemma pages_requested chapterId w :
  requested (snd (scrapeBatotoChapterPages fetch chapterId w))
  = [("https://mto.to/chapter/" ++ chapterId)%string].
Proof.
  unfold scrapeBatotoChapterPages, fetchWithTimeout, requested.
  cbn [world start exchanges].
  destruct (fetch _ _ w) as [[e | response] w']; [reflexivity |].
  destruct (ok response); cbn [negb]; [| reflexivity].
  destruct (body response) as [html | e]; [| reflexivity].
  cbv zeta.
  match goal with
  | |- context [if ?c then warn _ _ else _] => destruct c; reflexivity
  end.
Qed.

Lemma chapters_requested clock seriesId w :
  requested (snd (scrapeBatotoChapters fetch clock seriesId w))
  = [("https://mto.to/series/" ++ seriesId)%string].
Proof.
  unfold scrapeBatotoChapters, fetchWithTimeout, requested.
  cbn [world start exchanges].
  destruct (fetch _ _ w) as [[e | response] w']; [reflexivity |].
  destruct (ok response); cbn [negb]; [| reflexivity].
  destruct (body response) as [html | e]; [| reflexivity].
  destruct (List.length _ =? 0)%nat; [reflexivity |].
  now destruct (eachLink _ _ _ _ _).
Qed.

(** How the pages handler ends once the id has passed its checks. *)
Lemma pagesGET_scraped id w :
  isSlug id = true ->
  let h := pagesGET fetch (Some id) w in
  run h = snd (scrapeBatotoChapterPages fetch id w)
  /\ match fst (scrapeBatotoChapterPages fetch id w) with
     | Resolved result =>
         errors h = []
         /\ match SourceChapterPages.pages result with
            | [] => Routes.status (response h) = 404
            | _ => response h = mkNextResponse 200 (Pages result "batoto")
            end
     | Rejected error =>
         errors h = [("[Batoto API] Error fetching pages:", error)]
         /\ Routes.status (response h)
            = if includes (message error) "404" then 404
              else if includes (message error) "timeout"
                      || includes (message error) "abort" then 504
              else 500
     end.
Proof.
  intros S. cbv zeta. unfold pagesGET.
  destruct (isSlug_spec _ S) as [Hne _].
  replace (truthyString (Some id)) with true
    by (destruct id; [congruence | reflexivity]).
  rewrite S. cbn [negb].
  destruct (scrapeBatotoChapterPages fetch id w) as [[result | error] r].
  - cbn [fst snd]. destruct (SourceChapterPages.pages result); now repeat split.
  - cbn [fst snd]. destruct (includes (message error) "404"); [now repeat split |].
    destruct (_ || _); now repeat split.
Qed.

(** X16. The pages handler asks the site for nothing but the page of a
    chapter whose id is made of letters, digits, underscores and
    dashes: a missing, empty or otherwise formed chapterId is answered
    with 400 and no request, and every other call sends exactly one
    request. *)
Theorem pages_route_requests_chapter_pages_only chapterId w :
  let h := pagesGET fetch chapterId w in
  (Routes.status (response h) = 400 <-> requested (run h) = [])
  /\ (forall url,
         In url (requested (run h)) ->
         exists id,
           chapterId = Some id
           /\ requested (run h) = [url]
           /\ url = ("https://mto.to/chapter/" ++ id)%string
           /\ Forall (fun c => isSlugChar c = true) (chars id)).
Proof.
  cbv zeta.
  assert (none : forall error,
             Routes.status (response (refused w error)) = 400
             /\ requested (run (refused (World := World) w error)) = [])
    by now split.
  destruct chapterId as [id |]; [| cbn [pagesGET]; split; [tauto | intros url []]].
  destruct (isSlug id) eqn:S.
  - destruct (pagesGET_scraped id w S) as [Hrun Hres]. cbv zeta in Hrun, Hres.
    rewrite Hrun, pages_requested. split.
    + split; [| discriminate]. intros H400. exfalso.
      destruct (fst (scrapeBatotoChapterPages fetch id w)) as [result | error].
      * destruct Hres as [_ Hres].
        destruct (SourceChapterPages.pages result);
          [| rewrite Hres in H400]; [congruence | discriminate].
      * destruct Hres as [_ Hres]. rewrite Hres in H400.
        destruct (includes _ "404"); [discriminate |].
        destruct (_ || _); discriminate.
    + intros url [<- | []]. exists id. repeat split.
      now destruct (isSlug_spec _ S).
  - unfold pagesGET. rewrite S. cbn [negb].
    destruct (negb (truthyString (Some id))); (split; [tauto | intros url []]).
Qed.

(** How the chapters handler ends once the input has been accepted. *)
Lemma chaptersGET_scraped clock input seriesId w :
  validateBatotoSeriesInput input = Some seriesId ->
  let h := chaptersGET fetch clock (Some input) w in
  run h = snd (scrapeBatotoChapters fetch clock seriesId w)
  /\ match fst (scrapeBatotoChapters fetch clock seriesId w) with
     | Resolved chapters =>
         errors h = []
         /\ response h
            = mkNextResponse 200
                (Chapters chapters (Z.of_nat (List.length chapters))
                          "batoto" seriesId)
     | Rejected error =>
         errors h = [("[Batoto API] Error fetching chapters:", error)]
         /\ Routes.status (response h)
            = if includes (message error) "404" then 404
              else if includes (message error) "timeout"
                      || includes (message error) "abort" then 504
              else 500
     end.
Proof.
  intros V. cbv zeta. unfold chaptersGET.
  pose proof (validated_id_not_empty _ _ V) as Hne.
  assert (Hin : input <> EmptyString).
  { intros ->. discriminate V. }
  replace (truthyString (Some input)) with true
    by (destruct input; [congruence | reflexivity]).
  cbn [negb]. rewrite V.
  replace (truthyString (Some seriesId)) with true
    by (destruct seriesId; [congruence | reflexivity]).
  cbn [negb].
  destruct (scrapeBatotoChapters fetch clock seriesId w) as [[chapters | error] r].
  - cbn [fst snd]. now split.
  - cbn [fst snd]. destruct (includes (message error) "404"); [now repeat split |].
    destruct (_ || _); now repeat split.
Qed.

(** X17. The pages handler answers 200 exactly when the scraper found
    at least one page, and then with those pages, numbered from 0,
    each address beginning with http; every other answer is 400, 404,
    500 or 504. *)
Theorem pages_route_answers_200_with_pages_only chapterId w :
  let h := pagesGET fetch chapterId w in
  In (Routes.status (response h)) [200; 400; 404; 500; 504]
  /\ (Routes.status (response h) = 200
      <-> exists id result,
            chapterId = Some id
            /\ fst (scrapeBatotoChapterPages fetch id w) = Resolved result
            /\ SourceChapterPages.pages result <> []
            /\ response h = mkNextResponse 200 (Pages result "batoto"))
  /\ (forall result source,
         payload (response h) = Pages result source ->
         let pages := SourceChapterPages.pages result in
         source = "batoto"
         /\ pages <> []
         /\ map SourcePage.index pages
            = map Z.of_nat (seq 0 (List.length pages))
         /\ Forall (fun p => exists scheme rest,
                        literalCI "http" (SourcePage.imageUrl p)
                        = Some (scheme, rest)) pages).
Proof.
  cbv zeta.
  destruct chapterId as [id |];
    [| cbn; split; [tauto |]; split;
       [split; [discriminate | now intros (id & result & [=] & _)]
       | discriminate]].
  destruct (isSlug id) eqn:S.
  - destruct (pagesGET_scraped id w S) as [_ Hres]. cbv zeta in Hres.
    destruct (fst (scrapeBatotoChapterPages fetch id w)) as [result | error] eqn:R.
    + destruct Hres as [_ Hres].
      destruct (SourceChapterPages.pages result) as [| p pages] eqn:P.
      * split; [rewrite Hres; cbn; tauto |]. split.
        { split; [rewrite Hres; discriminate |].
          intros (id' & result' & [= <-] & Hr & Hne & _).
          rewrite R in Hr. injection Hr as <-. congruence. }
        intros result' source Hp. exfalso.
        revert Hp Hres. unfold pagesGET.
        destruct (negb (truthyString (Some id))); [cbn; discriminate |].
        rewrite S. cbn [negb].
        destruct (scrapeBatotoChapterPages fetch id w) as [[r0 | e0] r1];
          cbn [fst] in R; [| discriminate].
        injection R as ->. rewrite P. cbn. discriminate.
      * rewrite Hres. cbn [response Routes.status payload].
        split; [cbn; tauto |]. split.
        { split; [| reflexivity]. intros _. exists id, result.
          split; [reflexivity |]. split; [exact R |].
          split; [rewrite P; discriminate | reflexivity]. }
        intros result' source [= <- <-].
        destruct (pages_resolved_from fetch _ _ _ R) as (resp & html & _ & _ & _ & E).
        rewrite E in P |- *. cbn [SourceChapterPages.pages] in P |- *.
        destruct (extracted_pages (load html)) as [Hn Hw].
        split; [reflexivity |]. split; [rewrite P; discriminate |].
        now split.
    + destruct Hres as [_ Hres].
      assert (Hs : In (Routes.status (response (pagesGET fetch (Some id) w)))
                      [404; 500; 504]).
      { rewrite Hres. destruct (includes _ "404"); [cbn; tauto |].
        destruct (_ || _); cbn; tauto. }
      split; [cbn in Hs |- *; tauto |]. split.
      { split.
        - intros H. rewrite H in Hs. cbn in Hs.
          destruct Hs as [? | [? | [? | []]]]; discriminate.
        - intros (id' & result' & [= <-] & Hr & _).
          rewrite R in Hr. discriminate Hr. }
      intros result' source Hp. exfalso. revert Hp. unfold pagesGET.
      destruct (negb (truthyString (Some id))); [cbn; discriminate |].
      rewrite S. cbn [negb].
      destruct (scrapeBatotoChapterPages fetch id w) as [[r0 | e0] r1];
        cbn [fst] in R; [discriminate |].
      destruct (includes (message e0) "404"); [cbn; discriminate |].
      destruct (includes (message e0) "timeout" || includes (message e0) "abort");
        cbn; discriminate.
  - unfold pagesGET. rewrite S. cbn [negb].
    destruct (negb (truthyString (Some id))); cbn;
      (split; [tauto |]; split;
       [split; [discriminate |] | discriminate]).
    all: intros (id' & result' & [= <-] & _ & _ & [=]).
Qed.

Lemma pages_not_ok id w reply :
  fst (fetch ("https://mto.to/chapter/" ++ id)%string defaultHeaders w)
  = Responded reply ->
  ok reply = false ->
  fst (scrapeBatotoChapterPages fetch id w)
  = Rejected (mkError "Error"
                ("Batoto returned " ++ ToString (JS.status reply)
                   ++ " for chapter " ++ id)%string).
Proof.
  unfold scrapeBatotoChapterPages, fetchWithTimeout. cbn [world start].
  change (spread defaultHeaders []) with defaultHeaders.
  change (BATOTO_BASE_URL ++ "/chapter/" ++ id)%string
    with ("https://mto.to/chapter/" ++ id)%string.
  destruct (fetch _ _ w) as [r w']. cbn [fst]. now intros -> ->.
Qed.

Lemma chapters_not_ok clock seriesId w reply :
  fst (fetch ("https://mto.to/series/" ++ seriesId)%string defaultHeaders w)
  = Responded reply ->
  ok reply = false ->
  fst (scrapeBatotoChapters fetch clock seriesId w)
  = Rejected (mkError "Error"
                ("Batoto returned " ++ ToString (JS.status reply)
                   ++ " for series " ++ seriesId)%string).
Proof.
  unfold scrapeBatotoChapters, fetchWithTimeout. cbn [world start].
  change (spread defaultHeaders []) with defaultHeaders.
  change (BATOTO_BASE_URL ++ "/series/" ++ seriesId)%string
    with ("https://mto.to/series/" ++ seriesId)%string.
  destruct (fetch _ _ w) as [r w']. cbn [fst]. now intros -> ->.
Qed.

(** The word a status or an id holds is in the message made of them. *)
Lemma message_includes (head status middle id word : string) :
  includes status word = true \/ includes id word = true ->
  includes (head ++ status ++ middle ++ id) word = true.
Proof.
  intros [H | H]; apply includes_later.
  - now apply includes_earlier.
  - now do 2 apply includes_later.
Qed.

(** X18. The handlers read the kind of a failure off its message, and
    the message of a reply that is not OK holds the id: when 404 occurs
    in the status or in the id, the answer is 404 Not found, whatever
    the status of the reply was. *)
Theorem not_found_is_read_off_the_message clock id input seriesId w reply :
  ok reply = false ->
  (isSlug id = true ->
   fst (fetch ("https://mto.to/chapter/" ++ id)%string defaultHeaders w)
   = Responded reply ->
   includes (ToString (JS.status reply)) "404" = true
   \/ includes id "404" = true ->
   response (pagesGET fetch (Some id) w)
   = mkNextResponse 404
       (Failure "Chapter not found on Batoto"
          (Some ("Batoto returned " ++ ToString (JS.status reply)
                   ++ " for chapter " ++ id)%string)))
  /\ (validateBatotoSeriesInput input = Some seriesId ->
      fst (fetch ("https://mto.to/series/" ++ seriesId)%string defaultHeaders w)
      = Responded reply ->
      includes (ToString (JS.status reply)) "404" = true
      \/ includes seriesId "404" = true ->
      response (chaptersGET fetch clock (Some input) w)
      = mkNextResponse 404
          (Failure "Series not found on Batoto"
             (Some ("Batoto returned " ++ ToString (JS.status reply)
                      ++ " for series " ++ seriesId)%string))).
Proof.
  intros Hok. split.
  - intros S Hreply Hword.
    pose proof (pages_not_ok id w reply Hreply Hok) as R.
    pose proof (message_includes "Batoto returned " _ " for chapter " _ _ Hword)
      as M.
    unfold pagesGET. destruct (isSlug_spec _ S) as [Hne _].
    replace (truthyString (Some id)) with true
      by (destruct id; [congruence | reflexivity]).
    rewrite S. cbn [negb].
    destruct (scrapeBatotoChapterPages fetch id w) as [[result | error] r];
      cbn [fst] in R; [discriminate |].
    injection R as ->. cbn [message].
    match goal with
    | |- context [includes ?m "404"] =>
        replace (includes m "404") with true by (symmetry; exact M)
    end.
    reflexivity.
  - intros V Hreply Hword.
    pose proof (chapters_not_ok clock seriesId w reply Hreply Hok) as R.
    pose proof (message_includes "Batoto returned " _ " for series " _ _ Hword)
      as M.
    unfold chaptersGET.
    pose proof (validated_id_not_empty _ _ V) as Hne.
    assert (Hin : input <> EmptyString) by (intros ->; discriminate V).
    replace (truthyString (Some input)) with true
      by (destruct input; [congruence | reflexivity]).
    cbn [negb]. rewrite V.
    replace (truthyString (Some seriesId)) with true
      by (destruct seriesId; [congruence | reflexivity]).
    cbn [negb].
    destruct (scrapeBatotoChapters fetch clock seriesId w) as [[chapters | error] r];
      cbn [fst] in R; [discriminate |].
    injection R as ->. cbn [message].
    match goal with
    | |- context [includes ?m "404"] =>
        replace (includes m "404") with true by (symmetry; exact M)
    end.
    reflexivity.
Qed.

(** X19. A page that was read but holds nothing is not an error for
    the chapters handler, which answers 200 with an empty list and the
    total 0, and is one for the pages handler, which answers 404. *)
Theorem empty_page_is_200_for_chapters_404_for_pages
        clock input seriesId id w reply html :
  ok reply = true -> body reply = Resolved html ->
  (validateBatotoSeriesInput input = Some seriesId ->
   fst (fetch ("https://mto.to/series/" ++ seriesId)%string defaultHeaders w)
   = Responded reply ->
   select (load html) SELECTORS.chapterList.link = [] ->
   response (chaptersGET fetch clock (Some input) w)
   = mkNextResponse 200 (Chapters [] 0 "batoto" seriesId))
  /\ (isSlug id = true ->
      fst (fetch ("https://mto.to/chapter/" ++ id)%string defaultHeaders w)
      = Responded reply ->
      extracted (load html) = [] ->
      response (pagesGET fetch (Some id) w)
      = mkNextResponse 404
          (Failure "No pages found for this chapter"
             (Some "The chapter may be unavailable or the page structure has changed"))).
Proof.
  intros Hok Hbody. split.
  - intros V Hreply Hnone.
    destruct (chaptersGET_scraped clock input seriesId w V) as [_ H].
    cbv zeta in H.
    rewrite (no_links_resolves_empty fetch clock seriesId w reply html
               Hreply Hok Hbody Hnone) in H.
    now destruct H.
  - intros S Hreply Hnone.
    pose proof (pages_resolve_on_any_document fetch id w reply html
                  Hreply Hok Hbody) as R.
    rewrite Hnone in R.
    unfold pagesGET. destruct (isSlug_spec _ S) as [Hne _].
    replace (truthyString (Some id)) with true
      by (destruct id; [congruence | reflexivity]).
    rewrite S. cbn [negb].
    destruct (scrapeBatotoChapterPages fetch id w) as [[result | error] r];
      cbn [fst] in R; [| discriminate].
    now injection R as ->.
Qed.

(** X27. The chapters handler asks the site for nothing but the series
    page of the id that [validateBatotoSeriesInput] made of its
    parameter: a missing, empty or invalid seriesId is answered with 400
    and no request, every other call sends exactly one request; and an
    answer of 200 carries the chapters the scraper resolved with, their
    number as total, the source batoto and the validated id, not the
    parameter as it was given. *)
Theorem chapters_route_requests_the_validated_series clock seriesId w :
  let h := chaptersGET fetch clock seriesId w in
  (Routes.status (response h) = 400 <-> requested (run h) = [])
  /\ (forall url,
         In url (requested (run h)) ->
         exists input id,
           seriesId = Some input
           /\ validateBatotoSeriesInput input = Some id
           /\ requested (run h) = [url]
           /\ url = ("https://mto.to/series/" ++ id)%string)
  /\ (forall chapters total source id,
         response h = mkNextResponse 200 (Chapters chapters total source id) ->
         total = Z.of_nat (List.length chapters)
         /\ source = "batoto"%string
         /\ errors h = []
         /\ exists input,
             seriesId = Some input
             /\ validateBatotoSeriesInput input = Some id
             /\ fst (scrapeBatotoChapters fetch clock id w) = Resolved chapters).
Proof.
  cbv zeta.
  destruct seriesId as [input |];
    [| cbn [chaptersGET]; split; [tauto |];
       split; [intros url [] | intros; discriminate]].
  destruct (validateBatotoSeriesInput input) as [id |] eqn:V.
  - destruct (chaptersGET_scraped clock input id w V) as [Hrun Hres].
    cbv zeta in Hrun, Hres.
    rewrite Hrun, chapters_requested.
    destruct (fst (scrapeBatotoChapters fetch clock id w))
      as [chapters | error] eqn:R.
    + destruct Hres as [Herrors Hres]. rewrite Hres.
      split; [split; discriminate |]. split.
      * intros url [<- | []]. exists input, id. now repeat split.
      * intros chapters' total source id' [= <- <- <- <-].
        split; [reflexivity |]. split; [reflexivity |].
        split; [exact Herrors |]. exists input. now repeat split.
    + destruct Hres as [_ Hres]. split; [| split].
      * split; [| discriminate]. intros H400. exfalso.
        rewrite Hres in H400.
        destruct (includes (message error) "404"); [discriminate |].
        destruct (includes (message error) "timeout"
                  || includes (message error) "abort"); discriminate.
      * intros url [<- | []]. exists input, id. now repeat split.
      * intros chapters' total source id' Hresponse. exfalso.
        rewrite Hresponse in Hres. cbn [Routes.status] in Hres.
        destruct (includes (message error) "404"); [discriminate |].
        destruct (includes (message error) "timeout"
                  || includes (message error) "abort"); discriminate.
  - unfold chaptersGET. rewrite V.
    destruct (negb (truthyString (Some input))); cbn;
      (split; [tauto |]; split; [intros url [] | intros; discriminate]).
Qed.

End Handlers.

(** X16, at an id that would leave the chapter path. *)
Lemma dotted_id_is_refused_without_a_request :
  Routes.status
    (response (pagesGET (cheerio := Fixtures.engine) Fixtures.serve
                        (Some "../etc") [Fixtures.okHtml Fixtures.emptyHtml]))
  = 400.
Proof.
  apply (proj1 (pages_route_requests_chapter_pages_only
                  (cheerio := Fixtures.engine) Fixtures.serve
                  (Some "../etc") [Fixtures.okHtml Fixtures.emptyHtml])).
  reflexivity.
Defined.

(** X17, at the reader page of the fixtures. *)
Lemma reader_page_is_answered_with_200 :
  Routes.status
    (response (pagesGET (cheerio := Fixtures.engine) Fixtures.serve
                        (Some "401") [Fixtures.okHtml Fixtures.readerHtml]))
  = 200.
Proof.
  apply (proj1 (proj2 (pages_route_answers_200_with_pages_only
                         (cheerio := Fixtures.engine) Fixtures.serve
                         (Some "401") [Fixtures.okHtml Fixtures.readerHtml]))).
  eexists "401", _. split; [reflexivity |]. split; [vm_compute; reflexivity |].
  split; [discriminate | vm_compute; reflexivity].
Defined.

(** X18, at the chapter 1404 when the site answers 500: the handler
    answers 404. *)
Lemma server_error_on_chapter_1404_is_answered_404 :
  response (pagesGET (cheerio := Fixtures.engine) Fixtures.serve
                     (Some "1404") [Fixtures.notOk 500])
  = mkNextResponse 404
      (Failure "Chapter not found on Batoto"
               (Some "Batoto returned 500 for chapter 1404")).
Proof.
  refine (proj1 (not_found_is_read_off_the_message
                   (cheerio := Fixtures.engine) (host := Fixtures.utc)
                   Fixtures.serve Fixtures.clock "1404" "x" "x"
                   [Fixtures.notOk 500]
                   (mkResponse false 500
                      (Rejected (mkError "TypeError" "body does not decode")))
                   eq_refl)
                eq_refl eq_refl (or_intror eq_refl)).
Defined.

(** X19, at a series page without links. *)
Lemma empty_series_page_is_answered_200 :
  response (chaptersGET (cheerio := Fixtures.engine) (host := Fixtures.utc)
                        Fixtures.serve Fixtures.clock
                        (Some " https://mto.to/series/77 ")
                        [Fixtures.okHtml Fixtures.emptyHtml])
  = mkNextResponse 200 (Chapters [] 0 "batoto" "77").
Proof.
  refine (proj1 (empty_page_is_200_for_chapters_404_for_pages
                   (cheerio := Fixtures.engine) (host := Fixtures.utc)
                   Fixtures.serve Fixtures.clock
                   " https://mto.to/series/77 " "77" "401"
                   [Fixtures.okHtml Fixtures.emptyHtml]
                   (mkResponse true 200 (Resolved Fixtures.emptyHtml))
                   Fixtures.emptyHtml eq_refl eq_refl)
                eq_refl eq_refl eq_refl).
Defined.

End RouteFacts.

Module LinkFacts.
Import JS Types Batoto Routes Routes.Link TextFacts ValidationFacts.

Section Handlers.

Context {cheerio : Cheerio} {host : Host} {World : Type} {prisma : Prisma World}.
Variable fetch :
  string -> list (string * string) -> World -> Fetched string * World.
Variable cannotDestructure : string.

(** What a source made of an accepted id is worth to the guard. *)
Lemma created_source_is_valid input seriesId :
  validateBatotoSeriesInput input = Some seriesId ->
  isValidExternalSource (asValue (createExternalSource batoto seriesId)) = true.
Proof.
  intros V. pose proof (validated_id_not_empty _ _ V) as Hne.
  unfold isValidExternalSource, asValue, createExternalSource. cbn.
  destruct seriesId; [congruence | reflexivity].
Qed.

Lemma chapterCount_nonneg clock seriesId w :
  0 <= ConnectionTest.chapterCount
         (fst (testBatotoConnection fetch clock seriesId w)).
Proof.
  unfold testBatotoConnection.
  destruct (scrapeBatotoChapters fetch clock seriesId w) as [[chapters | e] r];
    cbn; lia.
Qed.

(** [POST] on a body that passes the checks: what is left to do. *)
Lemma POST_accepted clock b mangaId input seriesId w :
  get b "mangaId" = Text mangaId -> mangaId <> EmptyString ->
  get b "batotoSeriesId" = Text input ->
  validateBatotoSeriesInput input = Some seriesId ->
  POST fetch cannotDestructure clock (Resolved b) w
  = let label := "[Batoto API] Error linking manga:" in
    let failure := "Failed to link manga to Batoto" in
    let asked := [FindUnique mangaId] in
    match findUnique mangaId w with
    | (Rejected error, w) => caught label failure error w [] [] asked
    | (Resolved None, w) =>
        answer 404 "Manga not found in database" None w asked
    | (Resolved (Some manga), w) =>
        let (testResult, r) := testBatotoConnection fetch clock seriesId w in
        if negb (ConnectionTest.success testResult) then
          mkHandled
            (mkNextResponse 400
               (Failure "Could not verify Batoto series"
                        (ConnectionTest.error testResult)))
            (JS.world r) (JS.exchanges r) (JS.console r) asked []
        else if ConnectionTest.chapterCount testResult =? 0 then
          mkHandled
            (mkNextResponse 400
               (Failure "No chapters found on Batoto for this series"
                  (Some "The series exists but has no chapters available")))
            (JS.world r) (JS.exchanges r) (JS.console r) asked []
        else
          let externalSource := createExternalSource batoto seriesId in
          let asked := asked ++ [Update mangaId (asValue externalSource)] in
          match update mangaId (asValue externalSource) (JS.world r) with
          | (Rejected error, w) =>
              caught label failure error w (JS.exchanges r) (JS.console r) asked
          | (Resolved _, w) =>
              mkHandled
                (mkNextResponse 200
                   (Linked mangaId externalSource
                      (ConnectionTest.chapterCount testResult)
                      ("Successfully linked " ++ title manga
                         ++ " to Batoto series with "
                         ++ ToString (ConnectionTest.chapterCount testResult)
                         ++ " chapters")%string))
                w (JS.exchanges r) (JS.console r) asked []
          end
    end.
Proof.
  intros Gm Hm Gs V. unfold POST.
  pose proof (validated_id_not_empty _ _ V) as Hne.
  assert (Hi : input <> EmptyString) by (intros ->; discriminate V).
  destruct b; try discriminate Gm; rewrite Gm, Gs, V;
    replace (negb (truthy (Text mangaId))) with false
      by (destruct mangaId; [congruence | reflexivity]);
    replace (negb (truthy (Text input))) with false
      by (destruct input; [congruence | reflexivity]);
    replace (negb (truthyString (Some seriesId))) with false
      by (destruct seriesId; [congruence | reflexivity]);
    reflexivity.
Qed.

(** [POST] on any other body: an answer, and nothing else. *)
Lemma POST_refused clock body w :
  (forall b mangaId input seriesId,
      body = Resolved b ->
      get b "mangaId" = Text mangaId -> mangaId <> EmptyString ->
      get b "batotoSeriesId" = Text input ->
      validateBatotoSeriesInput input <> Some seriesId) ->
  let h := POST fetch cannotDestructure clock body w in
  queries h = [] /\ Link.exchanges h = [] /\ Link.world h = w
  /\ (Routes.status (response h) = 400 \/ Routes.status (response h) = 500).
Proof.
  intros Hbad. cbv zeta. unfold POST.
  destruct body as [b | error]; [| cbn; tauto].
  specialize (Hbad b).
  destruct (get b "mangaId") as [| | ? | ? | mangaId | ? | ?] eqn:Gm;
    try (destruct b; cbn; tauto).
  destruct mangaId as [| c mangaId]; [destruct b; cbn; tauto |].
  cbn [truthy String.eqb negb].
  destruct (get b "batotoSeriesId") as [| | ? | ? | input | ? | ?] eqn:Gs;
    try (destruct b; cbn; tauto).
  destruct input as [| d input]; [destruct b; cbn; tauto |].
  cbn [truthy String.eqb negb].
  destruct (validateBatotoSeriesInput (String d input)) as [seriesId |] eqn:V;
    [| destruct b; cbn; tauto].
  exfalso. now apply (Hbad (String c mangaId) (String d input) seriesId).
Qed.

(** A body either passes the checks of [POST] or does not. *)
Lemma body_accepted_or_not (body : Settled Value) :
  (exists b mangaId input seriesId,
      body = Resolved b
      /\ get b "mangaId" = Text mangaId /\ mangaId <> EmptyString
      /\ get b "batotoSeriesId" = Text input
      /\ validateBatotoSeriesInput input = Some seriesId)
  \/ (forall b mangaId input seriesId,
         body = Resolved b ->
         get b "mangaId" = Text mangaId -> mangaId <> EmptyString ->
         get b "batotoSeriesId" = Text input ->
         validateBatotoSeriesInput input <> Some seriesId).
Proof.
  destruct body as [b | error]; [| right; discriminate].
  destruct (get b "mangaId") as [| | ? | ? | mangaId | ? | ?] eqn:Gm;
    try (right; intros ? ? ? ? [= <-]; congruence).
  destruct (string_dec mangaId EmptyString) as [-> | Hm];
    [right; intros ? ? ? ? [= <-]; congruence |].
  destruct (get b "batotoSeriesId") as [| | ? | ? | input | ? | ?] eqn:Gs;
    try (right; intros ? ? ? ? [= <-]; congruence).
  destruct (validateBatotoSeriesInput input) as [seriesId |] eqn:V.
  - left. now exists b, mangaId, input, seriesId.
  - right. intros ? ? ? ? [= <-]. congruence.
Qed.

(** X24. [POST] writes to the database only what the guard of [GET]
    accepts, and only after the checks: the update it sends, if any,
    stores the source made of the validated series id, for a manga the
    database holds, after a connection test that succeeded and counted
    at least one chapter; it is the second and last call on the
    database. *)
Theorem link_stores_only_tested_valid_sources clock body w id stored :
  let h := POST fetch cannotDestructure clock body w in
  In (Update id stored) (queries h) ->
  isValidExternalSource stored = true
  /\ queries h = [FindUnique id; Update id stored]
  /\ exists b input seriesId manga,
       body = Resolved b
       /\ get b "mangaId" = Text id
       /\ get b "batotoSeriesId" = Text input
       /\ validateBatotoSeriesInput input = Some seriesId
       /\ stored = asValue (createExternalSource batoto seriesId)
       /\ fst (findUnique id w) = Resolved (Some manga)
       /\ let test :=
            fst (testBatotoConnection fetch clock seriesId
                                      (snd (findUnique id w))) in
          ConnectionTest.success test = true
          /\ 0 < ConnectionTest.chapterCount test.
Proof.
  cbv zeta.
  destruct (body_accepted_or_not body)
    as [(b & mangaId & input & seriesId & -> & Gm & Hm & Gs & V) | Hbad].
  - rewrite (POST_accepted clock b mangaId input seriesId w Gm Hm Gs V).
    cbv zeta.
    destruct (findUnique mangaId w) as [[[manga |] | error] w1] eqn:F;
      [| cbn; intros [H | []]; discriminate H
       | cbn; intros [H | []]; discriminate H].
    pose proof (chapterCount_nonneg clock seriesId w1) as Hpos.
    destruct (testBatotoConnection fetch clock seriesId w1) as [test r] eqn:T.
    cbn [fst] in Hpos.
    destruct (ConnectionTest.success test) eqn:Hs; cbn [negb];
      [| cbn; intros [H | []]; discriminate H].
    destruct (ConnectionTest.chapterCount test =? 0) eqn:Hc;
      [cbn; intros [H | []]; discriminate H |].
    apply Z.eqb_neq in Hc.
    assert (Hq : forall h' : @Handled World,
               queries h'
               = [FindUnique mangaId;
                  Update mangaId (asValue (createExternalSource batoto seriesId))] ->
               In (Update id stored) (queries h') ->
               isValidExternalSource stored = true
               /\ queries h' = [FindUnique id; Update id stored]
               /\ exists b' input' seriesId' manga',
                    Resolved b = Resolved b'
                    /\ get b' "mangaId" = Text id
                    /\ get b' "batotoSeriesId" = Text input'
                    /\ validateBatotoSeriesInput input' = Some seriesId'
                    /\ stored = asValue (createExternalSource batoto seriesId')
                    /\ fst (findUnique id w) = Resolved (Some manga')
                    /\ ConnectionTest.success
                         (fst (testBatotoConnection fetch clock seriesId'
                                 (snd (findUnique id w)))) = true
                    /\ 0 < ConnectionTest.chapterCount
                             (fst (testBatotoConnection fetch clock seriesId'
                                     (snd (findUnique id w))))).
    { intros h' Hq Hin. rewrite Hq in Hin |- *.
      destruct Hin as [H | [H | []]]; [discriminate H |].
      injection H as <- <-.
      split; [exact (created_source_is_valid input seriesId V) |].
      split; [reflexivity |].
      exists b, input, seriesId, manga. rewrite F. cbn [fst snd]. rewrite T.
      cbn [fst]. repeat split; try assumption; try reflexivity. lia. }
    destruct (update mangaId _ (JS.world r)) as [[u | error] w2];
      apply Hq; reflexivity.
  - destruct (POST_refused clock body w Hbad) as (Hq & _).
    cbv zeta in Hq. rewrite Hq. intros [].
Qed.

(** X25. [POST] checks its input before anything else: unless the body
    holds a string mangaId that is not empty and a batotoSeriesId that
    [validateBatotoSeriesInput] accepts, it answers 400 (or 500 for a
    body that cannot be read) without a call on the database and
    without a request; and it sends a request only for a manga the
    database holds. *)
Theorem link_checks_input_before_any_effect clock body w :
  let h := POST fetch cannotDestructure clock body w in
  (queries h = [] ->
   Link.exchanges h = [] /\ Link.world h = w
   /\ (Routes.status (response h) = 400
       \/ Routes.status (response h) = 500))
  /\ (queries h <> [] ->
      exists b mangaId input seriesId rest,
        body = Resolved b
        /\ get b "mangaId" = Text mangaId /\ mangaId <> EmptyString
        /\ get b "batotoSeriesId" = Text input
        /\ validateBatotoSeriesInput input = Some seriesId
        /\ queries h = FindUnique mangaId :: rest)
  /\ (Link.exchanges h <> [] ->
      exists mangaId manga rest,
        queries h = FindUnique mangaId :: rest
        /\ fst (findUnique mangaId w) = Resolved (Some manga)).
Proof.
  cbv zeta.
  destruct (body_accepted_or_not body)
    as [(b & mangaId & input & seriesId & -> & Gm & Hm & Gs & V) | Hbad].
  - rewrite (POST_accepted clock b mangaId input seriesId w Gm Hm Gs V).
    cbv zeta.
    assert (Hall : forall (h' : @Handled World) rest,
               queries h' = FindUnique mangaId :: rest ->
               (Link.exchanges h' <> [] ->
                exists manga,
                  fst (findUnique mangaId w) = Resolved (Some manga)) ->
               (queries h' = [] ->
                Link.exchanges h' = [] /\ Link.world h' = w
                /\ (Routes.status (response h') = 400
                    \/ Routes.status (response h') = 500))
               /\ (queries h' <> [] ->
                   exists b' mangaId' input' seriesId' rest',
                     Resolved b = Resolved b'
                     /\ get b' "mangaId" = Text mangaId'
                     /\ mangaId' <> EmptyString
                     /\ get b' "batotoSeriesId" = Text input'
                     /\ validateBatotoSeriesInput input' = Some seriesId'
                     /\ queries h' = FindUnique mangaId' :: rest')
               /\ (Link.exchanges h' <> [] ->
                   exists mangaId' manga rest',
                     queries h' = FindUnique mangaId' :: rest'
                     /\ fst (findUnique mangaId' w) = Resolved (Some manga))).
    { intros h' rest Hq Hx. rewrite Hq. split; [discriminate |]. split.
      - intros _. now exists b, mangaId, input, seriesId, rest.
      - intros Hne. destruct (Hx Hne) as [manga Hf].
        now exists mangaId, manga, rest. }
    destruct (findUnique mangaId w) as [[[manga |] | error] w1] eqn:F.
    + destruct (testBatotoConnection fetch clock seriesId w1) as [test r].
      assert (Hf : forall l : list (string * Fetched string),
                 l <> [] ->
                 exists manga',
                   fst (Resolved (Some manga), w1) = Resolved (Some manga'))
        by (intros l _; now exists manga).
      destruct (negb (ConnectionTest.success test));
        [apply (Hall _ []); [reflexivity | apply Hf] |].
      destruct (ConnectionTest.chapterCount test =? 0);
        [apply (Hall _ []); [reflexivity | apply Hf] |].
      destruct (update mangaId _ (JS.world r)) as [[u | error] w2];
        (eapply Hall; [reflexivity | apply Hf]).
    + apply (Hall _ []); [reflexivity |]. cbn. congruence.
    + apply (Hall _ []); [reflexivity |]. cbn. congruence.
  - destruct (POST_refused clock body w Hbad) as (Hq & Hx & Hw & Hs).
    cbv zeta in Hq, Hx, Hw, Hs. rewrite Hq, Hx.
    split; [now intros _ |]. split; congruence.
Qed.

(** [GET] on a row the database holds. *)
Lemma GET_found id w row w' :
  id <> EmptyString ->
  findUnique id w = (Resolved (Some row), w') ->
  response (GET (Some id) w)
  = mkNextResponse 200
      (Source id (isValidExternalSource (externalSource row))
              (if isValidExternalSource (externalSource row)
               then externalSource row else Null)).
Proof.
  intros Hne F. unfold GET.
  replace (negb (truthyString (Some id))) with false
    by (destruct id; [congruence | reflexivity]).
  now rewrite F.
Qed.

(** X26. On a database that gives back what was written, a link that
    [POST] reports as made is the one [GET] then reports, with the
    source [POST] answered with; and after a [DELETE] that succeeded
    [GET] reports no source. *)
Theorem linked_source_is_read_back clock body w :
  readsItsWrites prisma ->
  (forall mangaId source count text,
      response (POST fetch cannotDestructure clock body w)
      = mkNextResponse 200 (Linked mangaId source count text) ->
      response (GET (Some mangaId)
                    (Link.world (POST fetch cannotDestructure clock body w)))
      = mkNextResponse 200 (Source mangaId true (asValue source)))
  /\ (forall id,
         Routes.status (response (DELETE (Some id) w)) = 200 ->
         response (GET (Some id) (Link.world (DELETE (Some id) w)))
         = mkNextResponse 200 (Source id false Null)).
Proof.
  intros Law. split.
  - intros id source count text.
    destruct (body_accepted_or_not body)
      as [(b & mangaId & input & seriesId & -> & Gm & Hm & Gs & V) | Hbad].
    + rewrite (POST_accepted clock b mangaId input seriesId w Gm Hm Gs V).
      cbv zeta.
      destruct (findUnique mangaId w) as [[[manga |] | error] w1];
        [| discriminate | discriminate].
      destruct (testBatotoConnection fetch clock seriesId w1) as [test r].
      destruct (negb (ConnectionTest.success test)); [discriminate |].
      destruct (ConnectionTest.chapterCount test =? 0); [discriminate |].
      destruct (update mangaId _ (JS.world r)) as [[u | error] w2] eqn:U;
        [| discriminate].
      cbn [response Link.world]. intros [= <- <- _ _].
      destruct (Law _ _ _ _ _ U) as (row & w3 & F & E).
      rewrite (GET_found mangaId w2 row w3 Hm F), E.
      now rewrite (created_source_is_valid input seriesId V).
    + destruct (POST_refused clock body w Hbad) as (_ & _ & _ & Hs).
      cbv zeta in Hs. intros H. rewrite H in Hs. cbn in Hs.
      destruct Hs; discriminate.
  - intros id. unfold DELETE.
    destruct (negb (truthyString (Some id))) eqn:T; [discriminate |].
    assert (Hne : id <> EmptyString) by (intros ->; discriminate T).
    destruct (findUnique id w) as [[[manga |] | error] w1];
      [| discriminate | discriminate].
    destruct (update id Null w1) as [[u | error] w2] eqn:U; [| discriminate].
    intros _. cbn [Link.world].
    destruct (Law _ _ _ _ _ U) as (row & w3 & F & E).
    now rewrite (GET_found id w2 row w3 Hne F), E.
Qed.

End Handlers.

(** The table in memory gives back what was written. *)
Lemma memory_reads_its_writes : readsItsWrites Fixtures.memory.
Proof.
  intros id value [table script] w' done. cbn.
  destruct (Fixtures.setSource id value table) as [table' |] eqn:S;
    [| discriminate].
  intros [= _ <-]. cbn.
  assert (H : exists row,
             Fixtures.findRow id table' = Some row
             /\ externalSource row = value).
  { revert table' S. induction table as [| row table IH]; intros table';
      cbn [Fixtures.setSource]; [discriminate |].
    destruct (String.eqb (Link.id row) id) eqn:E.
    - intros [= <-]. cbn. rewrite E. now eexists.
    - destruct (Fixtures.setSource id value table) as [rest |]; [| discriminate].
      intros [= <-]. cbn. rewrite E. now apply IH. }
  destruct H as (row & -> & E). now exists row, (Fixtures.mkStore table' script).
Qed.

(** X26, on the table in memory, with the series page of the
    fixtures: the link made is the link read. *)
Lemma link_of_series_page_is_read_back :
  response
    (GET (prisma := Fixtures.memory) (Some "m1")
       (Link.world
          (POST (cheerio := Fixtures.engine) (host := Fixtures.utc)
                (prisma := Fixtures.memory) Fixtures.serveStore
                "Cannot destructure" Fixtures.clock
                (Resolved (Object [("mangaId", Text "m1");
                                   ("batotoSeriesId",
                                    Text "https://mto.to/series/77")]))
                (Fixtures.library [Fixtures.okHtml Fixtures.seriesHtml]))))
  = mkNextResponse 200
      (Source "m1" true
         (Object [("provider", Text "batoto"); ("externalId", Text "77")])).
Proof.
  refine (proj1 (linked_source_is_read_back
                   (cheerio := Fixtures.engine) (host := Fixtures.utc)
                   (prisma := Fixtures.memory) Fixtures.serveStore
                   "Cannot destructure" Fixtures.clock
                   (Resolved (Object [("mangaId", Text "m1");
                                      ("batotoSeriesId",
                                       Text "https://mto.to/series/77")]))
                   (Fixtures.library [Fixtures.okHtml Fixtures.seriesHtml])
                   memory_reads_its_writes)
                "m1" (createExternalSource batoto "77") 4
                "Successfully linked One Piece to Batoto series with 4 chapters"
                _).
  vm_compute. reflexivity.
Defined.

(** X24, at the same request: what is stored passes the guard. *)
Lemma link_of_series_page_is_stored :
  isValidExternalSource
    (Object [("provider", Text "batoto"); ("externalId", Text "77")]) = true.
Proof.
  refine (proj1 (link_stores_only_tested_valid_sources
                   (cheerio := Fixtures.engine) (host := Fixtures.utc)
                   (prisma := Fixtures.memory) Fixtures.serveStore
                   "Cannot destructure" Fixtures.clock
                   (Resolved (Object [("mangaId", Text "m1");
                                      ("batotoSeriesId",
                                       Text "https://mto.to/series/77")]))
                   (Fixtures.library [Fixtures.okHtml Fixtures.seriesHtml])
                   "m1"
                   (Object [("provider", Text "batoto");
                            ("externalId", Text "77")]) _)).
  vm_compute. right. left. reflexivity.
Defined.

(** X25, at a body without a series id: no request is sent. *)
Lemma link_without_series_asks_nothing :
  Link.exchanges
    (POST (cheerio := Fixtures.engine) (host := Fixtures.utc)
          (prisma := Fixtures.memory) Fixtures.serveStore
          "Cannot destructure" Fixtures.clock
          (Resolved (Object [("mangaId", Text "m1")]))
          (Fixtures.library [Fixtures.okHtml Fixtures.seriesHtml]))
  = [].
Proof.
  refine (proj1 (proj1 (link_checks_input_before_any_effect
                          (cheerio := Fixtures.engine) (host := Fixtures.utc)
                          (prisma := Fixtures.memory) Fixtures.serveStore
                          "Cannot destructure" Fixtures.clock
                          (Resolved (Object [("mangaId", Text "m1")]))
                          (Fixtures.library [Fixtures.okHtml Fixtures.seriesHtml]))
                       _)).
  vm_compute. reflexivity.
Defined.

End LinkFacts.

(* ===================================================================== *)
(** * Properties of the swipe gesture hook                               *)
(* ===================================================================== *)

Module SwipeFacts.
Import JS SwipeGesture.

Section Hook.

Variable sqrt : number -> number.
Variable options : SwipeGestureOptions.

(** The point a touch leaves in a ref. *)
Abbreviation pointOf touch now :=
  (mkPoint (clientX touch) (clientY touch) (ofZ now)).

(** The callbacks called, as a list. *)
Abbreviation calls called :=
  (match called with
   | Some swipe => [swipe]
   | None => @nil Swipe
   end).

Lemma handleTouchEnd_clears refs :
  enabled options = true -> touchStartRef refs <> None ->
  fst (handleTouchEnd sqrt options refs) = mkRefs None None.
Proof.
  intros He Hs. unfold handleTouchEnd.
  destruct refs as [[start |] move]; cbn [touchStartRef touchMoveRef] in *;
    [| congruence].
  rewrite He. cbn [negb]. destruct move as [move |]; [| reflexivity].
  cbv zeta. now destruct (_ || _).
Qed.

Lemma moves_keep_the_start moves start move :
  enabled options = true ->
  dispatch sqrt options
    (map (fun m => touchmove (fst m) (snd m)) moves ++ [touchend])
    (mkRefs (Some start) move)
  = (mkRefs None None,
     calls (snd (handleTouchEnd sqrt options
                   (mkRefs (Some start)
                      (match rev moves with
                       | (touch, now) :: _ => Some (pointOf touch now)
                       | [] => move
                       end))))).
Proof.
  intros He. revert move.
  induction moves as [| [touch now] moves IH]; intros move;
    cbn [map app dispatch rev].
  - pose proof (handleTouchEnd_clears (mkRefs (Some start) move) He) as Hc.
    destruct (handleTouchEnd sqrt options (mkRefs (Some start) move))
      as [refs called].
    cbn [fst snd] in *. rewrite Hc by discriminate. now destruct called.
  - unfold handleTouchMove at 1. cbn [touchStartRef fst snd].
    rewrite He. cbn [negb].
    replace (fst (if preventScroll options
                  then (mkRefs (Some start) (Some (pointOf touch now)),
                        greaterThan (abs (sub (clientX touch) (x start)))
                                    (abs (sub (clientY touch) (y start)))
                        && greaterThan (abs (sub (clientX touch) (x start)))
                                       (Finite 10))
                  else (mkRefs (Some start) (Some (pointOf touch now)), false)))
      with (mkRefs (Some start) (Some (pointOf touch now)))
      by now destruct (preventScroll options).
    rewrite IH. do 3 f_equal.
    destruct (rev moves) as [| [t n] l] eqn:R; cbn [app]; reflexivity.
Qed.

(** X21. With the hook enabled, a gesture is judged by the point where
    it started and the point of its last move: the moves in between
    change nothing, a touch that ends without a move calls nothing,
    and after the touch end both refs are empty. *)
Theorem gesture_is_judged_by_start_and_last_move touch now moves refs :
  enabled options = true ->
  dispatch sqrt options
    (touchstart touch now
       :: map (fun m => touchmove (fst m) (snd m)) moves ++ [touchend])
    refs
  = (mkRefs None None,
     match rev moves with
     | [] => []
     | (last, at_) :: _ =>
         calls (snd (handleTouchEnd sqrt options
                       (mkRefs (Some (pointOf touch now))
                               (Some (pointOf last at_)))))
     end).
Proof.
  intros He. cbn [dispatch]. unfold handleTouchStart. rewrite He. cbn [negb].
  rewrite (moves_keep_the_start moves _ None He).
  destruct (rev moves) as [| [last at_] l]; [| reflexivity].
  unfold handleTouchEnd. cbn [touchStartRef touchMoveRef]. now rewrite He.
Qed.

(** X22. A touch end calls at most one callback, and which one is
    read off the move: a horizontal one only when the horizontal
    distance is strictly the greater, right for a positive and left for
    a negative one; otherwise a vertical one, down for a positive and
    up for a negative distance. The callback called was given, the
    hook is enabled, and the distance moved is not below the
    threshold. *)
Theorem swipe_follows_the_dominant_axis refs start move swipe :
  touchStartRef refs = Some start ->
  touchMoveRef refs = Some move ->
  snd (handleTouchEnd sqrt options refs) = Some swipe ->
  let deltaX := sub (x move) (x start) in
  let deltaY := sub (y move) (y start) in
  let distance := sqrt (add (times deltaX deltaX) (times deltaY deltaY)) in
  enabled options = true
  /\ lessThan distance (threshold options) = false
  /\ match swipe with
     | SwipeRight =>
         onSwipeRight options = true
         /\ greaterThan (abs deltaX) (abs deltaY) = true
         /\ greaterThan deltaX (Finite 0) = true
     | SwipeLeft =>
         onSwipeLeft options = true
         /\ greaterThan (abs deltaX) (abs deltaY) = true
         /\ lessThan deltaX (Finite 0) = true
     | SwipeDown =>
         onSwipeDown options = true
         /\ greaterThan (abs deltaX) (abs deltaY) = false
         /\ greaterThan deltaY (Finite 0) = true
     | SwipeUp =>
         onSwipeUp options = true
         /\ greaterThan (abs deltaX) (abs deltaY) = false
         /\ lessThan deltaY (Finite 0) = true
     end.
Proof.
  intros Hs Hm. unfold handleTouchEnd. rewrite Hs, Hm. cbv zeta.
  destruct (enabled options); cbn [negb snd]; [| discriminate].
  destruct (lessThan _ (threshold options)); cbn [orb snd]; [discriminate |].
  destruct (_ && lessThan _ (velocityThreshold options)); cbn [snd];
    [discriminate |].
  intros H. split; [reflexivity |]. split; [reflexivity |].
  destruct (greaterThan (abs _) (abs _)).
  - destruct (greaterThan _ (Finite 0)); cbn [andb] in *.
    + destruct (onSwipeRight options); [injection H as <-; now repeat split |].
      destruct (lessThan _ (Finite 0)); cbn [andb] in *; [| discriminate].
      destruct (onSwipeLeft options); [| discriminate].
      injection H as <-. now repeat split.
    + destruct (lessThan _ (Finite 0)); cbn [andb] in *; [| discriminate].
      destruct (onSwipeLeft options); [| discriminate].
      injection H as <-. now repeat split.
  - destruct (greaterThan _ (Finite 0)); cbn [andb] in *.
    + destruct (onSwipeDown options); [injection H as <-; now repeat split |].
      destruct (lessThan _ (Finite 0)); cbn [andb] in *; [| discriminate].
      destruct (onSwipeUp options); [| discriminate].
      injection H as <-. now repeat split.
    + destruct (lessThan _ (Finite 0)); cbn [andb] in *; [| discriminate].
      destruct (onSwipeUp options); [| discriminate].
      injection H as <-. now repeat split.
Qed.

(** The touch starts among some events. *)
Abbreviation starts events :=
  (List.length (filter (fun e => match e with
                                 | touchstart _ _ => true
                                 | _ => false
                                 end) events)).

(** A gesture under way: 1 while the start ref holds a point. *)
Abbreviation pending refs :=
  (match touchStartRef refs with
   | Some _ => 1%nat
   | None => 0%nat
   end).

Lemma handleTouchEnd_pending refs :
  (List.length (calls (snd (handleTouchEnd sqrt options refs)))
   + pending (fst (handleTouchEnd sqrt options refs)) <= pending refs)%nat.
Proof.
  unfold handleTouchEnd.
  destruct refs as [[start |] move]; cbn [touchStartRef touchMoveRef];
    [| cbn; lia].
  destruct (negb (enabled options)); [cbn; lia |].
  destruct move as [move |]; [| cbn; lia].
  cbv zeta. destruct (_ || _); [cbn; lia |].
  cbn [fst snd touchStartRef].
  match goal with
  | |- context [calls ?c] => destruct c
  end; cbn; lia.
Qed.

(** X23. Whatever the events and the options, the hook calls at most
    one callback for each touch start: a touch end that follows
    another one without a touch start in between calls nothing. *)
Theorem one_callback_per_touch_start events refs :
  (List.length (snd (dispatch sqrt options events refs))
   <= starts events + pending refs)%nat.
Proof.
  revert refs. induction events as [| [touch now | touch now |] events IH];
    intros refs; cbn [dispatch filter List.length].
  - cbn. lia.
  - specialize (IH (handleTouchStart options touch now refs)).
    assert (pending (handleTouchStart options touch now refs) <= 1)%nat.
    { unfold handleTouchStart.
      destruct (negb (enabled options)); cbn [touchStartRef];
        [destruct (touchStartRef refs) |]; lia. }
    lia.
  - specialize (IH (fst (handleTouchMove options touch now refs))).
    assert (E : touchStartRef (fst (handleTouchMove options touch now refs))
                = touchStartRef refs).
    { unfold handleTouchMove.
      destruct (touchStartRef refs) as [start |] eqn:S; [| exact S].
      destruct (negb (enabled options)); [exact S |].
      now destruct (preventScroll options). }
    rewrite E in IH. exact IH.
  - pose proof (handleTouchEnd_pending refs) as Hp.
    destruct (handleTouchEnd sqrt options refs) as [refs' called].
    cbn [fst snd] in Hp. specialize (IH refs').
    destruct (dispatch sqrt options events refs') as [refs'' later].
    cbn [snd] in *. destruct called; cbn [List.length] in *; lia.
Qed.

End Hook.

(** X21, at a move of 120 pixels to the right in 100 ms, the square
    root of 14400 being 120: the callback for a swipe to the right is
    called, once. *)
Lemma swipe_right_on_a_fast_move :
  dispatch (fun _ => Finite 120)
           (mkOptions true true false false DEFAULT_THRESHOLD
                      DEFAULT_VELOCITY_THRESHOLD false true)
           [ touchstart (mkTouch (Finite 10) (Finite 200)) 1000;
             touchmove (mkTouch (Finite 60) (Finite 201)) 1050;
             touchmove (mkTouch (Finite 130) (Finite 200)) 1100;
             touchend ]
           (mkRefs None None)
  = (mkRefs None None, [SwipeRight]).
Proof.
  refine (eq_trans (gesture_is_judged_by_start_and_last_move
             (fun _ => Finite 120)
             (mkOptions true true false false DEFAULT_THRESHOLD
                        DEFAULT_VELOCITY_THRESHOLD false true)
             (mkTouch (Finite 10) (Finite 200)) 1000
             [ (mkTouch (Finite 60) (Finite 201), 1050);
               (mkTouch (Finite 130) (Finite 200), 1100) ]
             (mkRefs None None) eq_refl) _).
  vm_compute. reflexivity.
Defined.

(** X22, at the same move. *)
Lemma fast_move_to_the_right :
  greaterThan (sub (Finite 130) (Finite 10)) (Finite 0) = true.
Proof.
  refine (proj2 (proj2 (proj2 (proj2
            (swipe_follows_the_dominant_axis
               (fun _ => Finite 120)
               (mkOptions true true false false DEFAULT_THRESHOLD
                          DEFAULT_VELOCITY_THRESHOLD false true)
               (mkRefs (Some (mkPoint (Finite 10) (Finite 200) (ofZ 1000)))
                       (Some (mkPoint (Finite 130) (Finite 200) (ofZ 1100))))
               (mkPoint (Finite 10) (Finite 200) (ofZ 1000))
               (mkPoint (Finite 130) (Finite 200) (ofZ 1100))
               SwipeRight eq_refl eq_refl _))))).
  vm_compute. reflexivity.
Defined.

End SwipeFacts.

